(** * DOCX to MDX converter: the conversion pipeline of [index.js]

    A shallow embedding of the [DocxToMdxConverter] class: the regular
    expressions of [postProcessForMdx] run on a small backtracking matcher
    that follows the ECMAScript semantics of the constructs they use, the
    front-matter composer, the image rule registered on the Markdown renderer,
    and the single-file and directory entry points over an explicit file
    system, extraction collaborator and log; then the action of the
    command line and, from [server.js], the handler of the upload
    endpoint, which both run the converter. *)

From Stdlib Require Import List NArith Arith Lia Bool String Ascii.
Import ListNotations.

(** ** JavaScript strings

    A JavaScript string is a sequence of UTF-16 code units. *)

Definition char := N.
Definition jsstring := list char.

(** An ASCII literal as a JavaScript string. *)
Definition str (s : string) : jsstring :=
  map N_of_ascii (list_ascii_of_string s).

Local Open Scope N_scope.

Definition LF : char := 10%N.
Definition CR : char := 13%N.
Definition SP : char := 32%N.
Definition DQ : char := 34%N.
Definition HASH : char := 35%N.
Definition DASH : char := 45%N.
Definition DOT : char := 46%N.
Definition SLASH : char := 47%N.
Definition BT : char := 96%N.
Definition TILDE : char := 126%N.

Definition char_eqb (a b : char) : bool := N.eqb a b.

Definition in_range (lo hi c : char) : bool := (N.leb lo c && N.leb c hi)%bool.

(** LineTerminator: LF, CR, U+2028, U+2029. *)
Definition is_line_terminator (c : char) : bool :=
  (N.eqb c 10 || N.eqb c 13 || N.eqb c 8232 || N.eqb c 8233)%bool.

(** The class [\s], also the set removed by [String.prototype.trim]:
    WhiteSpace and LineTerminator. *)
Definition is_space (c : char) : bool :=
  (in_range 9 13 c || N.eqb c 32 || N.eqb c 160 || N.eqb c 5760
   || in_range 8192 8202 c || N.eqb c 8232 || N.eqb c 8233 || N.eqb c 8239
   || N.eqb c 8287 || N.eqb c 12288 || N.eqb c 65279)%bool.

(** The class [\w]: [A-Za-z0-9_]. *)
Definition is_word (c : char) : bool :=
  (in_range 97 122 c || in_range 65 90 c || in_range 48 57 c || N.eqb c 95)%bool.

(** The class [.] (no [s] flag): anything but a line terminator. *)
Definition is_dot (c : char) : bool := negb (is_line_terminator c).

Definition is_lf (c : char) : bool := N.eqb c LF.
Definition is_hash (c : char) : bool := N.eqb c HASH.
Definition is_dash (c : char) : bool := N.eqb c DASH.
Definition is_bt (c : char) : bool := N.eqb c BT.

Local Close Scope N_scope.

(** ** A backtracking matcher for the regular expressions of the program *)

Module Regex.

(** The constructs used by the four patterns of [postProcessForMdx]:
    a character class, a greedy quantifier over a class ([*], [+], [{3,}],
    [{1,6}]), concatenation, a capture group, a greedy optional group, and
    the assertions [^] and [$] under the [m] flag. *)
Inductive regex : Type :=
| Cls (p : char -> bool)
| Rep (p : char -> bool) (lo : nat) (hi : option nat)
| Seq (r1 r2 : regex)
| Grp (i : nat) (r : regex)
| Opt (r : regex)
| Bol
| Eol.

(** The matcher state: the code unit before the current position (none at
    index 0), the input from the current position on, the number of code
    units consumed since the start of the attempt, and the captures. *)
Record mstate : Type := MState {
  ms_prev : option char;
  ms_rest : jsstring;
  ms_pos : nat;
  ms_caps : list (nat * jsstring)
}.

Definition cont := mstate -> option mstate.

Definition can_more (hi : option nat) : bool :=
  match hi with Some O => false | _ => true end.

Definition dec (hi : option nat) : option nat := option_map pred hi.

(** Greedy repetition of a class: take one more code unit when allowed and
    try the rest of the pattern from there; when that fails, stop here if
    the lower bound has been reached. *)
Fixpoint rep (p : char -> bool) (k : cont) (lo : nat) (hi : option nat)
    (prev : option char) (pos : nat) (caps : list (nat * jsstring))
    (rest : jsstring) {struct rest} : option mstate :=
  let stop := if Nat.eqb lo 0 then k (MState prev rest pos caps) else None in
  match rest with
  | c :: rest' =>
      if (p c && can_more hi)%bool then
        match rep p k (pred lo) (dec hi) (Some c) (S pos) caps rest' with
        | Some r => Some r
        | None => stop
        end
      else stop
  | [] => stop
  end.

(** Under the [m] flag [^] holds at index 0 and after a line terminator. *)
Definition at_line_start (prev : option char) : bool :=
  match prev with
  | None => true
  | Some c => is_line_terminator c
  end.

(** Under the [m] flag [$] holds at the end and before a line terminator. *)
Definition at_line_end (rest : jsstring) : bool :=
  match rest with
  | [] => true
  | c :: _ => is_line_terminator c
  end.

Definition set_cap (i : nat) (v : jsstring) (caps : list (nat * jsstring)) :
    list (nat * jsstring) :=
  (i, v) :: filter (fun e => negb (Nat.eqb (fst e) i)) caps.

(** The matcher, in continuation-passing style: [m r k s] matches [r] at
    [s] and hands the state reached to [k]; a failure of [k] makes [r]
    try its next alternative. *)
Fixpoint m (r : regex) (k : cont) (s : mstate) {struct r} : option mstate :=
  match r with
  | Cls p =>
      match ms_rest s with
      | c :: rest' =>
          if p c then k (MState (Some c) rest' (S (ms_pos s)) (ms_caps s))
          else None
      | [] => None
      end
  | Rep p lo hi => rep p k lo hi (ms_prev s) (ms_pos s) (ms_caps s) (ms_rest s)
  | Seq r1 r2 => m r1 (fun s' => m r2 k s') s
  | Grp i r1 =>
      m r1 (fun s' =>
              k (MState (ms_prev s') (ms_rest s') (ms_pos s')
                   (set_cap i (firstn (ms_pos s' - ms_pos s) (ms_rest s))
                      (ms_caps s'))))
        s
  | Opt r1 =>
      match m r1 k s with
      | Some x => Some x
      | None => k s
      end
  | Bol => if at_line_start (ms_prev s) then k s else None
  | Eol => if at_line_end (ms_rest s) then k s else None
  end.

(** One attempt at the current position. *)
Definition exec (r : regex) (prev : option char) (rest : jsstring) :
    option mstate :=
  m r Some (MState prev rest 0 []).

(** Replacement templates: literal text and [$n] references; a group that
    did not take part in the match expands to the empty string. *)
Inductive titem : Type :=
| TLit (s : jsstring)
| TGrp (i : nat).

Fixpoint get_cap (i : nat) (caps : list (nat * jsstring)) : jsstring :=
  match caps with
  | [] => []
  | (j, v) :: caps' => if Nat.eqb j i then v else get_cap i caps'
  end.

Fixpoint expand (t : list titem) (caps : list (nat * jsstring)) : jsstring :=
  match t with
  | [] => []
  | TLit s :: t' => s ++ expand t' caps
  | TGrp i :: t' => get_cap i caps ++ expand t' caps
  end.

(** [String.prototype.replace] with a global pattern: attempts run left to
    right; after a match the search resumes where the match ended (one code
    unit further after an empty match); unmatched code units are copied.
    [skip] counts the code units of the current match still to pass. *)
Fixpoint scan (r : regex) (t : list titem) (skip : nat) (prev : option char)
    (s : jsstring) {struct s} : jsstring :=
  match s with
  | [] =>
      match skip with
      | O => match exec r prev [] with
             | Some f => expand t (ms_caps f)
             | None => []
             end
      | S _ => []
      end
  | c :: s' =>
      match skip with
      | S n => scan r t n (Some c) s'
      | O =>
          match exec r prev s with
          | Some f =>
              expand t (ms_caps f) ++
              match ms_pos f with
              | O => c :: scan r t 0 (Some c) s'
              | S n => scan r t n (Some c) s'
              end
          | None => c :: scan r t 0 (Some c) s'
          end
      end
  end.

Definition replace_all (r : regex) (t : list titem) (s : jsstring) : jsstring :=
  scan r t 0 None s.

End Regex.

Import Regex.

(** ** The post-processor *)

Definition lit (c : char) : regex := Cls (N.eqb c).

(** The pattern "/\n{3,}/g", replaced by two line feeds. *)
Definition re_blank_lines : regex := Rep is_lf 3 None.
Definition tpl_blank_lines : list titem := [TLit [LF; LF]].

(** The pattern "/```(\w+)?\n\n/g", replaced by "```$1\n". *)
Definition re_code_fence : regex :=
  Seq (lit BT) (Seq (lit BT) (Seq (lit BT)
    (Seq (Opt (Grp 1 (Rep is_word 1 None))) (Seq (lit LF) (lit LF))))).
Definition tpl_code_fence : list titem := [TLit [BT; BT; BT]; TGrp 1; TLit [LF]].

(** The pattern [/^(\s* )-\s*\n/gm] (written here with a space after the
    first star), replaced by "$1- ". *)
Definition re_list_item : regex :=
  Seq Bol (Seq (Grp 1 (Rep is_space 0 None))
    (Seq (lit DASH) (Seq (Rep is_space 0 None) (lit LF)))).
Definition tpl_list_item : list titem := [TGrp 1; TLit [DASH; SP]].

(** The pattern "/^(#{1,6})\s+(.+)$/gm", replaced by "$1 $2". *)
Definition re_heading : regex :=
  Seq Bol (Seq (Grp 1 (Rep is_hash 1 (Some 6)))
    (Seq (Rep is_space 1 None) (Seq (Grp 2 (Rep is_dot 1 None)) Eol))).
Definition tpl_heading : list titem := [TGrp 1; TLit [SP]; TGrp 2].

Definition step1 (s : jsstring) : jsstring := replace_all re_blank_lines tpl_blank_lines s.
Definition step2 (s : jsstring) : jsstring := replace_all re_code_fence tpl_code_fence s.
Definition step3 (s : jsstring) : jsstring := replace_all re_list_item tpl_list_item s.
Definition step4 (s : jsstring) : jsstring := replace_all re_heading tpl_heading s.

Fixpoint drop_while (p : char -> bool) (s : jsstring) : jsstring :=
  match s with
  | [] => []
  | c :: s' => if p c then drop_while p s' else s
  end.

(** [String.prototype.trim] *)
Definition trim (s : jsstring) : jsstring :=
  rev (drop_while is_space (rev (drop_while is_space s))).

Definition postProcessForMdx (markdown : jsstring) : jsstring :=
  trim (step4 (step3 (step2 (step1 markdown)))).

Local Open Scope string_scope.
Local Open Scope list_scope.

(** ** The [path] module (POSIX flavour)

    [index.js] calls Node's [path.extname], [path.basename], [path.dirname]
    and [path.join]; they are modelled after Node's documented behaviour. *)

Module Path.

Definition is_slash (c : char) : bool := N.eqb c SLASH.
Definition is_dot_char (c : char) : bool := N.eqb c DOT.

Fixpoint take_while (p : char -> bool) (s : jsstring) : jsstring :=
  match s with
  | [] => []
  | c :: s' => if p c then c :: take_while p s' else []
  end.

Definition jsstring_eqb (a b : jsstring) : bool :=
  if list_eq_dec N.eq_dec a b then true else false.

(** The last portion of a path: trailing separators are ignored. *)
Definition component (p : jsstring) : jsstring :=
  rev (take_while (fun c => negb (is_slash c)) (drop_while is_slash (rev p))).

(** [path.extname]: from the last [.] of the last portion to its end; empty
    when there is no [.], when the only [.] is the first code unit of the
    portion, and for the portion [..]. *)
Definition extname (p : jsstring) : jsstring :=
  let c := component p in
  let after := take_while (fun x => negb (is_dot_char x)) (rev c) in
  if Nat.eqb (List.length after) (List.length c) then []
  else if Nat.eqb (S (List.length after)) (List.length c) then []
  else if jsstring_eqb c [DOT; DOT] then []
  else skipn (List.length c - S (List.length after)) c.

(** [path.basename(p, suffix)] for the suffixes the program passes: the
    empty string, or an extension that [extname] returned for the same
    path (a proper suffix of the last portion). *)
Definition basename (p suffix : jsstring) : jsstring :=
  let c := component p in
  match suffix with
  | [] => c
  | _ :: _ =>
      if jsstring_eqb suffix p then []
      else if (Nat.ltb (List.length suffix) (List.length c)
               && jsstring_eqb (skipn (List.length c - List.length suffix) c) suffix)%bool
      then firstn (List.length c - List.length suffix) c
      else c
  end.

(** [path.dirname] *)
Definition dirname (p : jsstring) : jsstring :=
  match p with
  | [] => [DOT]
  | c0 :: tl =>
      let r := drop_while is_slash (rev tl) in
      match drop_while (fun c => negb (is_slash c)) r with
      | [] => if is_slash c0 then [SLASH] else [DOT]
      | _ :: r' =>
          match r' with
          | [] => if is_slash c0 then [SLASH; SLASH] else [c0]
          | _ :: _ => c0 :: rev r'
          end
      end
  end.

(** Splitting at separators. *)
Fixpoint split_slash (acc : jsstring) (s : jsstring) : list jsstring :=
  match s with
  | [] => [rev acc]
  | c :: s' => if is_slash c then rev acc :: split_slash [] s'
               else split_slash (c :: acc) s'
  end.

(** The segment stack of [normalizeString]: empty and [.] segments are
    dropped, [..] removes the segment before it, or is kept when there is
    none to remove and the path is relative. *)
Fixpoint resolve (above : bool) (stack : list jsstring) (segs : list jsstring) :
    list jsstring :=
  match segs with
  | [] => rev stack
  | seg :: segs' =>
      if jsstring_eqb seg [] || jsstring_eqb seg [DOT] then resolve above stack segs'
      else if jsstring_eqb seg [DOT; DOT] then
        match stack with
        | top :: stack' =>
            if jsstring_eqb top [DOT; DOT]
            then resolve above (if above then seg :: stack else stack) segs'
            else resolve above stack' segs'
        | [] => resolve above (if above then [seg] else []) segs'
        end
      else resolve above (seg :: stack) segs'
  end.

Fixpoint join_slash (segs : list jsstring) : jsstring :=
  match segs with
  | [] => []
  | [seg] => seg
  | seg :: segs' => seg ++ SLASH :: join_slash segs'
  end.

(** [path.normalize] *)
Definition normalize (p : jsstring) : jsstring :=
  match p with
  | [] => [DOT]
  | c0 :: _ =>
      let absolute := is_slash c0 in
      let trailing := match rev p with c :: _ => is_slash c | [] => false end in
      let body := join_slash (resolve (negb absolute) [] (split_slash [] p)) in
      match body with
      | [] => if absolute then [SLASH]
              else if trailing then [DOT; SLASH] else [DOT]
      | _ :: _ =>
          let body' := if trailing then body ++ [SLASH] else body in
          if absolute then SLASH :: body' else body'
      end
  end.

(** [path.join] of two arguments. *)
Definition join (a b : jsstring) : jsstring :=
  match a, b with
  | [], [] => [DOT]
  | [], _ => normalize b
  | _, [] => normalize a
  | _, _ => normalize (a ++ SLASH :: b)
  end.

End Path.

(** [String.prototype.toLowerCase] on the letters A to Z; no other code
    unit lower-cases to a code unit of ".docx". *)
Definition lower (c : char) : char :=
  if in_range 65%N 90%N c then (c + 32)%N else c.

Definition toLowerCase (s : jsstring) : jsstring := map lower s.

Fixpoint startsWith (s pre : jsstring) : bool :=
  match pre, s with
  | [], _ => true
  | a :: pre', b :: s' => (N.eqb a b && startsWith s' pre')%bool
  | _ :: _, [] => false
  end.

(** ** The image rule of [configureTurndown] *)

(** [node.getAttribute(name) || ''] *)
Definition attr_or_empty (a : option jsstring) : jsstring :=
  match a with
  | Some v => v
  | None => []
  end.

Definition truthy (s : jsstring) : bool :=
  match s with
  | [] => false
  | _ :: _ => true
  end.

Definition image_replacement (alt_attr src_attr title_attr : option jsstring) :
    jsstring :=
  let alt := attr_or_empty alt_attr in
  let src := attr_or_empty src_attr in
  let title := attr_or_empty title_attr in
  if startsWith src (str "data:") then
    str "![" ++ alt ++ str "](" ++ src ++
    (if truthy title then SP :: DQ :: title ++ [DQ] else []) ++ str ")"
  else
    str "<img src=" ++ DQ :: src ++ DQ :: str " alt=" ++ DQ :: alt ++ [DQ] ++
    (if truthy title then str " title=" ++ DQ :: title ++ [DQ] else []) ++
    str " />".

(** ** The front-matter composer *)

(** [iso.split('T')[0]] *)
Definition before_T (iso : jsstring) : jsstring :=
  Path.take_while (fun c => negb (N.eqb c 84%N)) iso.

(** [addMdxFrontmatter]; [now] is the value of [new Date().toISOString()]. *)
Definition addMdxFrontmatter (now : jsstring) (content originalPath : jsstring) :
    jsstring :=
  let fileName := Path.basename originalPath (Path.extname originalPath) in
  let frontmatter :=
    str "---" ++ [LF] ++
    str "title: " ++ DQ :: fileName ++ [DQ; LF] ++
    str "description: " ++ DQ :: str "Converted from DOCX file" ++ [DQ; LF] ++
    str "date: " ++ DQ :: before_T now ++ [DQ; LF] ++
    str "---" ++ [LF] ++
    [LF] in
  frontmatter ++ content.

(** ** The conversion orchestrator *)

(** The failures a conversion can end with (section 7 of the design):
    [fs.access] rejecting a missing source, the extraction collaborator
    throwing, a storage operation failing. *)
Inductive error : Type :=
| NotFoundError (path : jsstring)
| ExtractionError (message : jsstring)
| IOError (message : jsstring).

(** What the program prints with [console.log] and [console.error]. *)
Inductive message : Type :=
| MsgReading (inputPath : jsstring)
| MsgWarningsHeader
| MsgWarning (text : jsstring)
| MsgConverting
| MsgSuccess (outputPath : jsstring)
| MsgErrorConverting (e : error)
| MsgProcessingDirectory (inputDir : jsstring)
| MsgNoDocxFiles
| MsgFailedToConvert (file : jsstring) (e : error)
| MsgConverted (count : nat)
| MsgErrorProcessingDirectory (e : error).

(** The observable history of a run: printed lines and the calls made to
    the collaborators. *)
Inductive event : Type :=
| EvLog (m : message)
| EvAccess (path : jsstring)
| EvExtract (path : jsstring)
| EvRender (html : jsstring)
| EvWriteFile (path content : jsstring)
| EvMkdir (path : jsstring)
| EvReaddir (path : jsstring).

(** What the extraction collaborator returns: [value] and [messages]. *)
Record extraction : Type := Extraction {
  ex_value : jsstring;
  ex_messages : list jsstring
}.

(** The collaborators of the converter: storage ([fs]), the extractor
    ([mammoth.convertToHtml]), the configured renderer
    ([turndownService.turndown]) and the clock, read as a function of the
    number of events so far. *)
Record collaborators (FS : Type) : Type := Collaborators {
  fs_exists : FS -> jsstring -> bool;
  fs_readdir : FS -> jsstring -> error + list jsstring;
  fs_writeFile : FS -> jsstring -> jsstring -> error + FS;
  fs_mkdir : FS -> jsstring -> error + FS;
  convertToHtml : FS -> jsstring -> error + extraction;
  turndown : jsstring -> jsstring;
  toISOString : nat -> jsstring
}.

Arguments fs_exists {FS}.
Arguments fs_readdir {FS}.
Arguments fs_writeFile {FS}.
Arguments fs_mkdir {FS}.
Arguments convertToHtml {FS}.
Arguments turndown {FS}.
Arguments toISOString {FS}.

Section Orchestrator.

Variable FS : Type.
Variable env : collaborators FS.

Record world : Type := World {
  w_fs : FS;
  w_trace : list event
}.

(** Computations that may throw and that act on the world. *)
Definition M (A : Type) : Type := world -> (error + A) * world.

Definition ret {A : Type} (a : A) : M A := fun w => (inr a, w).
Definition throw {A : Type} (e : error) : M A := fun w => (inl e, w).
Definition bind {A B : Type} (c : M A) (k : A -> M B) : M B :=
  fun w =>
    match c w with
    | (inr a, w') => k a w'
    | (inl e, w') => (inl e, w')
    end.
Definition try_catch {A : Type} (c : M A) (h : error -> M A) : M A :=
  fun w =>
    match c w with
    | (inr a, w') => (inr a, w')
    | (inl e, w') => h e w'
    end.

Notation "x <- c ;; k" := (bind c (fun x => k))
  (at level 61, c at next level, right associativity).
Notation "c ;;; k" := (bind c (fun _ => k))
  (at level 61, right associativity).

Definition emit (e : event) : M unit :=
  fun w => (inr tt, World (w_fs w) (w_trace w ++ [e])).
Definition log (m : message) : M unit := emit (EvLog m).

(** [await fs.access(path)] *)
Definition access (path : jsstring) : M unit :=
  emit (EvAccess path) ;;;
  fun w => if fs_exists env (w_fs w) path then (inr tt, w)
           else (inl (NotFoundError path), w).

(** [await mammoth.convertToHtml({ path })] *)
Definition extract (path : jsstring) : M extraction :=
  emit (EvExtract path) ;;;
  fun w => (convertToHtml env (w_fs w) path, w).

(** [this.turndownService.turndown(html)] *)
Definition render (html : jsstring) : M jsstring :=
  emit (EvRender html) ;;; ret (turndown env html).

(** [await fs.writeFile(path, content, 'utf8')] *)
Definition writeFile (path content : jsstring) : M unit :=
  emit (EvWriteFile path content) ;;;
  fun w => match fs_writeFile env (w_fs w) path content with
           | inr fs' => (inr tt, World fs' (w_trace w))
           | inl e => (inl e, w)
           end.

(** [await fs.mkdir(path, { recursive: true })] *)
Definition mkdir (path : jsstring) : M unit :=
  emit (EvMkdir path) ;;;
  fun w => match fs_mkdir env (w_fs w) path with
           | inr fs' => (inr tt, World fs' (w_trace w))
           | inl e => (inl e, w)
           end.

(** [await fs.readdir(path)] *)
Definition readdir (path : jsstring) : M (list jsstring) :=
  emit (EvReaddir path) ;;;
  fun w => (fs_readdir env (w_fs w) path, w).

(** [new Date().toISOString()] *)
Definition now : M jsstring :=
  fun w => (inr (toISOString env (List.length (w_trace w))), w).

Fixpoint log_warnings (msgs : list jsstring) : M unit :=
  match msgs with
  | [] => ret tt
  | t :: msgs' => log (MsgWarning t) ;;; log_warnings msgs'
  end.

(** The warnings of the extraction, printed under a header when there are
    any. *)
Definition report_warnings (msgs : list jsstring) : M unit :=
  match msgs with
  | [] => ret tt
  | _ :: _ => log MsgWarningsHeader ;;; log_warnings msgs
  end.

(** [!outputPath]: true for [null] and for the empty string. *)
Definition falsy (p : option jsstring) : bool :=
  match p with
  | Some (_ :: _) => false
  | _ => true
  end.

Definition derived_output (inputPath : jsstring) : jsstring :=
  let inputDir := Path.dirname inputPath in
  let inputName := Path.basename inputPath (Path.extname inputPath) in
  Path.join inputDir (inputName ++ str ".mdx").

Definition convertDocxToMdx (inputPath : jsstring) (outputPath : option jsstring) :
    M jsstring :=
  try_catch
    (log (MsgReading inputPath) ;;;
     access inputPath ;;;
     result <- extract inputPath ;;
     let html := ex_value result in
     report_warnings (ex_messages result) ;;;
     log MsgConverting ;;;
     markdown <- render html ;;
     let markdown := postProcessForMdx markdown in
     let outputPath :=
       if falsy outputPath then derived_output inputPath
       else attr_or_empty outputPath in
     date <- now ;;
     let mdxContent := addMdxFrontmatter date markdown inputPath in
     writeFile outputPath mdxContent ;;;
     log (MsgSuccess outputPath) ;;;
     ret outputPath)
    (fun e => log (MsgErrorConverting e) ;;; throw e).

(** The filter of [convertDirectory]. *)
Definition is_docx (file : jsstring) : bool :=
  (Path.jsstring_eqb (toLowerCase (Path.extname file)) (str ".docx")
   && negb (startsWith (Path.basename file []) (str "~")))%bool.

(** The body of the [for] loop, over the files still to visit. *)
Fixpoint convert_each (inputDir : jsstring) (outputDir : option jsstring)
    (files : list jsstring) (outputPaths : list jsstring) : M (list jsstring) :=
  match files with
  | [] => ret outputPaths
  | file :: files' =>
      let inputPath := Path.join inputDir file in
      outputPath <-
        (if falsy outputDir then ret None
         else
           mkdir (attr_or_empty outputDir) ;;;
           let fileName := Path.basename file (Path.extname file) in
           ret (Some (Path.join (attr_or_empty outputDir) (fileName ++ str ".mdx")))) ;;
      outputPaths' <-
        try_catch
          (convertedPath <- convertDocxToMdx inputPath outputPath ;;
           ret (outputPaths ++ [convertedPath]))
          (fun e => log (MsgFailedToConvert file e) ;;; ret outputPaths) ;;
      convert_each inputDir outputDir files' outputPaths'
  end.

Definition convertDirectory (inputDir : jsstring) (outputDir : option jsstring) :
    M (list jsstring) :=
  try_catch
    (log (MsgProcessingDirectory inputDir) ;;;
     files <- readdir inputDir ;;
     let docxFiles := filter is_docx files in
     match docxFiles with
     | [] => log MsgNoDocxFiles ;;; ret []
     | _ :: _ =>
         outputPaths <- convert_each inputDir outputDir docxFiles [] ;;
         log (MsgConverted (List.length outputPaths)) ;;;
         ret outputPaths
     end)
    (fun e => log (MsgErrorProcessingDirectory e) ;;; throw e).

End Orchestrator.

Arguments World {FS}.
Arguments w_fs {FS}.
Arguments w_trace {FS}.
Arguments convertDocxToMdx {FS}.
Arguments convert_each {FS}.
Arguments convertDirectory {FS}.
Arguments ret {FS A}.
Arguments throw {FS A}.
Arguments bind {FS A B}.
Arguments try_catch {FS A}.
Arguments emit {FS}.
Arguments log {FS}.
Arguments access {FS}.
Arguments extract {FS}.
Arguments render {FS}.
Arguments writeFile {FS}.
Arguments mkdir {FS}.
Arguments readdir {FS}.
Arguments now {FS}.
Arguments log_warnings {FS}.
Arguments report_warnings {FS}.
(** ** Auxiliary notions used in the statements *)

(** The number of leading code units of [s] in the class [p]. *)
Fixpoint prefix_len (p : char -> bool) (s : jsstring) : nat :=
  match s with
  | [] => 0
  | c :: s' => if p c then S (prefix_len p s') else 0
  end.

(** How far a greedy quantifier can go. *)
Definition reach (p : char -> bool) (hi : option nat) (s : jsstring) : nat :=
  match hi with
  | None => prefix_len p s
  | Some h => Nat.min h (prefix_len p s)
  end.

(** The code unit before position [j] of [s], [prev] being the one before
    position 0. *)
Definition prev_at (prev : option char) (s : jsstring) (j : nat) : option char :=
  match j with
  | O => prev
  | S j' => nth_error s j'
  end.

(** The matcher state [j] code units further. *)
Definition after (prev : option char) (pos : nat) (caps : list (nat * jsstring))
    (rest : jsstring) (j : nat) : mstate :=
  MState (prev_at prev rest j) (skipn j rest) (pos + j) caps.

(** The steps resumed inside a text, [prev] being the code unit before the
    current position. *)
Definition step3_at (prev : option char) (s : jsstring) : jsstring :=
  scan re_list_item tpl_list_item 0 prev s.
Definition step4_at (prev : option char) (s : jsstring) : jsstring :=
  scan re_heading tpl_heading 0 prev s.

(** Whether the run of blanks at the head of [s] holds a line feed. *)
Fixpoint blank_run_has_lf (s : jsstring) : bool :=
  match s with
  | [] => false
  | c :: s' => if N.eqb c LF then true
               else if is_space c then blank_run_has_lf s' else false
  end.

(** Matcher states that differ only in a [prev] that starts a line or not. *)
Definition sim (a b : mstate) : Prop :=
  at_line_start (ms_prev a) = at_line_start (ms_prev b) /\
  ms_rest a = ms_rest b /\ ms_pos a = ms_pos b /\ ms_caps a = ms_caps b.

Definition osim (a b : option mstate) : Prop :=
  match a, b with
  | Some x, Some y => sim x y
  | None, None => True
  | _, _ => False
  end.

Definition ksim (k k' : cont) : Prop :=
  forall a b, sim a b -> osim (k a) (k' b).


(** A text that begins with three backticks, a run of word code units
    (the language tag, possibly empty) and two line feeds: the tag and the
    text after the two line feeds. *)
Definition fence_blank (s : jsstring) : option (jsstring * jsstring) :=
  match s with
  | a :: b :: c :: s3 =>
      if (N.eqb BT a && N.eqb BT b && N.eqb BT c)%bool then
        match drop_while is_word s3 with
        | x :: y :: rest =>
            if (N.eqb LF x && N.eqb LF y)%bool
            then Some (Path.take_while is_word s3, rest)
            else None
        | _ => None
        end
      else None
  | _ => None
  end.

(** The captures of a match of the fence pattern. *)
Definition fence_caps (tag : jsstring) : list (nat * jsstring) :=
  match tag with
  | [] => []
  | _ :: _ => [(1, tag)]
  end.


(** *** Reading a trace *)

Fixpoint pick {A : Type} (f : event -> option A) (t : list event) : list A :=
  match t with
  | [] => []
  | e :: t' =>
      match f e with
      | Some a => a :: pick f t'
      | None => pick f t'
      end
  end.

(** The sources announced as being read, in order. *)
Definition readings : list event -> list jsstring :=
  pick (fun e => match e with EvLog (MsgReading p) => Some p | _ => None end).

(** The destinations announced as converted, in order. *)
Definition successes : list event -> list jsstring :=
  pick (fun e => match e with EvLog (MsgSuccess p) => Some p | _ => None end).

(** The files reported as failed by the batch, in order. *)
Definition failures : list event -> list jsstring :=
  pick (fun e => match e with
                 | EvLog (MsgFailedToConvert file _) => Some file
                 | _ => None
                 end).

(** The calls made to the extraction collaborator. *)
Definition extractions : list event -> list jsstring :=
  pick (fun e => match e with EvExtract p => Some p | _ => None end).

(** The paths handed to [fs.writeFile]. *)
Definition writes : list event -> list jsstring :=
  pick (fun e => match e with EvWriteFile p _ => Some p | _ => None end).

(** The events of the warnings of one extraction. *)
Definition warning_events (msgs : list jsstring) : list event :=
  match msgs with
  | [] => []
  | _ :: _ => EvLog MsgWarningsHeader :: map (fun t => EvLog (MsgWarning t)) msgs
  end.

(** The members of a list kept by a mask. *)
Fixpoint select {A : Type} (mask : list bool) (l : list A) : list A :=
  match mask, l with
  | b :: mask', a :: l' => if b then a :: select mask' l' else select mask' l'
  | _, _ => []
  end.

(** [s.endsWith(suffix)] *)
Definition endsWith (s suffix : jsstring) : bool :=
  (Nat.leb (List.length suffix) (List.length s)
   && Path.jsstring_eqb (skipn (List.length s - List.length suffix) s) suffix)%bool.

(** The destination of a file of the batch. *)
Definition batch_target (inputDir : jsstring) (outputDir : option jsstring)
    (file : jsstring) : jsstring :=
  if falsy outputDir then
    let inputPath := Path.join inputDir file in
    Path.join (Path.dirname inputPath)
      (Path.basename inputPath (Path.extname inputPath) ++ str ".mdx")
  else
    Path.join (attr_or_empty outputDir)
      (Path.basename file (Path.extname file) ++ str ".mdx").

(** *** A small in-memory instance of the collaborators

    Directories are listings, files are an association list; extraction
    hands back the content of a non-empty file as its HTML and fails on an
    empty one; the renderer is the identity. *)

Record mem_fs : Type := MemFs {
  mf_listing : list (jsstring * list jsstring);
  mf_files : list (jsstring * jsstring)
}.

Fixpoint assoc {A : Type} (k : jsstring) (l : list (jsstring * A)) : option A :=
  match l with
  | [] => None
  | (k', v) :: l' => if Path.jsstring_eqb k k' then Some v else assoc k l'
  end.

Definition mem_env : collaborators mem_fs :=
  {| fs_exists := fun fs p =>
       match assoc p (mf_files fs) with Some _ => true | None => false end;
     fs_readdir := fun fs d =>
       match assoc d (mf_listing fs) with
       | Some l => inr l
       | None => inl (NotFoundError d)
       end;
     fs_writeFile := fun fs p c => inr (MemFs (mf_listing fs) ((p, c) :: mf_files fs));
     fs_mkdir := fun fs _ => inr fs;
     convertToHtml := fun fs p =>
       match assoc p (mf_files fs) with
       | Some (c :: content) => inr (Extraction (c :: content) [])
       | Some [] => inl (ExtractionError (str "empty document"))
       | None => inl (NotFoundError p)
       end;
     turndown := fun html => html;
     toISOString := fun _ => str "2024-05-06T07:08:09.000Z" |}.

(** A directory [docs] listing [a.docx], [~temp.docx] and [b.txt]. *)
Definition docs_fs : mem_fs :=
  MemFs [(str "docs", [str "a.docx"; str "~temp.docx"; str "b.txt"])]
        [(str "docs/a.docx", str "<h1>Title</h1>");
         (str "docs/~temp.docx", str "lock");
         (str "docs/b.txt", str "text")].

(** A directory whose second document is empty, hence fails to convert. *)
Definition mixed_fs : mem_fs :=
  MemFs [(str "in", [str "one.docx"; str "bad.docx"; str "two.DOCX"])]
        [(str "in/one.docx", str "first");
         (str "in/bad.docx", []);
         (str "in/two.DOCX", str "second")].

(** *** Recognisers of what the patterns match

    Each one decides, by a plain traversal, whether a pattern matches at
    the head of a text, and returns the parts of the match. *)

(** The split of a text at the last line feed of its leading blanks. *)
Fixpoint split_last_lf (s : jsstring) : option (jsstring * jsstring) :=
  match s with
  | [] => None
  | c :: s' =>
      if is_space c then
        match split_last_lf s' with
        | Some (ws, rest) => Some (c :: ws, rest)
        | None => if N.eqb c LF then Some ([], s') else None
        end
      else None
  end.

(** A bullet-only line at the head of a text: its indentation, the blanks
    between the marker and the last line feed of the blanks that follow
    it, and the text after that line feed. *)
Definition bullet_line (s : jsstring) : option (jsstring * jsstring * jsstring) :=
  match drop_while is_space s with
  | d :: s1 =>
      if N.eqb d DASH then
        match split_last_lf s1 with
        | Some (ws, rest) => Some (Path.take_while is_space s, ws, rest)
        | None => None
        end
      else None
  | [] => None
  end.

(** The longest non-empty run of leading blanks that is followed by a code
    unit other than a line terminator, and what follows it. *)
Fixpoint heading_split (s : jsstring) : option (jsstring * jsstring) :=
  match s with
  | [] => None
  | c :: s' =>
      if is_space c then
        match heading_split s' with
        | Some (W, r) => Some (c :: W, r)
        | None =>
            match s' with
            | d :: _ => if is_dot d then Some ([c], s') else None
            | [] => None
            end
        end
      else None
  end.

(** A heading line at the head of a text: the number of markers, the
    blanks, the heading text and what follows it. *)
Definition heading_line (s : jsstring) :
    option (nat * jsstring * jsstring * jsstring) :=
  let n := prefix_len is_hash s in
  if (Nat.leb 1 n && Nat.leb n 6)%bool then
    match heading_split (skipn n s) with
    | Some (W, r) =>
        Some (n, W, Path.take_while is_dot r, drop_while is_dot r)
    | None => None
    end
  else None.

Definition is_some {A : Type} (o : option A) : bool :=
  match o with
  | Some _ => true
  | None => false
  end.

(** *** Texts that a step leaves alone *)

(** No three line feeds in a row, [k] line feeds standing before the
    text. *)
Fixpoint no3 (k : nat) (s : jsstring) : bool :=
  match s with
  | [] => true
  | c :: s' => if N.eqb c LF then (Nat.ltb k 2 && no3 (S k) s')%bool else no3 0 s'
  end.

(** No position where the fence pattern matches. *)
Fixpoint nofb (s : jsstring) : bool :=
  match s with
  | [] => true
  | _ :: s' => (negb (is_some (fence_blank s)) && nofb s')%bool
  end.

(** No position where the list pattern matches. *)
Fixpoint nobl (prev : option char) (s : jsstring) : bool :=
  match s with
  | [] => true
  | c :: s' =>
      (negb (at_line_start prev && is_some (bullet_line s)) && nobl (Some c) s')%bool
  end.

(** *** The steps as relations between a text and its rewriting *)

Inductive rw1 : jsstring -> jsstring -> Prop :=
| rw1_nil : rw1 [] []
| rw1_copy c s out :
    Nat.ltb (prefix_len is_lf (c :: s)) 3 = true ->
    rw1 s out -> rw1 (c :: s) (c :: out)
| rw1_hit n rest out :
    3 <= n -> prefix_len is_lf rest = 0 ->
    rw1 rest out -> rw1 (repeat LF n ++ rest) (LF :: LF :: out).

Inductive rw2 : jsstring -> jsstring -> Prop :=
| rw2_nil : rw2 [] []
| rw2_copy c s out :
    fence_blank (c :: s) = None ->
    rw2 s out -> rw2 (c :: s) (c :: out)
| rw2_hit tag rest out :
    forallb is_word tag = true ->
    rw2 rest out ->
    rw2 (BT :: BT :: BT :: tag ++ LF :: LF :: rest)
        (BT :: BT :: BT :: tag ++ LF :: out).

Inductive rw3 : option char -> jsstring -> jsstring -> Prop :=
| rw3_nil prev : rw3 prev [] []
| rw3_copy prev c s out :
    (at_line_start prev && is_some (bullet_line (c :: s)))%bool = false ->
    rw3 (Some c) s out -> rw3 prev (c :: s) (c :: out)
| rw3_hit prev indent ws rest out :
    at_line_start prev = true ->
    forallb is_space indent = true ->
    forallb is_space ws = true ->
    blank_run_has_lf rest = false ->
    rw3 (Some LF) rest out ->
    rw3 prev (indent ++ DASH :: ws ++ LF :: rest) (indent ++ DASH :: SP :: out).

Inductive rw4 : option char -> jsstring -> jsstring -> Prop :=
| rw4_nil prev : rw4 prev [] []
| rw4_copy prev c s out :
    (at_line_start prev && is_some (heading_line (c :: s)))%bool = false ->
    rw4 (Some c) s out -> rw4 prev (c :: s) (c :: out)
| rw4_hit prev n W text rest out :
    at_line_start prev = true ->
    heading_line (repeat HASH n ++ W ++ text ++ rest) = Some (n, W, text, rest) ->
    rw4 (prev_at prev text (List.length text)) rest out ->
    rw4 prev (repeat HASH n ++ W ++ text ++ rest)
        (repeat HASH n ++ SP :: text ++ out).

(** What one attempt contributes to a replacement: the text put in place
    of the match and the length of the match. *)
Definition hit (r : regex) (t : list titem) (prev : option char) (s : jsstring) :
    option (jsstring * nat) :=
  match exec r prev s with
  | Some f => Some (expand t (ms_caps f), ms_pos f)
  | None => None
  end.

(** The rewriting of step 1 and of step 2 resumed inside a text. *)
Definition step1_at (prev : option char) (s : jsstring) : jsstring :=
  scan re_blank_lines tpl_blank_lines 0 prev s.
Definition step2_at (prev : option char) (s : jsstring) : jsstring :=
  scan re_code_fence tpl_code_fence 0 prev s.

(** Whether a text begins with three backticks. *)
Definition starts3bt (l : jsstring) : bool :=
  match l with
  | a :: b :: c :: _ => (N.eqb BT a && N.eqb BT b && N.eqb BT c)%bool
  | _ => false
  end.


(** The four rewritings of [postProcessForMdx], before the trimming. *)
Definition rewrite_all (s : jsstring) : jsstring :=
  step4 (step3 (step2 (step1 s))).

(** A text that does not begin with a blank. *)
Definition no_lead (s : jsstring) : Prop :=
  match s with
  | c :: _ => is_space c = false
  | [] => True
  end.

(** A text that does not end with a blank. *)
Definition ends_well (s : jsstring) : Prop :=
  match rev s with
  | c :: _ => is_space c = false
  | [] => True
  end.

(** Trimming at the end only. *)
Definition rtrim (s : jsstring) : jsstring :=
  rev (drop_while is_space (rev s)).

(** A text that each of the four rewritings leaves alone. *)
Definition settled (s : jsstring) : Prop :=
  no3 0 s = true /\ nofb s = true /\ nobl None s = true /\ rw4 None s s.

(** ** Further notions about texts *)

(** The code units of a text that are not blanks, in order. *)
Definition nonspace (s : jsstring) : jsstring :=
  filter (fun c => negb (is_space c)) s.

(** A text that does not end with a line feed. *)
Definition ends_no_lf (s : jsstring) : Prop :=
  match rev s with
  | c :: _ => N.eqb c LF = false
  | [] => True
  end.

(** ** More readings of a trace *)

(** The paths handed to [fs.access]. *)
Definition accesses : list event -> list jsstring :=
  pick (fun e => match e with EvAccess p => Some p | _ => None end).

(** The paths handed to [fs.mkdir]. *)
Definition mkdirs : list event -> list jsstring :=
  pick (fun e => match e with EvMkdir p => Some p | _ => None end).

(** The destination of a single-file conversion. *)
Definition target (inputPath : jsstring) (outputPath : option jsstring) : jsstring :=
  if falsy outputPath then derived_output inputPath else attr_or_empty outputPath.

(** The in-memory collaborators over a storage that refuses every change:
    [fs.writeFile] and [fs.mkdir] fail. *)
Definition ro_env : collaborators mem_fs :=
  {| fs_exists := fs_exists mem_env;
     fs_readdir := fs_readdir mem_env;
     fs_writeFile := fun _ _ _ => inl (IOError (str "read-only storage"));
     fs_mkdir := fun _ _ => inl (IOError (str "read-only storage"));
     convertToHtml := convertToHtml mem_env;
     turndown := turndown mem_env;
     toISOString := toISOString mem_env |}.

(** ** The command-line action of [index.js]

    What commander hands to the action of the [convert] command: the input
    argument and the options [--output] and [--directory]. *)

Record options : Type := Options {
  opt_output : option jsstring;
  opt_directory : bool
}.

(** How the action ends: it returns, or it prints the error and calls
    [process.exit]. *)
Inductive ending : Type :=
| Returned
| Exited (code : nat) (printed : error).

Section Cli.

Variable FS : Type.
Variable env : collaborators FS.

(** [fs.stat(path)] followed by [stats.isDirectory()], or the error of
    [fs.stat]. *)
Variable fs_stat : FS -> jsstring -> error + bool.

Definition stat (path : jsstring) : M FS bool :=
  fun w => (fs_stat (w_fs w) path, w).

Definition action (input : jsstring) (options : options) :
    world FS -> ending * world FS :=
  fun w =>
    match
      bind (stat input) (fun isDirectory =>
        if (isDirectory || opt_directory options)%bool
        then bind (convertDirectory env input (opt_output options))
                  (fun _ => ret tt)
        else bind (convertDocxToMdx env input (opt_output options))
                  (fun _ => ret tt)) w
    with
    | (inr _, w') => (Returned, w')
    | (inl error, w') => (Exited 1 error, w')
    end.

End Cli.

Arguments stat {FS}.
Arguments action {FS}.

(** [fs.stat] on the in-memory storage: a listed directory, a file, or
    nothing. *)
Definition mem_stat (fs : mem_fs) (p : jsstring) : error + bool :=
  match assoc p (mf_listing fs) with
  | Some _ => inr true
  | None =>
      match assoc p (mf_files fs) with
      | Some _ => inr false
      | None => inl (NotFoundError p)
      end
  end.

(** ** Plain file names *)

(** A name without separator, cut at its last dot into a stem that is not
    empty and an extension; the name [..] is not one. *)
Definition plain_name (stem ext : jsstring) : Prop :=
  stem <> [] /\
  forallb (fun c => negb (Path.is_slash c)) stem = true /\
  forallb (fun c => negb (Path.is_slash c)) ext = true /\
  forallb (fun c => negb (Path.is_dot_char c)) ext = true /\
  stem ++ DOT :: ext <> [DOT; DOT].

(** ** The upload endpoint of [server.js] *)

(** A code unit matched, under the [i] flag, by the pattern letter [l]
    (given in lower case): the letter in either case. *)
Definition ci_eqb (l c : char) : bool := (N.eqb c l || N.eqb c (l - 32)%N)%bool.

(** One attempt of the pattern "/\.docx$/i" at the head of a text: the dot,
    the four letters, and then the end of the input (there is no [m]
    flag). *)
Definition docx_at_end (s : jsstring) : bool :=
  match s with
  | [a; b; c; d; e] =>
      (N.eqb a DOT && ci_eqb 100%N b && ci_eqb 111%N c && ci_eqb 99%N d
       && ci_eqb 120%N e)%bool
  | _ => false
  end.

(** [originalname.replace(/\.docx$/i, '.mdx')]: the first position, from
    the left, where the attempt succeeds is replaced. *)
Fixpoint replace_docx_suffix (s : jsstring) : jsstring :=
  if docx_at_end s then str ".mdx"
  else match s with
       | [] => []
       | c :: s' => c :: replace_docx_suffix s'
       end.

(** [req.file], as multer's disk storage fills it: the name the file had
    on the sender's side and the path it was stored at. *)
Record upload : Type := Upload {
  originalname : jsstring;
  upload_path : jsstring
}.

(** What the [try] block of the handler can throw: an error of the
    converter or of storage, or the error [ERR_INVALID_CHAR] of
    [res.setHeader] on a value it refuses, for the header named. *)
Inductive server_error : Type :=
| Failed (e : error)
| InvalidHeaderChar (name : jsstring).

(** What the endpoint prints. *)
Inductive server_message : Type :=
| SvConverting (originalname : jsstring)
| SvConverted (originalname outputFileName : jsstring)
| SvConversionError (e : server_error)
| SvCleanupError (e : server_error).

(** What [res.send] is given: a text, or the line made of
    "Conversion failed: " and the message of the error. *)
Inductive body : Type :=
| BodyText (text : jsstring)
| BodyConversionFailed (e : server_error).

(** The history of the endpoint itself: printed lines, its own calls to
    storage and its calls on the response object [res]; the history of the
    converter it runs is kept in the converter's world. *)
Inductive server_event : Type :=
| SvLog (m : server_message)
| SvReadFile (path : jsstring)
| SvUnlink (path : jsstring)
| SvSetHeader (name value : jsstring)
| SvStatus (code : nat)
| SvSend (b : body).

(** The code units that Node accepts in a header value: the tab, 0x20 to
    0x7e and 0x80 to 0xff. *)
Definition header_char_ok (c : char) : bool :=
  (N.eqb c 9%N || in_range 32%N 126%N c || in_range 128%N 255%N c)%bool.

Section Server.

Variable FS : Type.
Variable env : collaborators FS.

(** [fs.readFile(path, 'utf-8')] and [fs.unlink(path)] *)
Variable fs_readFile : FS -> jsstring -> error + jsstring.
Variable fs_unlink : FS -> jsstring -> error + FS.

Record server_world : Type := ServerWorld {
  sv_world : world FS;
  sv_trace : list server_event
}.

Definition SM (A : Type) : Type :=
  server_world -> (server_error + A) * server_world.

Definition sret {A : Type} (a : A) : SM A := fun s => (inr a, s).
Definition sthrow {A : Type} (e : server_error) : SM A := fun s => (inl e, s).
Definition sbind {A B : Type} (c : SM A) (k : A -> SM B) : SM B :=
  fun s =>
    match c s with
    | (inr a, s') => k a s'
    | (inl e, s') => (inl e, s')
    end.

Definition semit (e : server_event) : SM unit :=
  fun s => (inr tt, ServerWorld (sv_world s) (sv_trace s ++ [e])).

(** A computation of the converter, run by the endpoint. *)
Definition lift {A : Type} (c : M FS A) : SM A :=
  fun s =>
    match c (sv_world s) with
    | (inr a, w') => (inr a, ServerWorld w' (sv_trace s))
    | (inl e, w') => (inl (Failed e), ServerWorld w' (sv_trace s))
    end.

Definition readFile (path : jsstring) : SM jsstring :=
  sbind (semit (SvReadFile path))
    (fun _ s =>
       match fs_readFile (w_fs (sv_world s)) path with
       | inr text => (inr text, s)
       | inl e => (inl (Failed e), s)
       end).

Definition unlink (path : jsstring) : SM unit :=
  sbind (semit (SvUnlink path))
    (fun _ s =>
       match fs_unlink (w_fs (sv_world s)) path with
       | inr fs' => (inr tt, ServerWorld (World fs' (w_trace (sv_world s))) (sv_trace s))
       | inl e => (inl (Failed e), s)
       end).

(** [res.setHeader(name, value)], for the header names of the handler:
    the value is checked and refused when it holds a code unit outside
    the ones a header value can hold. *)
Definition setHeader (name value : jsstring) : SM unit :=
  sbind (semit (SvSetHeader name value))
    (fun _ => if forallb header_char_ok value then sret tt
              else sthrow (InvalidHeaderChar name)).

(** The path the endpoint has the converter write to; [stamp] is the
    value of [Date.now()] as the template prints it. *)
Definition endpoint_output (stamp : jsstring) (f : upload) : jsstring :=
  Path.join (str "uploads")
    (str "converted-" ++ stamp ++ DASH :: replace_docx_suffix (originalname f)).

(** The value given to the header [Content-Disposition]. *)
Definition disposition (outputFileName : jsstring) : jsstring :=
  str "attachment; filename=" ++ DQ :: outputFileName ++ [DQ].

(** The [try] block of the handler of [POST /convert]. *)
Definition convert_try (stamp : jsstring) (file : option upload) : SM unit :=
  match file with
  | None =>
      sbind (semit (SvStatus 400)) (fun _ =>
      semit (SvSend (BodyText (str "No file uploaded"))))
  | Some f =>
      sbind (semit (SvLog (SvConverting (originalname f)))) (fun _ =>
      let inputPath := upload_path f in
      let outputFileName := replace_docx_suffix (originalname f) in
      let outputPath := endpoint_output stamp f in
      sbind (lift (convertDocxToMdx env inputPath (Some outputPath))) (fun _ =>
      sbind (readFile outputPath) (fun mdxContent =>
      sbind (unlink inputPath) (fun _ =>
      sbind (unlink outputPath) (fun _ =>
      sbind (setHeader (str "Content-Type") (str "text/plain")) (fun _ =>
      sbind (setHeader (str "Content-Disposition") (disposition outputFileName))
        (fun _ =>
      sbind (semit (SvSend (BodyText mdxContent))) (fun _ =>
      semit (SvLog (SvConverted (originalname f) outputFileName))))))))))
  end.

(** The [catch] block: the error is printed, the upload is removed when
    there is one, an error of that removal being printed and dropped, and
    the answer is sent with status 500. *)
Definition convert_catch (file : option upload) (error : server_error) :
    server_world -> server_world :=
  fun s =>
    let s1 := snd (semit (SvLog (SvConversionError error)) s) in
    let s2 :=
      match file with
      | Some f =>
          if truthy (upload_path f) then
            match unlink (upload_path f) s1 with
            | (inr _, s') => s'
            | (inl cleanupError, s') =>
                snd (semit (SvLog (SvCleanupError cleanupError)) s')
            end
          else s1
      | None => s1
      end in
    snd (sbind (semit (SvStatus 500))
           (fun _ => semit (SvSend (BodyConversionFailed error))) s2).

(** The handler of [POST /convert]. *)
Definition convert_endpoint (stamp : jsstring) (file : option upload) :
    server_world -> server_world :=
  fun s =>
    match convert_try stamp file s with
    | (inr _, s') => s'
    | (inl error, s') => convert_catch file error s'
    end.

End Server.

Arguments ServerWorld {FS}.
Arguments sv_world {FS}.
Arguments sv_trace {FS}.
Arguments sret {FS A}.
Arguments sthrow {FS A}.
Arguments sbind {FS A B}.
Arguments semit {FS}.
Arguments lift {FS A}.
Arguments readFile {FS}.
Arguments unlink {FS}.
Arguments setHeader {FS}.
Arguments convert_try {FS}.
Arguments convert_catch {FS}.
Arguments convert_endpoint {FS}.

(** *** Reading the history of the endpoint *)

(** The paths handed to [fs.unlink] by the endpoint. *)
Fixpoint unlinks (t : list server_event) : list jsstring :=
  match t with
  | [] => []
  | SvUnlink p :: t' => p :: unlinks t'
  | _ :: t' => unlinks t'
  end.

(** The status codes set with [res.status]; an answer sent without one
    goes out with the default status, 200. *)
Fixpoint statuses (t : list server_event) : list nat :=
  match t with
  | [] => []
  | SvStatus n :: t' => n :: statuses t'
  | _ :: t' => statuses t'
  end.

(** What was handed to [res.send]. *)
Fixpoint sends (t : list server_event) : list body :=
  match t with
  | [] => []
  | SvSend b :: t' => b :: sends t'
  | _ :: t' => sends t'
  end.

(** [fs.readFile] and [fs.unlink] on the in-memory storage. *)
Definition mem_readFile (fs : mem_fs) (p : jsstring) : error + jsstring :=
  match assoc p (mf_files fs) with
  | Some c => inr c
  | None => inl (NotFoundError p)
  end.

Fixpoint remove_key {A : Type} (k : jsstring) (l : list (jsstring * A)) :
    list (jsstring * A) :=
  match l with
  | [] => []
  | (k', v) :: l' =>
      if Path.jsstring_eqb k k' then remove_key k l' else (k', v) :: remove_key k l'
  end.

Definition mem_unlink (fs : mem_fs) (p : jsstring) : error + mem_fs :=
  match assoc p (mf_files fs) with
  | Some _ => inr (MemFs (mf_listing fs) (remove_key p (mf_files fs)))
  | None => inl (NotFoundError p)
  end.

(** ** Lines of a text *)

(** The text cut at its line feeds; [acc] holds, reversed, the code units
    of the line being read. *)
Fixpoint split_lf (acc : jsstring) (s : jsstring) : list jsstring :=
  match s with
  | [] => [rev acc]
  | c :: s' => if N.eqb c LF then rev acc :: split_lf [] s'
               else split_lf (c :: acc) s'
  end.

Definition lines (s : jsstring) : list jsstring := split_lf [] s.

(** ** Data URIs, and the two renderings of an image in the words of the
    design *)

(** A reference whose scheme is [data]; the scheme of a URI is written in
    any letter case. *)
Definition is_data_uri (src : jsstring) : bool :=
  Path.jsstring_eqb (toLowerCase (firstn 5 src)) (str "data:").

(** Image Markdown, the title clause left out for an empty title. *)
Definition spec_markdown_image (alt src title : jsstring) : jsstring :=
  str "![" ++ alt ++ str "](" ++ src ++
  match title with
  | [] => []
  | _ :: _ => SP :: DQ :: title ++ [DQ]
  end ++ str ")".

(** The image tag, the title attribute left out for an empty title. *)
Definition spec_image_tag (src alt title : jsstring) : jsstring :=
  str "<img src=" ++ DQ :: src ++ [DQ] ++ str " alt=" ++ DQ :: alt ++ [DQ] ++
  match title with
  | [] => []
  | _ :: _ => str " title=" ++ DQ :: title ++ [DQ]
  end ++ str " />".

(** ** A storage that fills up *)

(** The in-memory collaborators over a storage that holds fewer than
    [limit] files: once it holds that many, [fs.mkdir] fails. *)
Definition quota_env (limit : nat) : collaborators mem_fs :=
  {| fs_exists := fs_exists mem_env;
     fs_readdir := fs_readdir mem_env;
     fs_writeFile := fs_writeFile mem_env;
     fs_mkdir := fun fs _ =>
       if Nat.ltb (List.length (mf_files fs)) limit then inr fs
       else inl (IOError (str "no space left"));
     convertToHtml := convertToHtml mem_env;
     turndown := turndown mem_env;
     toISOString := toISOString mem_env |}.

(** A directory [box] of three documents. *)
Definition box_fs : mem_fs :=
  MemFs [(str "box", [str "a.docx"; str "b.docx"; str "c.docx"])]
        [(str "box/a.docx", str "first");
         (str "box/b.docx", str "second");
         (str "box/c.docx", str "third")].
(** * Properties *)

(** ** The matcher *)

Section RepFacts.

Variable p : char -> bool.
Variable k : cont.

Lemma reach_cons_yes c rest hi :
  (p c && can_more hi)%bool = true ->
  reach p hi (c :: rest) = S (reach p (dec hi) rest).
Proof.
  intros H. apply andb_prop in H. destruct H as [Hp Hm].
  unfold reach. simpl. rewrite Hp.
  destruct hi as [[|h]|]; simpl in *; try discriminate; reflexivity.
Qed.

Lemma reach_cons_no c rest hi :
  (p c && can_more hi)%bool = false ->
  reach p hi (c :: rest) = 0.
Proof.
  intros H. unfold reach. simpl.
  destruct (p c); simpl in *.
  - destruct hi as [[|h]|]; simpl in *; try discriminate; reflexivity.
  - destruct hi; [apply Nat.min_0_r | reflexivity].
Qed.

Lemma reach_nil hi : reach p hi [] = 0.
Proof. destruct hi; simpl; [apply Nat.min_0_r | reflexivity]. Qed.

Lemma after_shift prev pos caps c rest j :
  after prev pos caps (c :: rest) (S j) = after (Some c) (S pos) caps rest j.
Proof.
  unfold after. simpl. f_equal.
  - destruct j; reflexivity.
  - lia.
Qed.

Lemma after_zero prev pos caps rest :
  after prev pos caps rest 0 = MState prev rest pos caps.
Proof. unfold after. simpl. f_equal. lia. Qed.

(** The quantifier fails when the continuation fails at every count it
    may stop at. *)
Lemma rep_fail rest : forall lo hi prev pos caps,
  (forall j, lo <= j <= reach p hi rest -> k (after prev pos caps rest j) = None) ->
  rep p k lo hi prev pos caps rest = None.
Proof.
  induction rest as [|c rest IH]; intros lo hi prev pos caps H.
  - simpl. destruct (Nat.eqb_spec lo 0) as [->|]; [|reflexivity].
    rewrite <- after_zero. apply H. rewrite reach_nil. lia.
  - simpl. destruct (p c && can_more hi)%bool eqn:E.
    + rewrite IH.
      * destruct (Nat.eqb_spec lo 0) as [->|]; [|reflexivity].
        rewrite <- after_zero. apply H. lia.
      * intros j Hj. rewrite <- (after_shift prev). apply H.
        rewrite (reach_cons_yes _ _ _ E). lia.
    + destruct (Nat.eqb_spec lo 0) as [->|]; [|reflexivity].
      rewrite <- after_zero. apply H. lia.
Qed.

(** The quantifier returns what the continuation returns at the largest
    count at which it succeeds. *)
Lemma rep_spec rest : forall lo hi prev pos caps j r,
  lo <= j <= reach p hi rest ->
  k (after prev pos caps rest j) = Some r ->
  (forall j', j < j' <= reach p hi rest -> k (after prev pos caps rest j') = None) ->
  rep p k lo hi prev pos caps rest = Some r.
Proof.
  induction rest as [|c rest IH]; intros lo hi prev pos caps j r Hj Hk Hno.
  - rewrite reach_nil in Hj. assert (j = 0) by lia. subst j.
    assert (lo = 0) by lia. subst lo. simpl. rewrite <- after_zero. exact Hk.
  - simpl. destruct (p c && can_more hi)%bool eqn:E.
    + rewrite (reach_cons_yes _ _ _ E) in Hj, Hno.
      destruct j as [|j].
      * assert (lo = 0) by lia. subst lo.
        rewrite rep_fail.
        -- simpl. rewrite <- after_zero. exact Hk.
        -- intros j' Hj'. rewrite <- (after_shift prev). apply Hno. lia.
      * rewrite (IH (pred lo) (dec hi) (Some c) (S pos) caps j r); try reflexivity.
        -- lia.
        -- rewrite <- (after_shift prev). exact Hk.
        -- intros j' Hj'. rewrite <- (after_shift prev). apply Hno. lia.
    + rewrite (reach_cons_no _ _ _ E) in Hj.
      assert (j = 0) by lia. subst j. assert (lo = 0) by lia. subst lo.
      simpl. rewrite <- after_zero. exact Hk.
Qed.

End RepFacts.

(** ** Scanning *)

Lemma prev_at_cons prev c s n :
  prev_at prev (c :: s) (S n) = prev_at (Some c) s n.
Proof. destruct n; reflexivity. Qed.

Lemma scan_skip r t s : forall n prev,
  n <= List.length s ->
  scan r t n prev s = scan r t 0 (prev_at prev s n) (skipn n s).
Proof.
  induction s as [|c s IH]; intros n prev Hn.
  - simpl in Hn. assert (n = 0) by lia. subst n. reflexivity.
  - destruct n as [|n]; [reflexivity|].
    simpl in Hn. rewrite prev_at_cons.
    change (scan r t (S n) prev (c :: s)) with (scan r t n (Some c) s).
    rewrite IH by lia. reflexivity.
Qed.

(** After a non-empty match the search resumes where the match ended. *)
Lemma scan_match r t prev s f :
  exec r prev s = Some f ->
  0 < ms_pos f <= List.length s ->
  scan r t 0 prev s =
  expand t (ms_caps f) ++ scan r t 0 (prev_at prev s (ms_pos f)) (skipn (ms_pos f) s).
Proof.
  intros He Hp. destruct s as [|c s]; [simpl in Hp; lia|].
  destruct (ms_pos f) as [|n] eqn:En; [lia|].
  simpl scan at 1. rewrite He, En. f_equal.
  rewrite scan_skip by (simpl in Hp; lia).
  rewrite prev_at_cons. reflexivity.
Qed.

(** Where no match starts, the code unit is copied. *)
Lemma scan_copy r t prev c s :
  exec r prev (c :: s) = None ->
  scan r t 0 prev (c :: s) = c :: scan r t 0 (Some c) s.
Proof. intros He. simpl. rewrite He. reflexivity. Qed.

(** ** The assertion [^] only looks at whether a line starts here *)

Lemma rep_sim p k k' rest : forall lo hi prev prev' pos caps,
  ksim k k' ->
  at_line_start prev = at_line_start prev' ->
  osim (rep p k lo hi prev pos caps rest) (rep p k' lo hi prev' pos caps rest).
Proof.
  induction rest as [|c rest IH]; intros lo hi prev prev' pos caps Hk Hp.
  - simpl. destruct (Nat.eqb lo 0); [|exact I].
    apply Hk. repeat split; assumption.
  - simpl.
    assert (Hstop : osim (if Nat.eqb lo 0 then k (MState prev (c :: rest) pos caps) else None)
                         (if Nat.eqb lo 0 then k' (MState prev' (c :: rest) pos caps) else None)).
    { destruct (Nat.eqb lo 0); [|exact I]. apply Hk. repeat split; assumption. }
    destruct (p c && can_more hi)%bool; [|exact Hstop].
    specialize (IH (pred lo) (dec hi) (Some c) (Some c) (S pos) caps Hk eq_refl).
    destruct (rep p k (pred lo) (dec hi) (Some c) (S pos) caps rest),
             (rep p k' (pred lo) (dec hi) (Some c) (S pos) caps rest);
      simpl in IH; try contradiction; [exact IH | exact Hstop].
Qed.

Lemma m_sim r : forall k k' a b,
  ksim k k' -> sim a b -> osim (m r k a) (m r k' b).
Proof.
  induction r as [p|p lo hi|r1 IH1 r2 IH2|i r1 IH1|r1 IH1| |];
    intros k k' a b Hk Hs; pose proof Hs as Hs0;
    destruct Hs as (Hp & Hr & Hn & Hc); simpl.
  - rewrite <- Hr, <- Hn, <- Hc. destruct (ms_rest a) as [|c rest]; [exact I|].
    destruct (p c); [|exact I]. apply Hk. repeat split; reflexivity.
  - rewrite <- Hr, <- Hn, <- Hc. apply rep_sim; assumption.
  - apply IH1; [|exact Hs0]. intros x y Hxy. apply IH2; assumption.
  - apply IH1; [|exact Hs0]. intros x y (Hp' & Hr' & Hn' & Hc').
    apply Hk. rewrite <- Hr, <- Hn, <- Hr', <- Hn', <- Hc'.
    repeat split; assumption.
  - pose proof (IH1 k k' a b Hk Hs0) as H1.
    destruct (m r1 k a), (m r1 k' b); simpl in H1; try contradiction.
    + exact H1.
    + apply Hk. exact Hs0.
  - rewrite <- Hp. destruct (at_line_start (ms_prev a)); [|exact I].
    apply Hk. exact Hs0.
  - rewrite <- Hr. destruct (at_line_end (ms_rest a)); [|exact I].
    apply Hk. exact Hs0.
Qed.

Lemma exec_sim r prev prev' s :
  at_line_start prev = at_line_start prev' ->
  osim (exec r prev s) (exec r prev' s).
Proof.
  intros H. unfold exec. apply m_sim.
  - intros a b Hab. exact Hab.
  - repeat split. exact H.
Qed.

Lemma scan_sim r t s : forall n prev prev',
  at_line_start prev = at_line_start prev' ->
  scan r t n prev s = scan r t n prev' s.
Proof.
  destruct s as [|c s]; intros n prev prev' H.
  - simpl. destruct n; [|reflexivity].
    pose proof (exec_sim r prev prev' [] H) as E.
    destruct (exec r prev []), (exec r prev' []); simpl in E; try contradiction.
    + destruct E as (_ & _ & _ & ->). reflexivity.
    + reflexivity.
  - simpl. destruct n; [|reflexivity].
    pose proof (exec_sim r prev prev' (c :: s) H) as E.
    destruct (exec r prev (c :: s)), (exec r prev' (c :: s)); simpl in E;
      try contradiction.
    + destruct E as (_ & _ & -> & ->). reflexivity.
    + reflexivity.
Qed.

(** ** Lists of code units *)

#[local] Arguments N.eqb : simpl never.
#[local] Arguments N.leb : simpl never.

Lemma prefix_len_app p u v :
  forallb p u = true ->
  prefix_len p (u ++ v) = List.length u + prefix_len p v.
Proof.
  induction u as [|c u IH]; simpl; intros H; [reflexivity|].
  apply andb_prop in H. destruct H as [Hc Hu].
  rewrite Hc, IH by assumption. reflexivity.
Qed.

Lemma prefix_len_le p s : prefix_len p s <= List.length s.
Proof.
  induction s as [|c s IH]; simpl; [lia|]. destruct (p c); simpl; lia.
Qed.

Lemma skipn_app_exact (u v : jsstring) : skipn (List.length u) (u ++ v) = v.
Proof. induction u as [|c u IH]; simpl; [reflexivity | exact IH]. Qed.

Lemma firstn_app_exact (u v : jsstring) : firstn (List.length u) (u ++ v) = u.
Proof. induction u as [|c u IH]; simpl; [reflexivity | rewrite IH; reflexivity]. Qed.

Lemma skipn_app_more (u v : jsstring) n :
  skipn (List.length u + n) (u ++ v) = skipn n v.
Proof. induction u as [|c u IH]; simpl; [reflexivity | exact IH]. Qed.

Lemma nth_error_app_exact (u v : jsstring) c :
  nth_error (u ++ c :: v) (List.length u) = Some c.
Proof. induction u as [|d u IH]; simpl; [reflexivity | exact IH]. Qed.

Lemma prev_at_app prev (u v : jsstring) :
  prev_at prev (u ++ v) (List.length u) = prev_at prev u (List.length u).
Proof.
  destruct u as [|c u] using rev_ind; [reflexivity|].
  rewrite <- app_assoc. simpl. rewrite length_app. simpl.
  replace (List.length u + 1) with (S (List.length u)) by lia. simpl.
  rewrite nth_error_app_exact.
  change [c] with (c :: []). rewrite nth_error_app_exact. reflexivity.
Qed.

(** The code unit before the end of a non-empty text. *)
Lemma prev_at_last prev (u : jsstring) c :
  prev_at prev (u ++ [c]) (List.length (u ++ [c])) = Some c.
Proof.
  rewrite length_app. simpl.
  replace (List.length u + 1) with (S (List.length u)) by lia. simpl.
  apply nth_error_app_exact.
Qed.

(** In a run of blanks without a line feed no position holds one. *)
Lemma blank_run_no_lf rest : forall n,
  blank_run_has_lf rest = false ->
  n <= prefix_len is_space rest ->
  match skipn n rest with
  | c :: _ => N.eqb LF c = false
  | [] => True
  end.
Proof.
  induction rest as [|c rest IH]; intros n H Hn.
  - destruct n; exact I.
  - simpl in H. destruct (N.eqb_spec c LF) as [->|Hc]; [discriminate|].
    destruct n as [|n].
    + simpl. apply N.eqb_neq. congruence.
    + simpl in Hn. destruct (is_space c) eqn:Es; [|lia].
      simpl. apply IH; [exact H | lia].
Qed.

Lemma not_in_forallb d (s : jsstring) :
  ~ In d s -> forallb (fun c => negb (N.eqb d c)) s = true.
Proof.
  induction s as [|c s IH]; intros H; [reflexivity|].
  cbn [forallb]. rewrite IH by (intros Hin; apply H; right; exact Hin).
  destruct (N.eqb_spec d c) as [E|E]; [|reflexivity].
  exfalso. apply H. left. symmetry. exact E.
Qed.

Lemma not_in_forallb_sym d (s : jsstring) :
  ~ In d s -> forallb (fun c => negb (N.eqb c d)) s = true.
Proof.
  intros H. rewrite <- (not_in_forallb d s H).
  clear H. induction s as [|c s IH]; [reflexivity|].
  cbn [forallb]. rewrite IH, (N.eqb_sym c d). reflexivity.
Qed.

(** ** Step 3: bullet-only lines *)

(** One attempt of the list pattern at a bullet-only line: the indentation
    is captured, the match ends after the last line feed of the blanks that
    follow the marker. *)
Lemma exec_list_item prev indent ws rest :
  at_line_start prev = true ->
  forallb is_space indent = true ->
  forallb is_space ws = true ->
  blank_run_has_lf rest = false ->
  exec re_list_item prev (indent ++ DASH :: ws ++ LF :: rest) =
  Some (MState (Some LF) rest
          (S (S (List.length indent + List.length ws))) [(1, indent)]).
Proof.
  intros Hline Hin Hws Hrest.
  unfold exec, re_list_item. cbn [m ms_prev ms_rest ms_pos ms_caps].
  rewrite Hline.
  assert (Hreach : reach is_space None (indent ++ DASH :: ws ++ LF :: rest)
                   = List.length indent).
  { unfold reach. rewrite prefix_len_app by exact Hin. simpl. lia. }
  apply rep_spec with (j := List.length indent).
  - rewrite Hreach. lia.
  - unfold after. cbn [ms_prev ms_rest ms_pos ms_caps].
    rewrite skipn_app_exact. cbn [lit m ms_prev ms_rest ms_pos ms_caps].
    change (N.eqb DASH DASH) with true. cbv iota.
    cbn [Nat.add]. rewrite Nat.sub_0_r, firstn_app_exact.
    assert (Hreach2 : reach is_space None (ws ++ LF :: rest)
                      = List.length ws + S (prefix_len is_space rest)).
    { unfold reach. rewrite prefix_len_app by exact Hws. reflexivity. }
    apply rep_spec with (j := List.length ws).
    + rewrite Hreach2. lia.
    + unfold after. cbn [ms_prev ms_rest ms_pos ms_caps].
      rewrite skipn_app_exact. change (N.eqb LF LF) with true. cbv iota.
      cbn [Nat.add set_cap filter]. reflexivity.
    + intros j' Hj'. rewrite Hreach2 in Hj'.
      unfold after. cbn [ms_prev ms_rest ms_pos ms_caps].
      replace j' with (List.length ws + S (j' - List.length ws - 1)) by lia.
      rewrite skipn_app_more. simpl skipn.
      pose proof (blank_run_no_lf rest (j' - List.length ws - 1) Hrest) as Hno.
      destruct (skipn (j' - List.length ws - 1) rest) as [|c tl]; [reflexivity|].
      rewrite Hno by lia. reflexivity.
  - intros j' Hj'. rewrite Hreach in Hj'. lia.
Qed.

(** C2, as the code has it: where the list rewrite stands at the start of a
    line made of indentation, the marker [-] and blanks only, it emits the
    indentation, the marker and one space, drops the line feed that ended
    the line (with the blanks before it) and carries on with the following
    text, which thereby joins the marker's line.  The same holds for a text
    that begins with such a line. *)
Theorem list_item_line_joined prev indent ws rest :
  at_line_start prev = true ->
  forallb is_space indent = true ->
  forallb is_space ws = true ->
  blank_run_has_lf rest = false ->
  step3_at prev (indent ++ DASH :: ws ++ LF :: rest) =
    indent ++ DASH :: SP :: step3_at (Some LF) rest
  /\ step3 (indent ++ DASH :: ws ++ LF :: rest) =
    indent ++ DASH :: SP :: step3 rest.
Proof.
  intros Hline Hin Hws Hrest.
  assert (Hat : forall pv, at_line_start pv = true ->
    step3_at pv (indent ++ DASH :: ws ++ LF :: rest) =
    indent ++ DASH :: SP :: step3_at (Some LF) rest).
  { intros pv Hpv. unfold step3_at.
    pose proof (exec_list_item pv indent ws rest Hpv Hin Hws Hrest) as He.
    rewrite (scan_match _ _ _ _ _ He).
    - cbn [ms_caps ms_pos expand tpl_list_item get_cap Nat.eqb app].
      replace (S (S (List.length indent + List.length ws)))
        with (List.length (indent ++ DASH :: ws ++ [LF]))
        by (rewrite length_app; simpl; rewrite length_app; simpl; lia).
      replace (indent ++ DASH :: ws ++ LF :: rest)
        with ((indent ++ DASH :: ws ++ [LF]) ++ rest)
        by (rewrite <- app_assoc; simpl; rewrite <- app_assoc; reflexivity).
      rewrite skipn_app_exact, prev_at_app.
      replace (indent ++ DASH :: ws ++ [LF]) with ((indent ++ DASH :: ws) ++ [LF])
        by (rewrite <- app_assoc; reflexivity).
      rewrite prev_at_last. rewrite <- app_assoc. reflexivity.
    - cbn [ms_pos]. rewrite length_app. simpl. rewrite length_app. simpl. lia. }
  split.
  - apply Hat. exact Hline.
  - unfold step3, replace_all.
    change (scan re_list_item tpl_list_item 0 None (indent ++ DASH :: ws ++ LF :: rest))
      with (step3_at None (indent ++ DASH :: ws ++ LF :: rest)).
    rewrite Hat by reflexivity. unfold step3_at.
    rewrite (scan_sim re_list_item tpl_list_item rest 0 (Some LF) None); reflexivity.
Qed.

(** ** Step 2: the blank line after a fence *)

Lemma take_drop_while p (s : jsstring) :
  Path.take_while p s ++ drop_while p s = s.
Proof.
  induction s as [|c s IH]; simpl; [reflexivity|].
  destruct (p c); simpl; [rewrite IH|]; reflexivity.
Qed.

Lemma take_while_all p (s : jsstring) : forallb p (Path.take_while p s) = true.
Proof.
  induction s as [|c s IH]; simpl; [reflexivity|].
  destruct (p c) eqn:E; simpl; [rewrite E, IH|]; reflexivity.
Qed.

Lemma prefix_len_take_while p (s : jsstring) :
  prefix_len p s = List.length (Path.take_while p s).
Proof.
  induction s as [|c s IH]; simpl; [reflexivity|].
  destruct (p c); simpl; [rewrite IH|]; reflexivity.
Qed.

Lemma drop_while_head p (s : jsstring) :
  match drop_while p s with
  | c :: _ => p c = false
  | [] => True
  end.
Proof.
  induction s as [|c s IH]; simpl; [exact I|].
  destruct (p c) eqn:E; [exact IH | exact E].
Qed.

Lemma take_while_app_stop p (u v : jsstring) :
  forallb p u = true ->
  match v with c :: _ => p c = false | [] => True end ->
  Path.take_while p (u ++ v) = u /\ drop_while p (u ++ v) = v.
Proof.
  intros Hu Hv. induction u as [|c u IH]; simpl.
  - destruct v as [|d v]; [split; reflexivity|]. simpl. rewrite Hv.
    split; reflexivity.
  - simpl in Hu. apply andb_prop in Hu. destruct Hu as [Hc Hu].
    rewrite Hc. destruct (IH Hu) as [-> ->]. split; reflexivity.
Qed.

(** Inside a run of word code units the next code unit is no line feed. *)
Lemma word_run_no_lf (s : jsstring) j :
  j < prefix_len is_word s ->
  match skipn j s with
  | c :: _ => N.eqb LF c = false
  | [] => True
  end.
Proof.
  revert j. induction s as [|c s IH]; intros j Hj; simpl in Hj; [lia|].
  destruct (is_word c) eqn:Ew; [|lia].
  destruct j as [|j]; simpl.
  - destruct (N.eqb_spec LF c) as [<-|]; [discriminate Ew | reflexivity].
  - apply IH. lia.
Qed.

(** The fence pattern matches exactly the texts that [fence_blank]
    recognises. *)
Lemma exec_code_fence prev s :
  exec re_code_fence prev s =
  match fence_blank s with
  | Some (tag, rest) =>
      Some (MState (Some LF) rest (S (S (3 + List.length tag))) (fence_caps tag))
  | None => None
  end.
Proof.
  unfold exec, re_code_fence, fence_blank.
  destruct s as [|a [|b [|c s3]]]; cbn [m lit ms_prev ms_rest ms_pos ms_caps];
    try reflexivity.
  - destruct (N.eqb BT a); reflexivity.
  - destruct (N.eqb BT a); [|reflexivity]. cbn [m ms_rest].
    destruct (N.eqb BT b); reflexivity.
  - destruct (N.eqb BT a); [|reflexivity].
    cbn [m ms_prev ms_rest ms_pos ms_caps andb].
    destruct (N.eqb BT b); [|reflexivity].
    cbn [m ms_prev ms_rest ms_pos ms_caps andb].
    destruct (N.eqb BT c); [|reflexivity].
    cbn [m ms_prev ms_rest ms_pos ms_caps andb].
    pose proof (take_drop_while is_word s3) as Hsplit.
    pose proof (take_while_all is_word s3) as Hall.
    pose proof (drop_while_head is_word s3) as Hhead.
    pose proof (prefix_len_take_while is_word s3) as Hlen.
    set (tag := Path.take_while is_word s3) in *.
    set (tl := drop_while is_word s3) in *.
    match goal with |- context [rep is_word ?K] => set (kg := K) end.
    assert (Hkg : forall pv x y rest pos caps,
               kg (MState pv (x :: y :: rest) pos caps) =
               if (N.eqb LF x && N.eqb LF y)%bool
               then Some (MState (Some y) rest (S (S pos))
                            (set_cap 1 (firstn (pos - 3) s3) caps))
               else None).
    { intros. unfold kg. cbn [ms_prev ms_rest ms_pos ms_caps].
      destruct (N.eqb LF x); [|reflexivity]. destruct (N.eqb LF y); reflexivity. }
    assert (Hkg1 : forall pv x pos caps, kg (MState pv [x] pos caps) = None).
    { intros. unfold kg. cbn [ms_prev ms_rest ms_pos ms_caps].
      destruct (N.eqb LF x); reflexivity. }
    assert (Hkg0 : forall pv pos caps, kg (MState pv [] pos caps) = None)
      by reflexivity.
    assert (Hfail : forall j caps pv pos, j < List.length tag ->
              kg (MState pv (skipn j s3) pos caps) = None).
    { intros j caps pv pos Hj.
      pose proof (word_run_no_lf s3 j) as Hno. rewrite Hlen in Hno.
      specialize (Hno Hj). unfold kg. cbn [ms_rest].
      destruct (skipn j s3) as [|c0 tl0]; [reflexivity|].
      rewrite Hno. reflexivity. }
    assert (Hend : skipn (List.length tag) s3 = tl).
    { rewrite <- Hsplit at 1. apply skipn_app_exact. }
    assert (Hreach : reach is_word None s3 = List.length tag).
    { unfold reach. exact Hlen. }
    destruct (Nat.eq_dec (List.length tag) 0) as [Hz|Hnz].
    + (* no tag: the group cannot match, the option is skipped *)
      rewrite rep_fail by (intros j Hj; rewrite Hreach in Hj; lia).
      destruct tag; [|discriminate Hz]. simpl in Hsplit. rewrite Hsplit.
      destruct s3 as [|x [|y rest]]; [reflexivity | |].
      * destruct (N.eqb LF x); reflexivity.
      * destruct (N.eqb LF x); [|reflexivity].
        destruct (N.eqb_spec LF y) as [<-|]; reflexivity.
    + (* a tag: the quantifier stops at its end or fails, and the text
         does not begin with a line feed *)
      assert (Hskip : match s3 with
                      | [] => None
                      | c1 :: rest' =>
                          if N.eqb LF c1 then
                            match rest' with
                            | [] => None
                            | c0 :: rest'0 =>
                                if N.eqb LF c0
                                then Some (MState (Some c0) rest'0 5 [])
                                else None
                            end
                          else None
                      end = None).
      { pose proof (word_run_no_lf s3 0) as Hno. rewrite Hlen in Hno.
        simpl in Hno. destruct s3 as [|c1 r1]; [reflexivity|].
        rewrite Hno by lia. reflexivity. }
      assert (Hall_fail : tl = [] \/ (exists x, tl = [x]) \/
                (exists x y rest, tl = x :: y :: rest /\
                   (N.eqb LF x && N.eqb LF y)%bool = false) ->
              rep is_word kg 1 None (Some c) 3 [] s3 = None).
      { intros Htl. apply rep_fail. intros j Hj. rewrite Hreach in Hj.
        unfold after. cbn [ms_prev ms_rest ms_pos ms_caps].
        destruct (Nat.eq_dec j (List.length tag)) as [->|Hne]; [|apply Hfail; lia].
        rewrite Hend.
        destruct Htl as [->|[[x ->]|(x & y & rest & -> & E)]];
          [apply Hkg0 | apply Hkg1 | rewrite Hkg, E; reflexivity]. }
      destruct tl as [|x [|y rest]] eqn:Etl.
      * rewrite Hall_fail by (left; reflexivity). exact Hskip.
      * rewrite Hall_fail by (right; left; eexists; reflexivity). exact Hskip.
      * destruct (N.eqb LF x && N.eqb LF y)%bool eqn:E.
        -- rewrite rep_spec with (j := List.length tag)
             (r := MState (Some LF) rest (S (S (3 + List.length tag))) (fence_caps tag)).
           ++ reflexivity.
           ++ rewrite Hreach. lia.
           ++ unfold after. cbn [ms_prev ms_rest ms_pos ms_caps].
              rewrite Hend, Hkg, E. apply andb_prop in E. destruct E as [_ Ey].
              apply N.eqb_eq in Ey. subst y.
              replace (3 + List.length tag - 3) with (List.length tag) by lia.
              rewrite <- Hsplit at 1. rewrite firstn_app_exact.
              destruct tag; [simpl in Hnz; lia | reflexivity].
           ++ intros j' Hj'. rewrite Hreach in Hj'. lia.
        -- rewrite Hall_fail; [exact Hskip|].
           right; right. exists x, y, rest. split; [reflexivity | exact E].
Qed.

Lemma fence_blank_inv s tag rest :
  fence_blank s = Some (tag, rest) ->
  forallb is_word tag = true /\ s = BT :: BT :: BT :: tag ++ LF :: LF :: rest.
Proof.
  unfold fence_blank. destruct s as [|a [|b [|c s3]]]; try discriminate.
  destruct (N.eqb_spec BT a) as [<-|]; [|discriminate].
  destruct (N.eqb_spec BT b) as [<-|]; [|discriminate].
  destruct (N.eqb_spec BT c) as [<-|]; [|discriminate].
  cbn [andb]. pose proof (take_drop_while is_word s3) as Hsplit.
  destruct (drop_while is_word s3) as [|x [|y r]]; try discriminate.
  destruct (N.eqb_spec LF x) as [<-|]; [|discriminate].
  destruct (N.eqb_spec LF y) as [<-|]; [|discriminate].
  cbn [andb]. intros H. injection H as <- <-.
  split; [apply take_while_all | rewrite Hsplit; reflexivity].
Qed.

Lemma fence_blank_hit tag rest :
  forallb is_word tag = true ->
  fence_blank (BT :: BT :: BT :: tag ++ LF :: LF :: rest) = Some (tag, rest).
Proof.
  intros Htag. unfold fence_blank.
  change (N.eqb BT BT) with true. cbn [andb].
  destruct (take_while_app_stop is_word tag (LF :: LF :: rest) Htag eq_refl)
    as [-> ->].
  change (N.eqb LF LF) with true. reflexivity.
Qed.

(** The fence pattern has no assertion: the search does not depend on the
    code unit before the position. *)
Lemma scan_code_fence_prev t s : forall n prev prev',
  scan re_code_fence t n prev s = scan re_code_fence t n prev' s.
Proof.
  destruct s as [|c s]; intros n prev prev'; simpl; destruct n; try reflexivity;
    rewrite !exec_code_fence; reflexivity.
Qed.

(** C3, as the code has it: step 2 deletes one line feed exactly where three
    backticks, an optional run of word code units and two line feeds follow
    one another, whether the backticks open a block, close one or stand
    inside a line; every other code unit is copied and the search goes
    on. *)
Theorem fence_blank_line_removed :
  (forall tag rest,
      forallb is_word tag = true ->
      step2 (BT :: BT :: BT :: tag ++ LF :: LF :: rest) =
      BT :: BT :: BT :: tag ++ LF :: step2 rest)
  /\
  (forall c s,
      (forall tag rest, forallb is_word tag = true ->
                        c :: s <> BT :: BT :: BT :: tag ++ LF :: LF :: rest) ->
      step2 (c :: s) = c :: step2 s).
Proof.
  split.
  - intros tag rest Htag. unfold step2, replace_all.
    set (s := BT :: BT :: BT :: tag ++ LF :: LF :: rest).
    assert (He : exec re_code_fence None s =
                 Some (MState (Some LF) rest (S (S (3 + List.length tag)))
                         (fence_caps tag))).
    { rewrite exec_code_fence. unfold s. rewrite fence_blank_hit by exact Htag.
      reflexivity. }
    rewrite (scan_match _ _ _ _ _ He).
    + cbn [ms_caps ms_pos].
      replace (S (S (3 + List.length tag)))
        with (List.length (BT :: BT :: BT :: tag ++ [LF; LF]))
        by (simpl; rewrite length_app; simpl; lia).
      replace s with ((BT :: BT :: BT :: tag ++ [LF; LF]) ++ rest)
        by (unfold s; simpl; rewrite <- app_assoc; reflexivity).
      rewrite skipn_app_exact.
      rewrite (scan_code_fence_prev tpl_code_fence rest 0 _ None).
      cbn [expand tpl_code_fence].
      replace (get_cap 1 (fence_caps tag)) with tag by (destruct tag; reflexivity).
      simpl. rewrite <- app_assoc. reflexivity.
    + cbn [ms_pos]. unfold s. simpl. rewrite length_app. simpl. lia.
  - intros c s Hno. unfold step2, replace_all.
    assert (He : exec re_code_fence None (c :: s) = None).
    { rewrite exec_code_fence. destruct (fence_blank (c :: s)) as [[tag rest]|] eqn:E;
        [|reflexivity].
      apply fence_blank_inv in E. destruct E as [Htag Heq].
      exfalso. exact (Hno tag rest Htag Heq). }
    rewrite (scan_copy _ _ _ _ _ He).
    rewrite (scan_code_fence_prev tpl_code_fence s 0 _ None). reflexivity.
Qed.

(** ** Step 4: heading lines *)

Lemma prefix_len_repeat p c n s :
  p c = true ->
  prefix_len p (repeat c n ++ s) = n + prefix_len p s.
Proof.
  intros Hc. induction n as [|n IH]; simpl; [reflexivity|].
  rewrite Hc, IH. reflexivity.
Qed.

Lemma prefix_len_stop p (s : jsstring) :
  match s with c :: _ => p c = false | [] => True end ->
  prefix_len p s = 0.
Proof. destruct s as [|c s]; simpl; [reflexivity|]. intros ->. reflexivity. Qed.

Lemma forallb_dot_prefix text rest :
  forallb is_dot text = true ->
  at_line_end rest = true ->
  prefix_len is_dot (text ++ rest) = List.length text.
Proof.
  intros Ht Hr. rewrite prefix_len_app by exact Ht.
  rewrite prefix_len_stop; [lia|].
  destruct rest as [|c rest]; [exact I|]. simpl in Hr. unfold is_dot.
  rewrite Hr. reflexivity.
Qed.

Lemma space_not_hash c : is_space c = true -> is_hash c = false.
Proof.
  unfold is_hash. intros Hs. destruct (N.eqb_spec c HASH) as [->|]; [|reflexivity].
  discriminate Hs.
Qed.





(** ** Trimming *)

Lemma drop_while_snoc p (v : jsstring) c :
  p c = false -> drop_while p (v ++ [c]) = drop_while p v ++ [c].
Proof.
  intros Hc. induction v as [|x v IH]; simpl.
  - rewrite Hc. reflexivity.
  - destruct (p x); [exact IH | reflexivity].
Qed.

(** Trimming the end keeps a first code unit that is not a blank. *)
Lemma rtrim_cons c tl :
  is_space c = false ->
  rev (drop_while is_space (rev (c :: tl))) =
  c :: rev (drop_while is_space (rev tl)).
Proof.
  intros Hc. cbn [rev]. rewrite drop_while_snoc by exact Hc.
  rewrite rev_app_distr. reflexivity.
Qed.

Lemma trim_head s :
  match trim s with
  | c :: _ => is_space c = false
  | [] => True
  end.
Proof.
  unfold trim. pose proof (drop_while_head is_space s) as Hhead.
  destruct (drop_while is_space s) as [|c tl]; [exact I|].
  rewrite rtrim_cons by exact Hhead. exact Hhead.
Qed.

Lemma drop_while_id p (s : jsstring) :
  match s with c :: _ => p c = false | [] => True end ->
  drop_while p s = s.
Proof. destruct s as [|c s]; simpl; [reflexivity|]. intros ->. reflexivity. Qed.

Lemma drop_while_idem p (s : jsstring) :
  drop_while p (drop_while p s) = drop_while p s.
Proof. apply drop_while_id. apply drop_while_head. Qed.

(** A text that does not begin with a blank is only trimmed at its end. *)
Lemma trim_no_lead s :
  match s with c :: _ => is_space c = false | [] => True end ->
  trim s = rev (drop_while is_space (rev s)).
Proof. intros H. unfold trim. rewrite (drop_while_id is_space s H). reflexivity. Qed.

Lemma trim_idem s : trim (trim s) = trim s.
Proof.
  rewrite (trim_no_lead (trim s) (trim_head s)).
  unfold trim. rewrite rev_involutive, drop_while_idem. reflexivity.
Qed.

(** ** The orchestrator *)

Lemma pick_app {A : Type} (f : event -> option A) t1 t2 :
  pick f (t1 ++ t2) = pick f t1 ++ pick f t2.
Proof.
  induction t1 as [|e t1 IH]; simpl; [reflexivity|].
  destruct (f e); simpl; rewrite IH; reflexivity.
Qed.

Lemma pick_warnings {A : Type} (f : event -> option A) msgs :
  (forall t, f (EvLog (MsgWarning t)) = None) ->
  pick f (map (fun t => EvLog (MsgWarning t)) msgs) = [].
Proof.
  intros Hf. induction msgs as [|t msgs IH]; simpl; [reflexivity|].
  rewrite Hf. exact IH.
Qed.

Ltac run_monad :=
  cbv beta iota delta [bind ret throw try_catch log access extract render
                       writeFile mkdir readdir now emit];
  cbn [w_fs w_trace].

Lemma log_warnings_run FS (msgs : list jsstring) : forall (w : world FS),
  log_warnings msgs w =
  (inr tt, World (w_fs w) (w_trace w ++ map (fun t => EvLog (MsgWarning t)) msgs)).
Proof.
  induction msgs as [|t msgs IH]; intros w.
  - simpl. unfold ret. rewrite app_nil_r. destruct w; reflexivity.
  - cbn [log_warnings map]. run_monad. rewrite IH. run_monad.
    rewrite <- app_assoc. reflexivity.
Qed.

Lemma report_warnings_run FS (msgs : list jsstring) (w : world FS) :
  report_warnings msgs w =
  (inr tt, World (w_fs w) (w_trace w ++ warning_events msgs)).
Proof.
  destruct msgs as [|m0 msgs].
  - simpl. unfold ret. rewrite app_nil_r. destruct w; reflexivity.
  - unfold report_warnings, warning_events. run_monad.
    rewrite log_warnings_run. run_monad.
    rewrite <- app_assoc. reflexivity.
Qed.

Lemma pick_warning_events {A : Type} (f : event -> option A) msgs :
  f (EvLog MsgWarningsHeader) = None ->
  (forall t, f (EvLog (MsgWarning t)) = None) ->
  pick f (warning_events msgs) = [].
Proof.
  intros Hh Hf. destruct msgs as [|m0 msgs]; [reflexivity|].
  unfold warning_events. cbn [pick]. rewrite Hh.
  apply pick_warnings. exact Hf.
Qed.

(** What one single-file conversion does to the world. *)
Lemma convert_run FS (env : collaborators FS) ip op (w : world FS) :
  exists fs' mid r,
    convertDocxToMdx env ip op w = (r, World fs' (w_trace w ++ mid)) /\
    readings mid = [ip] /\ failures mid = [] /\
    match r with
    | inr out =>
        out = (if falsy op then derived_output ip else attr_or_empty op) /\
        successes mid = [out] /\ writes mid = [out]
    | inl e => successes mid = [] /\ fs' = w_fs w
    end.
Proof.
  destruct w as [fs tr]. unfold convertDocxToMdx. run_monad.
  destruct (fs_exists env fs ip) eqn:Eex; run_monad.
  2:{ eexists _, _, _. split.
      - rewrite <- !app_assoc. reflexivity.
      - repeat split. }
  destruct (convertToHtml env fs ip) as [e|[html msgs]] eqn:Ecv; run_monad.
  { eexists _, _, _. split.
    - rewrite <- !app_assoc. reflexivity.
    - repeat split. }
  cbn [ex_value ex_messages].
  rewrite report_warnings_run. run_monad.
  set (out := if falsy op then derived_output ip else attr_or_empty op).
  match goal with
  | |- context [fs_writeFile env fs out ?c] =>
      destruct (fs_writeFile env fs out c) as [e|fs1] eqn:Ewr
  end; run_monad.
  - eexists _, _, _. split.
    + rewrite <- !app_assoc. reflexivity.
    + unfold readings, failures, successes. cbn [pick app].
      rewrite !pick_app, !pick_warning_events by reflexivity.
      repeat split.
  - eexists _, _, _. split.
    + rewrite <- !app_assoc. reflexivity.
    + unfold readings, failures, successes, writes. cbn [pick app].
      rewrite !pick_app, !pick_warning_events by reflexivity.
      repeat split.
Qed.

Lemma normalize_nonempty p : Path.normalize p <> [].
Proof.
  unfold Path.normalize. destruct p as [|c0 p]; [discriminate|].
  destruct (Path.join_slash _) as [|b body].
  - destruct (Path.is_slash c0); [discriminate|].
    destruct (match rev (c0 :: p) with [] => false | c :: _ => Path.is_slash c end);
      discriminate.
  - destruct (Path.is_slash c0);
      destruct (match rev (c0 :: p) with [] => false | c :: _ => Path.is_slash c end);
      discriminate.
Qed.

Lemma join_nonempty a b : Path.join a b <> [].
Proof.
  unfold Path.join. destruct a, b; try discriminate; apply normalize_nonempty.
Qed.

Lemma falsy_join a b : falsy (Some (Path.join a b)) = false.
Proof.
  pose proof (join_nonempty a b) as H. simpl.
  destruct (Path.join a b); [contradiction | reflexivity].
Qed.

Lemma select_length_le {A : Type} (mask : list bool) : forall l : list A,
  List.length mask = List.length l ->
  List.length (select mask l) + List.length (select (map negb mask) l)
  = List.length l.
Proof.
  induction mask as [|b mask IH]; intros [|a l] H; simpl in *; try discriminate;
    [reflexivity|].
  injection H as H. specialize (IH l H). destruct b; simpl; lia.
Qed.

(** What the loop of the batch does: every file is attempted, in order; a
    mask tells which conversions succeeded. *)
Lemma convert_each_run FS (env : collaborators FS) inputDir outputDir :
  (falsy outputDir = true \/
   forall fs p, exists fs', fs_mkdir env fs p = inr fs') ->
  forall files acc (w : world FS),
  exists mask fs' mid,
    convert_each env inputDir outputDir files acc w =
    (inr (acc ++ map (batch_target inputDir outputDir) (select mask files)),
     World fs' (w_trace w ++ mid)) /\
    List.length mask = List.length files /\
    readings mid = map (Path.join inputDir) files /\
    successes mid = map (batch_target inputDir outputDir) (select mask files) /\
    incl (map (batch_target inputDir outputDir) (select mask files)) (writes mid) /\
    failures mid = select (map negb mask) files.
Proof.
  intros Hmk files. induction files as [|file files IH]; intros acc w.
  - exists [], (w_fs w), []. simpl. unfold ret. rewrite !app_nil_r.
    destruct w; repeat split. intros x [].
  - destruct w as [fs tr]. cbn [convert_each].
    (* the destination handed to the conversion, and the world it starts in *)
    assert (Hpre : exists op fs0 pre,
      (if falsy outputDir then ret None
       else bind (mkdir env (attr_or_empty outputDir))
              (fun _ => ret (Some (Path.join (attr_or_empty outputDir)
                         (Path.basename file (Path.extname file) ++ str ".mdx")))))
        (World fs tr) = (inr op, World fs0 (tr ++ pre)) /\
      (if falsy op then derived_output (Path.join inputDir file)
       else attr_or_empty op) = batch_target inputDir outputDir file /\
      readings pre = [] /\ successes pre = [] /\ failures pre = []).
    { unfold batch_target. destruct (falsy outputDir) eqn:Efalsy.
      - exists None, fs, []. unfold ret. rewrite app_nil_r. repeat split.
      - destruct Hmk as [Hmk|Hmk]; [discriminate|].
        destruct (Hmk fs (attr_or_empty outputDir)) as [fs0 Hfs0].
        exists (Some (Path.join (attr_or_empty outputDir)
                  (Path.basename file (Path.extname file) ++ str ".mdx"))),
               fs0, [EvMkdir (attr_or_empty outputDir)].
        run_monad. rewrite Hfs0. rewrite falsy_join. repeat split. }
    destruct Hpre as (op & fs0 & pre & Hpre & Htarget & Hrp & Hsp & Hfp).
    unfold bind at 1. rewrite Hpre.
    destruct (convert_run FS env (Path.join inputDir file) op (World fs0 (tr ++ pre)))
      as (fs1 & mid1 & r & Heq & Hr1 & Hf1 & Hres).
    unfold bind at 1. unfold try_catch at 1. unfold bind at 1.
    rewrite Heq. rewrite Htarget in Hres. cbn [w_trace] in *.
    destruct r as [e|out].
    + destruct Hres as [Hs1 _]. run_monad.
      destruct (IH acc (World fs1 (((tr ++ pre) ++ mid1)
                                     ++ [EvLog (MsgFailedToConvert file e)])))
        as (mask & fs' & mid & Hrun & Hlen & Hr & Hs & Hw & Hf).
      exists (false :: mask), fs',
        (pre ++ mid1 ++ EvLog (MsgFailedToConvert file e) :: mid).
      cbn [w_trace] in Hrun. rewrite Hrun. split.
      { cbn [select]. rewrite <- !app_assoc. reflexivity. }
      unfold readings, successes, failures, writes in *.
      rewrite !pick_app. cbn [pick select map negb List.length].
      rewrite ?pick_app.
      rewrite Hr1, Hf1, Hs1, Hr, Hs, Hf, Hrp, Hsp, Hfp.
      repeat split; try reflexivity.
      * f_equal. exact Hlen.
      * intros x Hx. apply in_or_app. right. apply in_or_app. right.
        apply Hw. exact Hx.
    + destruct Hres as (-> & Hs1 & Hw1). run_monad.
      destruct (IH (acc ++ [batch_target inputDir outputDir file])
                  (World fs1 ((tr ++ pre) ++ mid1)))
        as (mask & fs' & mid & Hrun & Hlen & Hr & Hs & Hw & Hf).
      exists (true :: mask), fs', (pre ++ mid1 ++ mid).
      cbn [w_trace] in Hrun. rewrite Hrun. split.
      { cbn [select map]. rewrite <- !app_assoc. reflexivity. }
      unfold readings, successes, failures, writes in *.
      rewrite !pick_app. cbn [pick select map negb List.length].
      rewrite Hr1, Hf1, Hs1, Hr, Hs, Hf, Hrp, Hsp, Hfp.
      repeat split; try reflexivity.
      * f_equal. exact Hlen.
      * intros x [<-|Hx].
        -- apply in_or_app. right. apply in_or_app. left. rewrite Hw1. left.
           reflexivity.
        -- apply in_or_app. right. apply in_or_app. right. apply Hw. exact Hx.
Qed.

(** What a batch does once the directory has been listed. *)
Lemma convertDirectory_run FS (env : collaborators FS) inputDir outputDir
    (w : world FS) files :
  fs_readdir env (w_fs w) inputDir = inr files ->
  (falsy outputDir = true \/
   forall fs p, exists fs', fs_mkdir env fs p = inr fs') ->
  exists mask fs' mid,
    convertDirectory env inputDir outputDir w =
    (inr (map (batch_target inputDir outputDir) (select mask (filter is_docx files))),
     World fs' (w_trace w ++ mid)) /\
    List.length mask = List.length (filter is_docx files) /\
    readings mid = map (Path.join inputDir) (filter is_docx files) /\
    successes mid =
      map (batch_target inputDir outputDir) (select mask (filter is_docx files)) /\
    incl (map (batch_target inputDir outputDir) (select mask (filter is_docx files)))
         (writes mid) /\
    failures mid = select (map negb mask) (filter is_docx files).
Proof.
  intros Hrd Hmk. destruct w as [fs tr]. cbn [w_fs w_trace] in *.
  unfold convertDirectory. run_monad. rewrite Hrd.
  destruct (filter is_docx files) as [|f0 fl] eqn:Ef.
  - run_monad. exists [], fs, [EvLog (MsgProcessingDirectory inputDir);
                               EvReaddir inputDir; EvLog MsgNoDocxFiles].
    rewrite <- !app_assoc. repeat split. intros x [].
  - destruct (convert_each_run FS env inputDir outputDir Hmk (f0 :: fl) []
                (World fs ((tr ++ [EvLog (MsgProcessingDirectory inputDir)])
                             ++ [EvReaddir inputDir])))
      as (mask & fs' & mid & Hrun & Hlen & Hr & Hs & Hw & Hf).
    rewrite Hrun. cbn [app w_trace]. run_monad.
    exists mask, fs',
      ([EvLog (MsgProcessingDirectory inputDir); EvReaddir inputDir] ++ mid ++
       [EvLog (MsgConverted
          (List.length (map (batch_target inputDir outputDir) (select mask (f0 :: fl)))))]).
    split; [rewrite <- !app_assoc; reflexivity|].
    unfold readings, successes, failures, writes in *.
    rewrite !pick_app. cbn [pick app]. rewrite !app_nil_r.
    repeat split; assumption.
Qed.

(** ** The batch without assumption on the storage *)

(** One turn of the loop once the destination is known: the conversion of
    the entry, caught. *)
Lemma convert_step_run FS (env : collaborators FS) inputDir outputDir file op acc
    (w0 : world FS) :
  (if falsy op then derived_output (Path.join inputDir file) else attr_or_empty op)
    = batch_target inputDir outputDir file ->
  exists (b : bool) fs1 mid1,
    try_catch
      (bind (convertDocxToMdx env (Path.join inputDir file) op)
         (fun convertedPath => ret (acc ++ [convertedPath])))
      (fun e => bind (log (MsgFailedToConvert file e)) (fun _ => ret acc)) w0
    = (inr (acc ++ (if b then [batch_target inputDir outputDir file] else [])),
       World fs1 (w_trace w0 ++ mid1)) /\
    readings mid1 = [Path.join inputDir file] /\
    successes mid1 = (if b then [batch_target inputDir outputDir file] else []) /\
    incl (successes mid1) (writes mid1) /\
    failures mid1 = (if b then [] else [file]).
Proof.
  intros Ht.
  destruct (convert_run FS env (Path.join inputDir file) op w0)
    as (fs1 & mid1 & r & Heq & Hr1 & Hf1 & Hres).
  rewrite Ht in Hres. unfold try_catch at 1. unfold bind at 1. rewrite Heq.
  destruct r as [e|out].
  - destruct Hres as [Hs1 _]. run_monad.
    exists false, fs1, (mid1 ++ [EvLog (MsgFailedToConvert file e)]).
    rewrite app_nil_r, <- app_assoc. split; [reflexivity|].
    unfold readings, successes, failures, writes in *.
    rewrite !pick_app. cbn [pick]. rewrite Hr1, Hs1, Hf1.
    repeat split; try reflexivity. intros x [].
  - destruct Hres as (-> & Hs1 & Hw1). run_monad.
    exists true, fs1, mid1. split; [reflexivity|].
    rewrite Hs1, Hw1. repeat split; try assumption. apply incl_refl.
Qed.

(** What the loop of the batch does, whatever the storage does: it handles
    the entries in order until the list is exhausted or [fs.mkdir] fails;
    [n] entries were attempted, and a mask tells which conversions
    succeeded. *)
Lemma convert_each_trace FS (env : collaborators FS) inputDir outputDir files :
  forall acc (w : world FS),
  exists r fs' mid n mask,
    convert_each env inputDir outputDir files acc w =
      (r, World fs' (w_trace w ++ mid)) /\
    n <= List.length files /\ List.length mask = n /\
    readings mid = map (Path.join inputDir) (firstn n files) /\
    successes mid =
      map (batch_target inputDir outputDir) (select mask (firstn n files)) /\
    incl (successes mid) (writes mid) /\
    failures mid = select (map negb mask) (firstn n files) /\
    match r with
    | inr outs => n = List.length files /\ outs = acc ++ successes mid
    | inl e =>
        n < List.length files /\ falsy outputDir = false /\
        exists fs, fs_mkdir env fs (attr_or_empty outputDir) = inl e
    end.
Proof.
  induction files as [|file files IH]; intros acc w.
  - exists (inr acc), (w_fs w), [], 0, []. cbn [convert_each]. unfold ret.
    rewrite !app_nil_r. destruct w. repeat split; try reflexivity. intros x [].
  - destruct w as [fs tr]. cbn [convert_each].
    (* the destination handed to the conversion, and the world it starts in *)
    assert (Hpre :
      (exists e, falsy outputDir = false /\
         fs_mkdir env fs (attr_or_empty outputDir) = inl e /\
         (if falsy outputDir then ret None
          else bind (mkdir env (attr_or_empty outputDir))
                 (fun _ => ret (Some (Path.join (attr_or_empty outputDir)
                            (Path.basename file (Path.extname file) ++ str ".mdx")))))
           (World fs tr) = (inl e, World fs (tr ++ [EvMkdir (attr_or_empty outputDir)])))
      \/
      (exists op fs0 pre,
        (if falsy outputDir then ret None
         else bind (mkdir env (attr_or_empty outputDir))
                (fun _ => ret (Some (Path.join (attr_or_empty outputDir)
                           (Path.basename file (Path.extname file) ++ str ".mdx")))))
          (World fs tr) = (inr op, World fs0 (tr ++ pre)) /\
        (if falsy op then derived_output (Path.join inputDir file)
         else attr_or_empty op) = batch_target inputDir outputDir file /\
        readings pre = [] /\ successes pre = [] /\ failures pre = [])).
    { unfold batch_target. destruct (falsy outputDir) eqn:Efalsy.
      - right. exists None, fs, []. unfold ret. rewrite app_nil_r. repeat split.
      - destruct (fs_mkdir env fs (attr_or_empty outputDir)) as [e|fs0] eqn:Emk.
        + left. exists e. split; [reflexivity|]. split; [reflexivity|].
          run_monad. rewrite Emk. reflexivity.
        + right.
          exists (Some (Path.join (attr_or_empty outputDir)
                    (Path.basename file (Path.extname file) ++ str ".mdx"))),
                 fs0, [EvMkdir (attr_or_empty outputDir)].
          run_monad. rewrite Emk. rewrite falsy_join. repeat split. }
    destruct Hpre as [(e & Hf & Hmk & Hpre)|(op & fs0 & pre & Hpre & Htarget & Hrp & Hsp & Hfp)].
    + exists (inl e), fs, [EvMkdir (attr_or_empty outputDir)], 0, [].
      unfold bind at 1. rewrite Hpre. cbn [w_trace firstn select map List.length].
      repeat split; try reflexivity.
      * lia.
      * intros x [].
      * lia.
      * exact Hf.
      * exists fs. exact Hmk.
    + unfold bind at 1. rewrite Hpre. unfold bind at 1.
      destruct (convert_step_run FS env inputDir outputDir file op acc
                  (World fs0 (tr ++ pre)) Htarget)
        as (b & fs1 & mid1 & Hstep & Hr1 & Hs1 & Hw1 & Hf1).
      rewrite Hstep. cbn [w_trace].
      destruct (IH (acc ++ (if b then [batch_target inputDir outputDir file] else []))
                  (World fs1 ((tr ++ pre) ++ mid1)))
        as (r & fs' & mid & n & mask & Hrun & Hn & Hlen & Hr & Hs & Hw & Hf & Hres).
      cbn [w_trace] in Hrun. rewrite Hrun.
      exists r, fs', (pre ++ mid1 ++ mid), (S n), (b :: mask).
      split; [rewrite <- !app_assoc; reflexivity|].
      assert (Hsucc : successes (pre ++ mid1 ++ mid) =
                      (if b then [batch_target inputDir outputDir file] else [])
                      ++ successes mid).
      { unfold successes in *. rewrite !pick_app, Hsp, Hs1. reflexivity. }
      split; [cbn [List.length]; lia|]. split; [cbn [List.length]; lia|].
      split.
      { unfold readings in *. rewrite !pick_app, Hrp, Hr1, Hr. reflexivity. }
      split.
      { rewrite Hsucc, Hs. cbn [firstn select]. destruct b; reflexivity. }
      split.
      { rewrite Hsucc. intros x Hx. unfold writes. rewrite !pick_app.
        apply in_or_app. right. apply in_app_or in Hx. destruct Hx as [Hx|Hx].
        - apply in_or_app. left. apply Hw1. rewrite Hs1. exact Hx.
        - apply in_or_app. right. apply Hw. exact Hx. }
      split.
      { unfold failures in *. rewrite !pick_app, Hfp, Hf1, Hf.
        cbn [firstn select map]. destruct b; reflexivity. }
      destruct r as [e|outs].
      * destruct Hres as (Hlt & Hfal & Hex). cbn [List.length].
        split; [lia|]. split; assumption.
      * destruct Hres as (-> & ->). split; [reflexivity|].
        rewrite Hsucc, <- app_assoc. reflexivity.
Qed.

(** The batch once the directory has been listed, whatever the storage
    does. *)
Lemma convertDirectory_trace FS (env : collaborators FS) inputDir outputDir
    (w : world FS) files :
  fs_readdir env (w_fs w) inputDir = inr files ->
  exists r fs' mid n mask,
    convertDirectory env inputDir outputDir w = (r, World fs' (w_trace w ++ mid)) /\
    n <= List.length (filter is_docx files) /\ List.length mask = n /\
    readings mid = map (Path.join inputDir) (firstn n (filter is_docx files)) /\
    successes mid =
      map (batch_target inputDir outputDir)
        (select mask (firstn n (filter is_docx files))) /\
    incl (successes mid) (writes mid) /\
    failures mid = select (map negb mask) (firstn n (filter is_docx files)) /\
    match r with
    | inr outs => n = List.length (filter is_docx files) /\ outs = successes mid
    | inl e =>
        n < List.length (filter is_docx files) /\ falsy outputDir = false /\
        exists fs, fs_mkdir env fs (attr_or_empty outputDir) = inl e
    end /\
    (filter is_docx files = [] -> r = inr [] /\ fs' = w_fs w).
Proof.
  intros Hrd. destruct w as [fs tr]. cbn [w_fs w_trace] in *.
  unfold convertDirectory. run_monad. rewrite Hrd.
  destruct (filter is_docx files) as [|f0 fl] eqn:Ef.
  - run_monad. exists (inr []), fs, [EvLog (MsgProcessingDirectory inputDir);
                                     EvReaddir inputDir; EvLog MsgNoDocxFiles], 0, [].
    split; [rewrite <- !app_assoc; reflexivity|].
    repeat split; try reflexivity. intros x [].
  - destruct (convert_each_trace FS env inputDir outputDir (f0 :: fl) []
                (World fs ((tr ++ [EvLog (MsgProcessingDirectory inputDir)])
                             ++ [EvReaddir inputDir])))
      as (r & fs' & mid & n & mask & Hrun & Hn & Hlen & Hr & Hs & Hw & Hf & Hres).
    rewrite Hrun. cbn [w_trace]. destruct r as [e|outs]; run_monad.
    + exists (inl e), fs',
        ([EvLog (MsgProcessingDirectory inputDir); EvReaddir inputDir] ++ mid ++
         [EvLog (MsgErrorProcessingDirectory e)]), n, mask.
      split; [rewrite <- !app_assoc; reflexivity|].
      unfold readings, successes, failures, writes in *.
      rewrite !pick_app. cbn [pick app]. rewrite !app_nil_r.
      repeat split; try assumption; try tauto; discriminate.
    + destruct Hres as (Hnl & Houts). cbn [app] in Houts.
      exists (inr outs), fs',
        ([EvLog (MsgProcessingDirectory inputDir); EvReaddir inputDir] ++ mid ++
         [EvLog (MsgConverted (List.length outs))]), n, mask.
      split; [rewrite <- !app_assoc; reflexivity|].
      unfold readings, successes, failures, writes in *.
      rewrite !pick_app. cbn [pick app]. rewrite !app_nil_r.
      repeat split; try assumption; discriminate.
Qed.

(** ** The filter of the batch *)

Lemma jsstring_eqb_eq a b : Path.jsstring_eqb a b = true <-> a = b.
Proof.
  unfold Path.jsstring_eqb. destruct (list_eq_dec N.eq_dec a b); split;
    congruence.
Qed.

Lemma take_while_all_id p (s : jsstring) :
  forallb p s = true -> Path.take_while p s = s.
Proof.
  induction s as [|c s IH]; simpl; [reflexivity|]. intros H.
  apply andb_prop in H. destruct H as [Hc Hs]. rewrite Hc, IH by exact Hs.
  reflexivity.
Qed.

Lemma take_while_le p (s : jsstring) :
  List.length (Path.take_while p s) <= List.length s.
Proof.
  induction s as [|c s IH]; simpl; [lia|]. destruct (p c); simpl; lia.
Qed.

(** A name without separator is its own last portion. *)
Lemma component_no_slash p :
  forallb (fun c => negb (Path.is_slash c)) p = true ->
  Path.component p = p.
Proof.
  intros H. unfold Path.component.
  assert (Hrev : forallb (fun c => negb (Path.is_slash c)) (rev p) = true).
  { rewrite forallb_forall in *. intros x Hx. apply H. apply in_rev. exact Hx. }
  rewrite drop_while_id.
  - rewrite take_while_all_id by exact Hrev. apply rev_involutive.
  - destruct (rev p) as [|c r]; [exact I|]. simpl in Hrev.
    apply andb_prop in Hrev. destruct Hrev as [Hc _].
    destruct (Path.is_slash c); [discriminate | reflexivity].
Qed.

Lemma lower_dot c : lower c = DOT -> c = DOT.
Proof.
  unfold lower, in_range, DOT.
  destruct (N.leb_spec 65 c); destruct (N.leb_spec c 90); simpl; intros; lia.
Qed.

Lemma lower_not_dot c : lower c <> DOT -> Path.is_dot_char c = false.
Proof.
  intros H. unfold Path.is_dot_char. destruct (N.eqb_spec c DOT) as [->|];
    [exfalso; apply H; reflexivity | reflexivity].
Qed.

(** The extension test of the filter, on a name without separator: the
    name ends with [.docx] in any letter case and is longer than that. *)
Lemma extname_docx file :
  forallb (fun c => negb (Path.is_slash c)) file = true ->
  Path.jsstring_eqb (toLowerCase (Path.extname file)) (str ".docx") =
  (endsWith (toLowerCase file) (str ".docx") && Nat.ltb 5 (List.length file))%bool.
Proof.
  intros Hns. unfold Path.extname. rewrite (component_no_slash file Hns).
  set (after := Path.take_while (fun x => negb (Path.is_dot_char x)) (rev file)).
  pose proof (take_while_le (fun x => negb (Path.is_dot_char x)) (rev file)) as Hle.
  fold after in Hle. rewrite length_rev in Hle.
  apply Bool.eq_true_iff_eq. split.
  - intros H. apply jsstring_eqb_eq in H.
    destruct (Nat.eqb_spec (List.length after) (List.length file)) as [|Hne1];
      [discriminate H|].
    destruct (Nat.eqb_spec (S (List.length after)) (List.length file)) as [|Hne2];
      [discriminate H|].
    destruct (Path.jsstring_eqb file [DOT; DOT]); [discriminate H|].
    assert (Hlen : List.length after = 4).
    { apply (f_equal (@List.length char)) in H. unfold toLowerCase in H.
      rewrite length_map, length_skipn in H. simpl in H. lia. }
    rewrite Hlen in *. apply andb_true_intro. split.
    + unfold endsWith, toLowerCase. rewrite length_map.
      apply andb_true_intro. split; [apply Nat.leb_le; simpl; lia|].
      apply jsstring_eqb_eq. rewrite skipn_map. exact H.
    + apply Nat.ltb_lt. lia.
  - intros H. apply andb_prop in H. destruct H as [Hend Hlong].
    apply Nat.ltb_lt in Hlong. unfold endsWith in Hend.
    apply andb_prop in Hend. destruct Hend as [_ Hend].
    apply jsstring_eqb_eq in Hend. unfold toLowerCase in Hend.
    rewrite length_map, skipn_map in Hend. simpl List.length in Hend.
    pose proof (firstn_skipn (List.length file - 5) file) as Hsplit.
    set (stem := firstn (List.length file - 5) file) in *.
    destruct (skipn (List.length file - 5) file)
      as [|d0 [|d1 [|d2 [|d3 [|d4 [|d5 tl]]]]]] eqn:Esuf; try discriminate Hend.
    cbn [map str list_ascii_of_string] in Hend.
    injection Hend as H0 H1 H2 H3 H4.
    apply lower_dot in H0. subst d0.
    assert (Hd1 : Path.is_dot_char d1 = false)
      by (apply lower_not_dot; rewrite H1; discriminate).
    assert (Hd2 : Path.is_dot_char d2 = false)
      by (apply lower_not_dot; rewrite H2; discriminate).
    assert (Hd3 : Path.is_dot_char d3 = false)
      by (apply lower_not_dot; rewrite H3; discriminate).
    assert (Hd4 : Path.is_dot_char d4 = false)
      by (apply lower_not_dot; rewrite H4; discriminate).
    assert (Hafter : after = [d4; d3; d2; d1]).
    { unfold after. rewrite <- Hsplit, rev_app_distr. cbn [rev app].
      cbn [Path.take_while]. rewrite Hd4, Hd3, Hd2, Hd1. cbn [negb].
      change (Path.is_dot_char DOT) with true. reflexivity. }
    rewrite Hafter. cbn [List.length].
    destruct (Nat.eqb_spec 4 (List.length file)) as [|_]; [lia|].
    destruct (Nat.eqb_spec 5 (List.length file)) as [|_]; [lia|].
    destruct (Path.jsstring_eqb file [DOT; DOT]) eqn:Edd.
    { apply jsstring_eqb_eq in Edd. rewrite Edd in Hlong. simpl in Hlong. lia. }
    rewrite Esuf. apply jsstring_eqb_eq. cbn [toLowerCase map].
    rewrite H1, H2, H3, H4. reflexivity.
Qed.

(** The filter, on a directory entry. *)
Lemma is_docx_spec file :
  forallb (fun c => negb (Path.is_slash c)) file = true ->
  is_docx file =
  (endsWith (toLowerCase file) (str ".docx") && Nat.ltb 5 (List.length file)
   && negb (startsWith file (str "~")))%bool.
Proof.
  intros Hns. unfold is_docx. rewrite (extname_docx file Hns).
  unfold Path.basename. rewrite (component_no_slash file Hns). reflexivity.
Qed.

(** * Idempotence of the post-processor *)

(** ** The recognisers agree with the matcher *)

Lemma skipn_prefix_len p (s : jsstring) :
  skipn (prefix_len p s) s = drop_while p s.
Proof.
  induction s as [|c s IH]; simpl; [reflexivity|].
  destruct (p c); simpl; [exact IH | reflexivity].
Qed.

Lemma firstn_prefix_len p (s : jsstring) :
  firstn (prefix_len p s) s = Path.take_while p s.
Proof.
  induction s as [|c s IH]; simpl; [reflexivity|].
  destruct (p c); simpl; [rewrite IH|]; reflexivity.
Qed.

Lemma skipn_in_run p (s : jsstring) j :
  j < prefix_len p s ->
  exists c tl, skipn j s = c :: tl /\ p c = true.
Proof.
  revert j. induction s as [|c s IH]; intros j Hj; simpl in Hj; [lia|].
  destruct (p c) eqn:E; [|lia].
  destruct j as [|j]; simpl.
  - exists c, s. split; [reflexivity | exact E].
  - apply IH. lia.
Qed.

(** *** Line feeds among leading blanks *)

Lemma blank_run_app_lf ws rest :
  forallb is_space ws = true -> blank_run_has_lf (ws ++ LF :: rest) = true.
Proof.
  induction ws as [|c ws IH]; simpl; intros H; [reflexivity|].
  apply andb_prop in H. destruct H as [Hc Hws]. rewrite Hc.
  destruct (N.eqb c LF); [reflexivity | exact (IH Hws)].
Qed.

Lemma split_last_lf_some s ws rest :
  split_last_lf s = Some (ws, rest) ->
  s = ws ++ LF :: rest /\ forallb is_space ws = true /\
  blank_run_has_lf rest = false.
Proof.
  revert ws rest. induction s as [|c s IH]; intros ws rest H; simpl in H;
    [discriminate|].
  destruct (is_space c) eqn:Ec; [|discriminate].
  destruct (split_last_lf s) as [[ws' rest']|] eqn:Es.
  - injection H as <- <-. destruct (IH ws' rest' eq_refl) as (-> & Hws & Hr).
    simpl. rewrite Ec. repeat split; assumption.
  - destruct (N.eqb_spec c LF) as [->|]; [|discriminate].
    injection H as <- <-. repeat split.
    clear IH Ec. induction s as [|d s IHs]; [reflexivity|].
    simpl in Es. simpl. destruct (is_space d) eqn:Ed.
    + destruct (split_last_lf s) as [[? ?]|]; [discriminate|].
      destruct (N.eqb d LF); [discriminate|]. apply IHs. reflexivity.
    + destruct (N.eqb_spec d LF) as [->|]; [discriminate Ed | reflexivity].
Qed.

Lemma split_last_lf_none s :
  split_last_lf s = None -> blank_run_has_lf s = false.
Proof.
  induction s as [|d s IHs]; [reflexivity|].
  simpl. destruct (is_space d) eqn:Ed.
  - destruct (split_last_lf s) as [[? ?]|]; [discriminate|].
    destruct (N.eqb d LF); [discriminate|]. intros _. apply IHs. reflexivity.
  - intros _. destruct (N.eqb_spec d LF) as [->|]; [discriminate Ed | reflexivity].
Qed.

Lemma split_last_lf_canon ws rest :
  forallb is_space ws = true ->
  blank_run_has_lf rest = false ->
  split_last_lf (ws ++ LF :: rest) = Some (ws, rest).
Proof.
  intros Hws Hr. induction ws as [|c ws IH]; simpl.
  - change (is_space LF) with true. cbv iota.
    destruct (split_last_lf rest) as [[w r]|] eqn:E.
    + apply split_last_lf_some in E. destruct E as (-> & Hw & _).
      rewrite blank_run_app_lf in Hr by exact Hw. discriminate.
    + reflexivity.
  - simpl in Hws. apply andb_prop in Hws. destruct Hws as [Hc Hws].
    rewrite Hc, (IH Hws). reflexivity.
Qed.

Lemma split_last_lf_is_some s :
  is_some (split_last_lf s) = blank_run_has_lf s.
Proof.
  destruct (split_last_lf s) as [[ws rest]|] eqn:E.
  - apply split_last_lf_some in E. destruct E as (-> & Hws & _).
    rewrite blank_run_app_lf by exact Hws. reflexivity.
  - rewrite (split_last_lf_none s E). reflexivity.
Qed.

(** *** Bullet-only lines *)

Lemma dash_not_space : is_space DASH = false.
Proof. reflexivity. Qed.

Lemma bullet_line_some s indent ws rest :
  bullet_line s = Some (indent, ws, rest) ->
  s = indent ++ DASH :: ws ++ LF :: rest /\
  forallb is_space indent = true /\ forallb is_space ws = true /\
  blank_run_has_lf rest = false.
Proof.
  unfold bullet_line. intros H.
  pose proof (take_drop_while is_space s) as Hsplit.
  destruct (drop_while is_space s) as [|d s1]; [discriminate|].
  destruct (N.eqb_spec d DASH) as [->|]; [|discriminate].
  destruct (split_last_lf s1) as [[ws' rest']|] eqn:E; [|discriminate].
  injection H as <- <- <-.
  apply split_last_lf_some in E. destruct E as (-> & Hws & Hr).
  repeat split; try assumption.
  - symmetry. exact Hsplit.
  - apply take_while_all.
Qed.

Lemma bullet_line_at indent tail :
  forallb is_space indent = true ->
  bullet_line (indent ++ DASH :: tail) =
  match split_last_lf tail with
  | Some (ws, rest) => Some (indent, ws, rest)
  | None => None
  end.
Proof.
  intros Hin. unfold bullet_line.
  destruct (take_while_app_stop is_space indent (DASH :: tail) Hin dash_not_space)
    as [-> ->].
  change (N.eqb DASH DASH) with true. reflexivity.
Qed.

Lemma bullet_line_canon indent ws rest :
  forallb is_space indent = true ->
  forallb is_space ws = true ->
  blank_run_has_lf rest = false ->
  bullet_line (indent ++ DASH :: ws ++ LF :: rest) = Some (indent, ws, rest).
Proof.
  intros Hin Hws Hr. rewrite bullet_line_at by exact Hin.
  rewrite split_last_lf_canon by assumption. reflexivity.
Qed.

Lemma bullet_line_is_some indent tail :
  forallb is_space indent = true ->
  is_some (bullet_line (indent ++ DASH :: tail)) = blank_run_has_lf tail.
Proof.
  intros Hin. rewrite bullet_line_at by exact Hin.
  rewrite <- split_last_lf_is_some.
  destruct (split_last_lf tail) as [[? ?]|]; reflexivity.
Qed.

(** The list pattern matches exactly the bullet-only lines that start a
    line. *)
Lemma exec_list_item_spec prev s :
  exec re_list_item prev s =
  if at_line_start prev then
    match bullet_line s with
    | Some (indent, ws, rest) =>
        Some (MState (Some LF) rest
                (S (S (List.length indent + List.length ws))) [(1, indent)])
    | None => None
    end
  else None.
Proof.
  destruct (at_line_start prev) eqn:Hline.
  2:{ unfold exec, re_list_item. cbn [m ms_prev]. rewrite Hline. reflexivity. }
  destruct (bullet_line s) as [[[indent ws] rest]|] eqn:Eb.
  - apply bullet_line_some in Eb. destruct Eb as (-> & Hin & Hws & Hr).
    apply exec_list_item; assumption.
  - unfold exec, re_list_item. cbn [m ms_prev ms_rest ms_pos ms_caps].
    rewrite Hline. apply rep_fail. intros j Hj. unfold reach in Hj.
    unfold after. cbn [ms_prev ms_rest ms_pos ms_caps lit m].
    destruct (Nat.eq_dec j (prefix_len is_space s)) as [->|Hne].
    + rewrite skipn_prefix_len. unfold bullet_line in Eb.
      destruct (drop_while is_space s) as [|d s1]; [reflexivity|].
      rewrite N.eqb_sym. destruct (N.eqb d DASH); [|reflexivity].
      cbn [m ms_prev ms_rest ms_pos ms_caps].
      destruct (split_last_lf s1) as [[? ?]|] eqn:Es; [discriminate|].
      apply split_last_lf_none in Es.
      apply rep_fail. intros j2 Hj2. unfold reach in Hj2. unfold after.
      cbn [ms_prev ms_rest ms_pos ms_caps].
      pose proof (blank_run_no_lf s1 j2 Es) as Hno.
      destruct (skipn j2 s1) as [|c tl]; [reflexivity|].
      rewrite Hno by lia. reflexivity.
    + destruct (skipn_in_run is_space s j) as (c & tl & -> & Hc); [lia|].
      destruct (N.eqb_spec DASH c) as [<-|]; [discriminate Hc | reflexivity].
Qed.

(** *** Heading lines *)

Lemma heading_split_none s :
  heading_split s = None ->
  forall j, 1 <= j <= prefix_len is_space s ->
  match skipn j s with d :: _ => is_dot d = false | [] => True end.
Proof.
  induction s as [|c s IH]; intros H j Hj; simpl in Hj; [lia|].
  simpl in H. destruct (is_space c) eqn:Ec; [|lia].
  destruct (heading_split s) as [[? ?]|] eqn:Es; [discriminate|].
  destruct j as [|j]; [lia|]. simpl.
  destruct j as [|j].
  - simpl. destruct s as [|d s']; [exact I|].
    destruct (is_dot d); [discriminate | reflexivity].
  - apply IH; [reflexivity | lia].
Qed.

Lemma heading_split_some s W r :
  heading_split s = Some (W, r) ->
  s = W ++ r /\ W <> [] /\ forallb is_space W = true /\
  match r with d :: _ => is_dot d = true | [] => False end /\
  forall j, List.length W < j <= prefix_len is_space s ->
  match skipn j s with d :: _ => is_dot d = false | [] => True end.
Proof.
  revert W r. induction s as [|c s IH]; intros W r H; simpl in H; [discriminate|].
  destruct (is_space c) eqn:Ec; [|discriminate].
  destruct (heading_split s) as [[W' r']|] eqn:Es.
  - injection H as <- <-. destruct (IH W' r' eq_refl) as (-> & _ & HW & Hr & Hmax).
    repeat split; try discriminate; try assumption.
    + simpl. rewrite Ec. exact HW.
    + intros j Hj. simpl in Hj. rewrite Ec in Hj.
      destruct j as [|j]; [lia|]. simpl. apply Hmax. lia.
  - destruct s as [|d s']; [discriminate|].
    destruct (is_dot d) eqn:Ed; [|discriminate]. injection H as <- <-.
    repeat split; try discriminate; try assumption.
    + simpl. rewrite Ec. reflexivity.
    + intros j Hj. simpl List.length in Hj.
      destruct j as [|j]; [lia|]. cbn [skipn].
      apply (heading_split_none (d :: s') Es).
      simpl in Hj. rewrite Ec in Hj. simpl. lia.
Qed.

Lemma text_of_dots r :
  match r with d :: _ => is_dot d = true | [] => False end ->
  Path.take_while is_dot r <> [] /\
  at_line_end (drop_while is_dot r) = true.
Proof.
  intros Hr. split.
  - destruct r as [|d r']; [contradiction|]. simpl. rewrite Hr. discriminate.
  - pose proof (drop_while_head is_dot r) as Hh.
    destruct (drop_while is_dot r) as [|c tl]; [reflexivity|].
    simpl. unfold is_dot in Hh. destruct (is_line_terminator c);
      [reflexivity | discriminate].
Qed.

Lemma heading_line_some s n W text rest :
  heading_line s = Some (n, W, text, rest) ->
  s = repeat HASH n ++ W ++ text ++ rest /\ 1 <= n <= 6 /\
  n = prefix_len is_hash s /\
  heading_split (W ++ text ++ rest) = Some (W, text ++ rest) /\
  W <> [] /\ forallb is_space W = true /\
  text <> [] /\ forallb is_dot text = true /\ at_line_end rest = true /\
  text = Path.take_while is_dot (text ++ rest) /\
  rest = drop_while is_dot (text ++ rest).
Proof.
  unfold heading_line. intros H.
  destruct (Nat.leb_spec 1 (prefix_len is_hash s)) as [H1|]; [|discriminate].
  destruct (Nat.leb_spec (prefix_len is_hash s) 6) as [H6|]; [|discriminate].
  cbn [andb] in H.
  destruct (heading_split (skipn (prefix_len is_hash s) s)) as [[W' r]|] eqn:Es;
    [|discriminate].
  injection H as <- <- <- <-.
  pose proof (heading_split_some _ _ _ Es) as (Hsplit & HWne & HW & Hr & _).
  destruct (text_of_dots r Hr) as [Htne Hend].
  assert (Hs : s = repeat HASH (prefix_len is_hash s)
                   ++ skipn (prefix_len is_hash s) s).
  { rewrite <- (firstn_skipn (prefix_len is_hash s) s) at 1.
    f_equal. rewrite firstn_prefix_len.
    clear. induction s as [|c s IH]; simpl; [reflexivity|].
    unfold is_hash at 1 3. destruct (N.eqb_spec c HASH) as [->|]; simpl;
      [f_equal; exact IH | reflexivity]. }
  rewrite (take_drop_while is_dot r).
  repeat split; try assumption; try lia.
  - rewrite Hs at 1. rewrite Hsplit. reflexivity.
  - rewrite <- Hsplit. exact Es.
  - apply take_while_all.
Qed.

Lemma rep_no_run p k lo hi prev pos caps (s : jsstring) :
  1 <= lo ->
  match s with d :: _ => p d = false | [] => True end ->
  rep p k lo hi prev pos caps s = None.
Proof.
  intros Hlo Hs. apply rep_fail. intros j Hj.
  assert (reach p hi s = 0).
  { unfold reach. rewrite (prefix_len_stop p s Hs). destruct hi; [apply Nat.min_0_r|reflexivity]. }
  lia.
Qed.

Lemma hash_not_space : is_space HASH = false.
Proof. reflexivity. Qed.

(** The heading pattern matches exactly the heading lines that start a
    line. *)
Lemma hit_heading prev s :
  hit re_heading tpl_heading prev s =
  if at_line_start prev then
    match heading_line s with
    | Some (n, W, text, rest) =>
        Some (repeat HASH n ++ SP :: text,
              n + List.length W + List.length text)
    | None => None
    end
  else None.
Proof.
  unfold hit.
  destruct (at_line_start prev) eqn:Hline.
  2:{ unfold exec, re_heading. cbn [m ms_prev]. rewrite Hline. reflexivity. }
  unfold exec, re_heading. cbn [m ms_prev ms_rest ms_pos ms_caps]. rewrite Hline.
  match goal with |- context [rep is_hash ?K] => set (k1 := K) end.
  (* below the number of markers the blanks cannot start *)
  assert (Hlow : forall j, j < prefix_len is_hash s ->
                   k1 (after prev 0 [] s j) = None).
  { intros j Hj. unfold k1, after. cbn [ms_prev ms_rest ms_pos ms_caps].
    apply rep_no_run; [lia|].
    destruct (skipn_in_run is_hash s j Hj) as (c & tl & -> & Hc).
    unfold is_hash in Hc. apply N.eqb_eq in Hc. subst c. reflexivity. }
  destruct (heading_line s) as [[[[n W] text] rest]|] eqn:Eh.
  - pose proof (heading_line_some _ _ _ _ _ Eh)
      as (Hs & Hn & Hnp & Hsp & HWne & HW & Htne & Htext & Hend & Htw & Hdw).
    pose proof (heading_split_some _ _ _ Hsp) as (_ & _ & _ & Hr & Hmax).
    assert (He : exists pv,
               rep is_hash k1 1 (Some 6) prev 0 [] s =
               Some (MState pv rest (n + List.length W + List.length text)
                       [(2, text); (1, repeat HASH n)])).
    { eexists. apply rep_spec with (j := n).
      - unfold reach. rewrite <- Hnp. lia.
      - unfold k1, after. cbn [ms_prev ms_rest ms_pos ms_caps Nat.add].
        rewrite Nat.sub_0_r.
        assert (Hskip : skipn n s = W ++ text ++ rest).
        { rewrite Hs at 1. rewrite <- (repeat_length HASH n) at 1.
          apply skipn_app_exact. }
        assert (Hfirst : firstn n s = repeat HASH n).
        { rewrite Hs at 1. rewrite <- (repeat_length HASH n) at 1.
          apply firstn_app_exact. }
        rewrite Hskip, Hfirst.
        apply rep_spec with (j := List.length W).
        + unfold reach. rewrite prefix_len_app by exact HW.
          destruct W; [contradiction | simpl; lia].
        + unfold after. cbn [ms_prev ms_rest ms_pos ms_caps].
          rewrite skipn_app_exact.
          apply rep_spec with (j := List.length text).
          * unfold reach. rewrite forallb_dot_prefix by assumption.
            destruct text; [contradiction | simpl; lia].
          * unfold after. cbn [ms_prev ms_rest ms_pos ms_caps].
            rewrite skipn_app_exact, Hend.
            replace (n + List.length W + List.length text - (n + List.length W))
              with (List.length text) by lia.
            rewrite firstn_app_exact. reflexivity.
          * intros j' Hj'. unfold reach in Hj'.
            rewrite forallb_dot_prefix in Hj' by assumption. lia.
        + intros j' Hj'. unfold reach in Hj'. unfold after.
          cbn [ms_prev ms_rest ms_pos ms_caps].
          apply rep_no_run; [lia|]. apply Hmax. exact Hj'.
      - intros j' Hj'. unfold reach in Hj'. rewrite <- Hnp in Hj'. lia. }
    destruct He as [pv ->].
    cbn [ms_caps ms_pos expand tpl_heading get_cap Nat.eqb].
    rewrite app_nil_r. reflexivity.
  - rewrite rep_fail; [reflexivity|].
    intros j Hj. unfold reach in Hj.
    destruct (Nat.lt_ge_cases j (prefix_len is_hash s)) as [Hlt|Hge];
      [apply Hlow; exact Hlt|].
    assert (j = prefix_len is_hash s) by lia. subst j.
    unfold heading_line in Eh.
    destruct (Nat.leb_spec 1 (prefix_len is_hash s)) as [H1|]; [|lia].
    destruct (Nat.leb_spec (prefix_len is_hash s) 6) as [H6|]; [|lia].
    cbn [andb] in Eh.
    destruct (heading_split (skipn (prefix_len is_hash s) s)) as [[? ?]|] eqn:Es;
      [discriminate|].
    unfold k1, after. cbn [ms_prev ms_rest ms_pos ms_caps].
    apply rep_fail. intros j2 Hj2. unfold reach in Hj2. unfold after.
    cbn [ms_prev ms_rest ms_pos ms_caps].
    apply rep_no_run; [lia|].
    apply (heading_split_none _ Es). exact Hj2.
Qed.

(** ** The steps follow their relations *)

Lemma scan_hit r t prev s R L :
  hit r t prev s = Some (R, L) ->
  0 < L <= List.length s ->
  scan r t 0 prev s = R ++ scan r t 0 (prev_at prev s L) (skipn L s).
Proof.
  unfold hit. intros H HL. destruct (exec r prev s) as [f|] eqn:He; [|discriminate].
  injection H as <- <-. apply scan_match; assumption.
Qed.

Lemma scan_miss r t prev c s :
  hit r t prev (c :: s) = None ->
  scan r t 0 prev (c :: s) = c :: scan r t 0 (Some c) s.
Proof.
  unfold hit. intros H. destruct (exec r prev (c :: s)) eqn:He; [discriminate|].
  apply scan_copy. exact He.
Qed.

Lemma scan_end r t prev :
  hit r t prev [] = None -> scan r t 0 prev [] = [].
Proof.
  unfold hit. intros H. simpl. destruct (exec r prev []); [discriminate|reflexivity].
Qed.

Lemma prev_at_end prev prev' (u v : jsstring) :
  v <> [] ->
  prev_at prev (u ++ v) (List.length (u ++ v)) = prev_at prev' v (List.length v).
Proof.
  intros Hv. destruct v as [|c v] using rev_ind; [contradiction|].
  rewrite app_assoc, !prev_at_last. reflexivity.
Qed.

(** *** Step 1 *)

Lemma hit_blank_lines prev s :
  hit re_blank_lines tpl_blank_lines prev s =
  if Nat.leb 3 (prefix_len is_lf s) then Some ([LF; LF], prefix_len is_lf s)
  else None.
Proof.
  unfold hit, exec, re_blank_lines. cbn [m ms_prev ms_rest ms_pos ms_caps].
  destruct (Nat.leb_spec 3 (prefix_len is_lf s)) as [H|H].
  - rewrite rep_spec with (j := prefix_len is_lf s)
      (r := after prev 0 [] s (prefix_len is_lf s)).
    + reflexivity.
    + unfold reach. lia.
    + reflexivity.
    + intros j' Hj'. unfold reach in Hj'. lia.
  - rewrite rep_fail; [reflexivity|]. intros j Hj. unfold reach in Hj. lia.
Qed.

Lemma lf_run_repeat s :
  s = repeat LF (prefix_len is_lf s) ++ drop_while is_lf s.
Proof.
  induction s as [|c s IH]; simpl; [reflexivity|].
  unfold is_lf at 1 3. destruct (N.eqb_spec c LF) as [->|]; simpl;
    [f_equal; exact IH | reflexivity].
Qed.

Lemma rw1_scan s : forall prev, rw1 s (step1_at prev s).
Proof.
  remember (List.length s) as len eqn:Hlen. revert s Hlen.
  induction len as [len IH] using lt_wf_ind. intros s Hlen prev.
  unfold step1_at. destruct s as [|c s].
  - rewrite scan_end by (rewrite hit_blank_lines; reflexivity). constructor.
  - destruct (Nat.leb_spec 3 (prefix_len is_lf (c :: s))) as [H|H].
    + rewrite scan_hit with (R := [LF; LF]) (L := prefix_len is_lf (c :: s)).
      * rewrite skipn_prefix_len.
        rewrite (lf_run_repeat (c :: s)) at 1. cbn [app].
        apply rw1_hit; [exact H | |].
        -- apply prefix_len_stop. apply drop_while_head.
        -- eapply (IH (List.length (drop_while is_lf (c :: s)))); [|reflexivity].
           rewrite <- skipn_prefix_len, length_skipn. subst len.
           pose proof (prefix_len_le is_lf (c :: s)). lia.
      * rewrite hit_blank_lines. destruct (Nat.leb_spec 3 (prefix_len is_lf (c :: s)));
          [reflexivity | lia].
      * pose proof (prefix_len_le is_lf (c :: s)). lia.
    + rewrite scan_miss.
      * apply rw1_copy; [apply Nat.ltb_lt; exact H|].
        eapply (IH (List.length s)); [subst len; simpl; lia | reflexivity].
      * rewrite hit_blank_lines.
        destruct (Nat.leb_spec 3 (prefix_len is_lf (c :: s))); [lia | reflexivity].
Qed.

(** *** Step 2 *)

Lemma hit_code_fence prev s :
  hit re_code_fence tpl_code_fence prev s =
  match fence_blank s with
  | Some (tag, rest) =>
      Some (BT :: BT :: BT :: tag ++ [LF], S (S (3 + List.length tag)))
  | None => None
  end.
Proof.
  unfold hit. rewrite exec_code_fence.
  destruct (fence_blank s) as [[tag rest]|]; [|reflexivity].
  cbn [ms_caps ms_pos expand tpl_code_fence].
  replace (get_cap 1 (fence_caps tag)) with tag by (destruct tag; reflexivity).
  rewrite app_nil_r. reflexivity.
Qed.

Lemma rw2_scan s : forall prev, rw2 s (step2_at prev s).
Proof.
  remember (List.length s) as len eqn:Hlen. revert s Hlen.
  induction len as [len IH] using lt_wf_ind. intros s Hlen prev.
  unfold step2_at. destruct s as [|c s].
  - rewrite scan_end by (rewrite hit_code_fence; reflexivity). constructor.
  - destruct (fence_blank (c :: s)) as [[tag rest]|] eqn:Ef.
    + pose proof (fence_blank_inv _ _ _ Ef) as [Htag Heq].
      assert (E : scan re_code_fence tpl_code_fence 0 prev (c :: s) =
                  BT :: BT :: BT :: tag ++ LF :: step2_at None rest).
      { rewrite scan_hit with (R := BT :: BT :: BT :: tag ++ [LF])
                              (L := S (S (3 + List.length tag))).
        - rewrite (scan_code_fence_prev _ _ 0 _ None).
          replace (skipn (S (S (3 + List.length tag))) (c :: s)) with rest.
          + unfold step2_at. cbn [app]. rewrite <- app_assoc. reflexivity.
          + rewrite Heq.
            replace (S (S (3 + List.length tag)))
              with (List.length (BT :: BT :: BT :: tag ++ [LF; LF]))
              by (simpl; rewrite length_app; simpl; lia).
            replace (BT :: BT :: BT :: tag ++ LF :: LF :: rest)
              with ((BT :: BT :: BT :: tag ++ [LF; LF]) ++ rest)
              by (simpl; rewrite <- app_assoc; reflexivity).
            rewrite skipn_app_exact. reflexivity.
        - rewrite hit_code_fence, Ef. reflexivity.
        - rewrite Heq. simpl. rewrite length_app. simpl. lia. }
      rewrite E, Heq. apply rw2_hit; [exact Htag|].
      eapply (IH (List.length rest)); [|reflexivity].
      subst len. rewrite Heq. simpl. rewrite length_app. simpl. lia.
    + rewrite scan_miss by (rewrite hit_code_fence, Ef; reflexivity).
      apply rw2_copy; [exact Ef|].
      eapply (IH (List.length s)); [subst len; simpl; lia | reflexivity].
Qed.

(** *** Step 3 *)

Lemma hit_list_item prev s :
  hit re_list_item tpl_list_item prev s =
  if at_line_start prev then
    match bullet_line s with
    | Some (indent, ws, rest) =>
        Some (indent ++ [DASH; SP], S (S (List.length indent + List.length ws)))
    | None => None
    end
  else None.
Proof.
  unfold hit. rewrite exec_list_item_spec.
  destruct (at_line_start prev); [|reflexivity].
  destruct (bullet_line s) as [[[indent ws] rest]|]; reflexivity.
Qed.

Lemma rw3_scan s : forall prev, rw3 prev s (step3_at prev s).
Proof.
  remember (List.length s) as len eqn:Hlen. revert s Hlen.
  induction len as [len IH] using lt_wf_ind. intros s Hlen prev.
  unfold step3_at. destruct s as [|c s].
  - rewrite scan_end.
    + constructor.
    + rewrite hit_list_item. destruct (at_line_start prev); reflexivity.
  - destruct (at_line_start prev && is_some (bullet_line (c :: s)))%bool eqn:E.
    + apply andb_prop in E. destruct E as [Hline Hb].
      destruct (bullet_line (c :: s)) as [[[indent ws] rest]|] eqn:Eb;
        [|discriminate].
      pose proof (bullet_line_some _ _ _ _ Eb) as (Heq & Hin & Hws & Hr).
      assert (Es : scan re_list_item tpl_list_item 0 prev (c :: s) =
                   indent ++ DASH :: SP :: step3_at (Some LF) rest).
      { rewrite scan_hit with (R := indent ++ [DASH; SP])
                              (L := S (S (List.length indent + List.length ws))).
        - rewrite Heq.
          replace (S (S (List.length indent + List.length ws)))
            with (List.length ((indent ++ DASH :: ws) ++ [LF]))
            by (rewrite !length_app; simpl; lia).
          replace (indent ++ DASH :: ws ++ LF :: rest)
            with (((indent ++ DASH :: ws) ++ [LF]) ++ rest)
            by (rewrite <- !app_assoc; reflexivity).
          rewrite skipn_app_exact, prev_at_app, prev_at_last.
          unfold step3_at. rewrite <- app_assoc. reflexivity.
        - rewrite hit_list_item, Hline, Eb. reflexivity.
        - rewrite Heq, !length_app. simpl. rewrite length_app. simpl. lia. }
      rewrite Es, Heq. apply rw3_hit; try assumption.
      eapply (IH (List.length rest)); [|reflexivity].
      subst len. rewrite Heq, !length_app. simpl. rewrite length_app. simpl. lia.
    + rewrite scan_miss.
      * apply rw3_copy; [exact E|].
        eapply (IH (List.length s)); [subst len; simpl; lia | reflexivity].
      * rewrite hit_list_item. destruct (at_line_start prev); [|reflexivity].
        destruct (bullet_line (c :: s)) as [[[? ?] ?]|]; [discriminate E|reflexivity].
Qed.

(** *** Step 4 *)

Lemma rw4_scan s : forall prev, rw4 prev s (step4_at prev s).
Proof.
  remember (List.length s) as len eqn:Hlen. revert s Hlen.
  induction len as [len IH] using lt_wf_ind. intros s Hlen prev.
  unfold step4_at. destruct s as [|c s].
  - rewrite scan_end.
    + constructor.
    + rewrite hit_heading. destruct (at_line_start prev); reflexivity.
  - destruct (at_line_start prev && is_some (heading_line (c :: s)))%bool eqn:E.
    + apply andb_prop in E. destruct E as [Hline Hb].
      destruct (heading_line (c :: s)) as [[[[n W] text] rest]|] eqn:Eh;
        [|discriminate].
      pose proof (heading_line_some _ _ _ _ _ Eh)
        as (Heq & Hn & _ & _ & HWne & HW & Htne & Htext & Hend & _).
      assert (Es : scan re_heading tpl_heading 0 prev (c :: s) =
                   repeat HASH n ++ SP :: text ++
                   step4_at (prev_at prev text (List.length text)) rest).
      { rewrite scan_hit with (R := repeat HASH n ++ SP :: text)
                              (L := n + List.length W + List.length text).
        - rewrite Heq.
          replace (n + List.length W + List.length text)
            with (List.length ((repeat HASH n ++ W) ++ text))
            by (rewrite !length_app, repeat_length; lia).
          replace (repeat HASH n ++ W ++ text ++ rest)
            with (((repeat HASH n ++ W) ++ text) ++ rest)
            by (rewrite <- !app_assoc; reflexivity).
          rewrite skipn_app_exact, prev_at_app.
          rewrite (prev_at_end prev prev (repeat HASH n ++ W) text Htne).
          unfold step4_at. rewrite <- !app_assoc. reflexivity.
        - rewrite hit_heading, Hline, Eh. reflexivity.
        - rewrite Heq, !length_app, repeat_length.
          destruct text; [contradiction | simpl; lia]. }
      rewrite Es, Heq.
      apply rw4_hit; [exact Hline | rewrite <- Heq; exact Eh |].
      eapply (IH (List.length rest)); [|reflexivity].
      subst len. rewrite Heq, !length_app, repeat_length.
      destruct W; [contradiction | simpl; lia].
    + rewrite scan_miss.
      * apply rw4_copy; [exact E|].
        eapply (IH (List.length s)); [subst len; simpl; lia | reflexivity].
      * rewrite hit_heading. destruct (at_line_start prev); [|reflexivity].
        destruct (heading_line (c :: s)) as [[[[? ?] ?] ?]|];
          [discriminate E | reflexivity].
Qed.

(** A text related to itself is left alone by step 4. *)
Lemma rw4_fun prev s out : rw4 prev s out -> step4_at prev s = out.
Proof.
  intros H. induction H as [prev|prev c s out E H IH|prev n W text rest out Hline Eh H IH].
  - unfold step4_at. apply scan_end. rewrite hit_heading.
    destruct (at_line_start prev); reflexivity.
  - unfold step4_at in *. rewrite scan_miss; [rewrite IH; reflexivity|].
    rewrite hit_heading. destruct (at_line_start prev); [|reflexivity].
    destruct (heading_line (c :: s)) as [[[[? ?] ?] ?]|];
      [discriminate E | reflexivity].
  - pose proof (heading_line_some _ _ _ _ _ Eh)
      as (_ & Hn & _ & _ & HWne & HW & Htne & Htext & Hend & _).
    unfold step4_at in *.
    rewrite scan_hit with (R := repeat HASH n ++ SP :: text)
                          (L := n + List.length W + List.length text).
    + replace (n + List.length W + List.length text)
        with (List.length ((repeat HASH n ++ W) ++ text))
        by (rewrite !length_app, repeat_length; lia).
      replace (repeat HASH n ++ W ++ text ++ rest)
        with (((repeat HASH n ++ W) ++ text) ++ rest)
        by (rewrite <- !app_assoc; reflexivity).
      rewrite skipn_app_exact, prev_at_app.
      rewrite (prev_at_end prev prev (repeat HASH n ++ W) text Htne).
      rewrite IH, <- !app_assoc. reflexivity.
    + rewrite hit_heading, Hline, Eh. reflexivity.
    + rewrite !length_app, repeat_length.
      destruct text; [contradiction | simpl; lia].
Qed.

(** ** No three line feeds in a row *)

Lemma no3_mono s : forall k k', k' <= k -> no3 k s = true -> no3 k' s = true.
Proof.
  induction s as [|c s IH]; intros k k' Hk H; [reflexivity|].
  simpl in *. destruct (N.eqb c LF); [|exact H].
  apply andb_prop in H. destruct H as [Hlt H]. apply Nat.ltb_lt in Hlt.
  apply andb_true_intro. split; [apply Nat.ltb_lt; lia|].
  apply (IH (S k)); [lia | exact H].
Qed.

Lemma no3_app_l u : forall k v, no3 k (u ++ v) = true -> no3 k u = true.
Proof.
  induction u as [|c u IH]; intros k v H; [reflexivity|].
  simpl in *. destruct (N.eqb c LF); [|exact (IH _ _ H)].
  apply andb_prop in H. destruct H as [Hlt H]. rewrite Hlt. exact (IH _ _ H).
Qed.

Lemma no3_app_r u : forall k v, no3 k (u ++ v) = true -> no3 0 v = true.
Proof.
  induction u as [|c u IH]; intros k v H.
  - apply (no3_mono v k 0); [lia | exact H].
  - simpl in H. destruct (N.eqb c LF); [|exact (IH _ _ H)].
    apply andb_prop in H. destruct H as [_ H]. exact (IH _ _ H).
Qed.

(** What follows a code unit other than a line feed may be replaced. *)
Lemma no3_replace u : forall k d x y,
  no3 k (u ++ d :: x) = true -> N.eqb d LF = false ->
  no3 0 y = true -> no3 k (u ++ d :: y) = true.
Proof.
  induction u as [|c u IH]; intros k d x y H Hd Hy.
  - simpl in *. rewrite Hd in *. exact Hy.
  - simpl in *. destruct (N.eqb c LF); [|exact (IH _ _ _ _ H Hd Hy)].
    apply andb_prop in H. destruct H as [Hlt H]. rewrite Hlt.
    exact (IH _ _ _ _ H Hd Hy).
Qed.

Lemma no3_after u : forall k d x,
  no3 k (u ++ d :: x) = true -> N.eqb d LF = false -> no3 0 x = true.
Proof.
  intros k d x H Hd. replace (u ++ d :: x) with ((u ++ [d]) ++ x) in H
    by (rewrite <- app_assoc; reflexivity).
  exact (no3_app_r _ _ _ H).
Qed.

(** A text without line feed at its head of which does not count. *)
Lemma no3_no_lf text : forall k y,
  forallb (fun c => negb (N.eqb c LF)) text = true -> text <> [] ->
  no3 0 y = true -> no3 k (text ++ y) = true.
Proof.
  induction text as [|c text IH]; intros k y Ht Hne Hy; [contradiction|].
  simpl in Ht. apply andb_prop in Ht. destruct Ht as [Hc Ht].
  simpl. destruct (N.eqb c LF); [discriminate|].
  destruct text as [|c' text']; [exact Hy|].
  apply IH; [exact Ht | discriminate | exact Hy].
Qed.

Lemma no3_lf3 k x : no3 k (LF :: LF :: LF :: x) = false.
Proof.
  simpl. change (N.eqb LF LF) with true. cbv iota.
  destruct k as [|[|k]]; reflexivity.
Qed.

(** Step 1 leaves no three line feeds in a row. *)
Lemma rw1_no3 s out :
  rw1 s out ->
  forall k, k = 0 \/ k + prefix_len is_lf s <= 2 -> no3 k out = true.
Proof.
  intros H. induction H as [|c s out Hlt H IH|n rest out Hn Hrest H IH];
    intros k Hk.
  - reflexivity.
  - apply Nat.ltb_lt in Hlt. simpl in Hlt, Hk. simpl. unfold is_lf in *.
    destruct (N.eqb c LF).
    + apply andb_true_intro. split; [apply Nat.ltb_lt; lia|].
      apply IH. right. lia.
    + apply IH. left. reflexivity.
  - assert (k = 0).
    { destruct Hk as [|Hk]; [assumption|].
      rewrite prefix_len_repeat in Hk by reflexivity. lia. }
    subst k. simpl. change (N.eqb LF LF) with true. cbv iota. simpl.
    apply IH. right. lia.
Qed.

(** Step 1 leaves alone a text without three line feeds in a row. *)
Lemma rw1_fixed s out : rw1 s out -> forall k, no3 k s = true -> out = s.
Proof.
  intros H. induction H as [|c s out Hlt H IH|n rest out Hn Hrest H IH];
    intros k Hk.
  - reflexivity.
  - f_equal. simpl in Hk. destruct (N.eqb c LF).
    + apply andb_prop in Hk. destruct Hk as [_ Hk]. exact (IH _ Hk).
    + exact (IH _ Hk).
  - exfalso. destruct n as [|[|[|n]]]; try lia.
    cbn [repeat app] in Hk. rewrite no3_lf3 in Hk. discriminate.
Qed.

Lemma word_not_lf tag :
  forallb is_word tag = true -> forallb (fun c => negb (N.eqb c LF)) tag = true.
Proof.
  intros H. rewrite forallb_forall in *. intros c Hc. specialize (H c Hc).
  destruct (N.eqb_spec c LF) as [->|]; [discriminate H | reflexivity].
Qed.

(** Step 2 does not bring three line feeds together. *)
Lemma rw2_no3 s out : rw2 s out -> forall k, no3 k s = true -> no3 k out = true.
Proof.
  intros H. induction H as [|c s out Hf H IH|tag rest out Htag H IH]; intros k Hk.
  - reflexivity.
  - simpl in *. destruct (N.eqb c LF).
    + apply andb_prop in Hk. destruct Hk as [Hlt Hk]. rewrite Hlt. exact (IH _ Hk).
    + exact (IH _ Hk).
  - change (BT :: BT :: BT :: tag ++ LF :: LF :: rest)
      with ([BT; BT; BT] ++ tag ++ LF :: LF :: rest) in Hk.
    change (BT :: BT :: BT :: tag ++ LF :: out)
      with ([BT; BT; BT] ++ tag ++ LF :: out).
    rewrite app_assoc in *.
    assert (Hne : [BT; BT; BT] ++ tag <> []) by discriminate.
    assert (Hnl : forallb (fun c => negb (N.eqb c LF)) ([BT; BT; BT] ++ tag) = true).
    { rewrite forallb_app. apply andb_true_intro. split; [reflexivity|].
      exact (word_not_lf tag Htag). }
    apply no3_no_lf; [exact Hnl | exact Hne|].
    apply no3_app_r in Hk. simpl in Hk. change (N.eqb LF LF) with true in Hk.
    simpl in Hk. simpl. change (N.eqb LF LF) with true. cbv iota. simpl.
    apply IH. apply (no3_mono rest 2 1); [lia | exact Hk].
Qed.

(** Step 3 does not bring three line feeds together. *)
Lemma rw3_no3 prev s out :
  rw3 prev s out -> forall k, no3 k s = true -> no3 k out = true.
Proof.
  intros H.
  induction H as [prev|prev c s out E H IH|prev indent ws rest out Hl Hin Hws Hr H IH];
    intros k Hk.
  - reflexivity.
  - simpl in *. destruct (N.eqb c LF).
    + apply andb_prop in Hk. destruct Hk as [Hlt Hk]. rewrite Hlt. exact (IH _ Hk).
    + exact (IH _ Hk).
  - apply (no3_replace indent k DASH (ws ++ LF :: rest)); [exact Hk | reflexivity|].
    simpl. apply IH.
    replace (indent ++ DASH :: ws ++ LF :: rest)
      with ((indent ++ DASH :: ws ++ [LF]) ++ rest) in Hk
      by (rewrite <- app_assoc; simpl; rewrite <- app_assoc; reflexivity).
    exact (no3_app_r _ _ _ Hk).
Qed.

Lemma dot_not_lf text :
  forallb is_dot text = true -> forallb (fun c => negb (N.eqb c LF)) text = true.
Proof.
  intros H. rewrite forallb_forall in *. intros c Hc. specialize (H c Hc).
  destruct (N.eqb_spec c LF) as [->|]; [discriminate H | reflexivity].
Qed.

(** Step 4 does not bring three line feeds together. *)
Lemma rw4_no3 prev s out :
  rw4 prev s out -> forall k, no3 k s = true -> no3 k out = true.
Proof.
  intros H.
  induction H as [prev|prev c s out E H IH|prev n W text rest out Hl Eh H IH];
    intros k Hk.
  - reflexivity.
  - simpl in *. destruct (N.eqb c LF).
    + apply andb_prop in Hk. destruct Hk as [Hlt Hk]. rewrite Hlt. exact (IH _ Hk).
    + exact (IH _ Hk).
  - pose proof (heading_line_some _ _ _ _ _ Eh)
      as (_ & Hn & _ & _ & HWne & HW & Htne & Htext & Hend & _).
    replace (repeat HASH n ++ SP :: text ++ out)
      with ((repeat HASH n ++ SP :: text) ++ out)
      by (rewrite <- app_assoc; reflexivity).
    apply no3_no_lf.
    + rewrite forallb_app. apply andb_true_intro. split.
      * clear. induction n; simpl; [reflexivity | exact IHn].
      * cbn [forallb]. apply andb_true_intro. split; [reflexivity|].
        exact (dot_not_lf text Htext).
    + destruct n; [lia | discriminate].
    + apply IH.
      replace (repeat HASH n ++ W ++ text ++ rest)
        with ((repeat HASH n ++ W ++ text) ++ rest) in Hk
        by (rewrite <- !app_assoc; reflexivity).
      exact (no3_app_r _ _ _ Hk).
Qed.

(** ** No blank line after a fence *)

#[local] Arguments fence_blank : simpl never.
#[local] Arguments bullet_line : simpl never.
#[local] Arguments heading_line : simpl never.

Lemma fence_blank_not_bt c s : N.eqb BT c = false -> fence_blank (c :: s) = None.
Proof.
  intros H. unfold fence_blank. destruct s as [|b [|d s3]]; try reflexivity.
  rewrite H. reflexivity.
Qed.

Lemma fence_blank_second a c s : N.eqb BT c = false -> fence_blank (a :: c :: s) = None.
Proof.
  intros H. unfold fence_blank. destruct s as [|d s3]; try reflexivity.
  rewrite H, andb_false_r. reflexivity.
Qed.

Lemma fence_blank_third a b s :
  match s with c :: _ => N.eqb BT c = false | [] => True end ->
  fence_blank (a :: b :: s) = None.
Proof.
  intros H. unfold fence_blank. destruct s as [|d s3]; try reflexivity.
  rewrite H, andb_false_r. reflexivity.
Qed.

Lemma nofb_app_r u v : nofb (u ++ v) = true -> nofb v = true.
Proof.
  induction u as [|c u IH]; intros H; [exact H|].
  simpl in H. apply andb_prop in H. destruct H as [_ H]. exact (IH H).
Qed.

Lemma nofb_cons c s : nofb (c :: s) = true -> fence_blank (c :: s) = None.
Proof.
  simpl. intros H. apply andb_prop in H. destruct H as [H _].
  destruct (fence_blank (c :: s)); [discriminate | reflexivity].
Qed.

Lemma nofb_no_bt u v :
  forallb (fun c => negb (N.eqb BT c)) u = true ->
  nofb v = true -> nofb (u ++ v) = true.
Proof.
  intros Hu Hv. induction u as [|c u IH]; [exact Hv|].
  simpl in Hu. apply andb_prop in Hu. destruct Hu as [Hc Hu].
  cbn [app nofb]. rewrite fence_blank_not_bt
    by (destruct (N.eqb BT c); [discriminate | reflexivity]).
  simpl. exact (IH Hu).
Qed.

(** Step 2 leaves alone a text in which the fence pattern does not occur. *)
Lemma rw2_fixed s out : rw2 s out -> nofb s = true -> out = s.
Proof.
  intros H. induction H as [|c s out Hf H IH|tag rest out Htag H IH]; intros Hn.
  - reflexivity.
  - f_equal. apply IH. simpl in Hn. apply andb_prop in Hn. tauto.
  - exfalso. apply nofb_cons in Hn. rewrite fence_blank_hit in Hn by exact Htag.
    discriminate.
Qed.

(** An output that does not begin with three backticks began with a copy. *)
Lemma rw2_uncons s x o :
  rw2 s (x :: o) -> starts3bt (x :: o) = false ->
  exists s', s = x :: s' /\ rw2 s' o.
Proof.
  intros H Hs. inversion H as [|c s0 out Hf H0|tag rest out Htag H0]; subst.
  - exists s0. split; [reflexivity | assumption].
  - discriminate Hs.
Qed.

Lemma rw2_prefix u : forall s o,
  rw2 s (u ++ o) ->
  forallb (fun c => negb (N.eqb BT c)) u = true ->
  exists s', s = u ++ s' /\ rw2 s' o.
Proof.
  induction u as [|c u IH]; intros s o H Hu.
  - exists s. split; [reflexivity | exact H].
  - simpl in Hu. apply andb_prop in Hu. destruct Hu as [Hc Hu].
    destruct (rw2_uncons s c (u ++ o) H) as (s1 & -> & H1).
    { unfold starts3bt. destruct (u ++ o) as [|b [|d l]]; try reflexivity.
      destruct (N.eqb BT c); [discriminate | reflexivity]. }
    destruct (IH s1 o H1 Hu) as (s' & -> & H'). exists s'. split; [reflexivity|exact H'].
Qed.

Lemma word_not_bt tag :
  forallb is_word tag = true -> forallb (fun c => negb (N.eqb BT c)) tag = true.
Proof.
  intros H. rewrite forallb_forall in *. intros c Hc. specialize (H c Hc).
  destruct (N.eqb_spec BT c) as [<-|]; [discriminate H | reflexivity].
Qed.

Lemma head_tag_not_bt tag x :
  forallb is_word tag = true ->
  match tag ++ LF :: x with c :: _ => N.eqb BT c = false | [] => True end.
Proof.
  intros H. destruct tag as [|t tag]; [reflexivity|].
  simpl in H. apply andb_prop in H. destruct H as [Ht _]. simpl.
  destruct (N.eqb_spec BT t) as [<-|]; [discriminate Ht | reflexivity].
Qed.

(** Where the fence pattern matches in the output of step 2, it matched in
    the input. *)
Lemma rw2_lookahead s out c tag r :
  rw2 s out -> fence_blank (c :: out) = Some (tag, r) ->
  exists r', c :: s = BT :: BT :: BT :: tag ++ LF :: LF :: r'.
Proof.
  intros H Hf. apply fence_blank_inv in Hf. destruct Hf as [Htag Heq].
  injection Heq as -> ->.
  destruct (rw2_uncons s BT (BT :: tag ++ LF :: LF :: r) H) as (s1 & -> & H1).
  { pose proof (head_tag_not_bt tag (LF :: r) Htag) as Hh.
    destruct (tag ++ LF :: LF :: r) as [|d l]; [reflexivity|].
    unfold starts3bt. rewrite Hh. destruct (N.eqb BT BT); reflexivity. }
  destruct (rw2_uncons s1 BT (tag ++ LF :: LF :: r) H1) as (s2 & -> & H2).
  { pose proof (head_tag_not_bt tag (LF :: r) Htag) as Hh.
    destruct (tag ++ LF :: LF :: r) as [|d [|e l]]; try reflexivity.
    unfold starts3bt. rewrite Hh. destruct (N.eqb BT BT); reflexivity. }
  replace (tag ++ LF :: LF :: r) with ((tag ++ [LF; LF]) ++ r) in H2
    by (rewrite <- app_assoc; reflexivity).
  destruct (rw2_prefix (tag ++ [LF; LF]) s2 r H2) as (s3 & -> & _).
  { rewrite forallb_app. apply andb_true_intro.
    split; [exact (word_not_bt tag Htag) | reflexivity]. }
  exists s3. rewrite <- app_assoc. reflexivity.
Qed.

Lemma rw2_head s out :
  rw2 s out -> prefix_len is_lf s = 0 -> prefix_len is_lf out = 0.
Proof.
  intros H. destruct H as [|c s out Hf H|tag rest out Htag H]; intros Hs.
  - reflexivity.
  - simpl in *. destruct (is_lf c); [discriminate | reflexivity].
  - reflexivity.
Qed.

Lemma no3_two_head rest : no3 2 rest = true -> prefix_len is_lf rest = 0.
Proof.
  destruct rest as [|c rest]; [reflexivity|]. simpl. unfold is_lf.
  destruct (N.eqb c LF); [discriminate | reflexivity].
Qed.

Lemma fence_blank_one_lf tag o :
  forallb is_word tag = true -> prefix_len is_lf o = 0 ->
  fence_blank (BT :: BT :: BT :: tag ++ LF :: o) = None.
Proof.
  intros Htag Ho. unfold fence_blank. change (N.eqb BT BT) with true. cbn [andb].
  destruct (take_while_app_stop is_word tag (LF :: o) Htag eq_refl) as [_ ->].
  destruct o as [|y o']; [reflexivity|].
  simpl in Ho. unfold is_lf in Ho. rewrite N.eqb_sym in Ho.
  destruct (N.eqb LF y); [discriminate | rewrite andb_false_r; reflexivity].
Qed.

(** Step 2, on a text without three line feeds in a row, leaves no place
    for the fence pattern. *)
Lemma rw2_nofb s out : rw2 s out -> forall k, no3 k s = true -> nofb out = true.
Proof.
  intros H. induction H as [|c s out Hf H IH|tag rest out Htag H IH]; intros k Hk.
  - reflexivity.
  - assert (Hs : exists k', no3 k' s = true).
    { simpl in Hk. destruct (N.eqb c LF); [|eauto].
      apply andb_prop in Hk. destruct Hk as [_ Hk]. eauto. }
    destruct Hs as [k' Hk']. cbn [nofb]. rewrite (IH k' Hk'), andb_true_r.
    destruct (fence_blank (c :: out)) as [[tag r]|] eqn:E; [|reflexivity].
    destruct (rw2_lookahead s out c tag r H E) as [r' Heq].
    pose proof (fence_blank_inv _ _ _ E) as [Htag _].
    rewrite Heq, fence_blank_hit in Hf by exact Htag. discriminate.
  - assert (Hrest : no3 2 rest = true).
    { change (BT :: BT :: BT :: tag ++ LF :: LF :: rest)
        with ([BT; BT; BT] ++ tag ++ LF :: LF :: rest) in Hk.
      rewrite app_assoc in Hk. apply no3_app_r in Hk. exact Hk. }
    assert (Hout : nofb out = true).
    { apply (IH 2). exact Hrest. }
    assert (Hhead : prefix_len is_lf out = 0).
    { apply (rw2_head rest out H). apply no3_two_head. exact Hrest. }
    cbn [nofb]. rewrite fence_blank_one_lf by assumption.
    rewrite fence_blank_third by (apply head_tag_not_bt; exact Htag).
    assert (Hsec : fence_blank (BT :: tag ++ LF :: out) = None).
    { pose proof (head_tag_not_bt tag out Htag) as Hh.
      destruct (tag ++ LF :: out) as [|d l] eqn:E; [reflexivity|].
      apply fence_blank_second. exact Hh. }
    rewrite Hsec. cbn [is_some negb andb].
    replace (tag ++ LF :: out) with ((tag ++ [LF]) ++ out)
      by (rewrite <- app_assoc; reflexivity).
    apply nofb_no_bt; [|exact Hout].
    rewrite forallb_app. apply andb_true_intro.
    split; [exact (word_not_bt tag Htag) | reflexivity].
Qed.

(** *** Steps 3 and 4 keep it so *)

Lemma app_eq_prefix (a b u o : jsstring) d :
  a ++ d :: b = u ++ o -> ~ In d u -> exists w, a = u ++ w.
Proof.
  revert u. induction a as [|x a IH]; intros u H Hd.
  - destruct u as [|y u]; [exists []; reflexivity|].
    simpl in H. injection H as -> _. exfalso. apply Hd. left. reflexivity.
  - destruct u as [|y u]; [exists (x :: a); reflexivity|].
    simpl in H. injection H as -> H.
    destruct (IH u H) as [w ->].
    + intros Hin. apply Hd. right. exact Hin.
    + exists w. reflexivity.
Qed.

(** A part of the output of step 3 that holds no marker is a part of the
    input. *)
Lemma rw3_prefix prev s out :
  rw3 prev s out ->
  forall u o, out = u ++ o -> ~ In DASH u -> exists s', s = u ++ s'.
Proof.
  intros H.
  induction H as [prev|prev c s out E H IH|prev indent ws rest out Hl Hin Hws Hr H IH];
    intros u o Heq Hd.
  - destruct u; [exists []; reflexivity | discriminate].
  - destruct u as [|y u]; [exists (c :: s); reflexivity|].
    simpl in Heq. injection Heq as <- Heq.
    destruct (IH u o Heq) as [s' ->].
    + intros Hin. apply Hd. right. exact Hin.
    + exists s'. reflexivity.
  - destruct (app_eq_prefix indent (SP :: out) u o DASH Heq Hd) as [w ->].
    exists (w ++ DASH :: ws ++ LF :: rest). rewrite <- app_assoc. reflexivity.
Qed.

Lemma rw4_prefix prev s out :
  rw4 prev s out ->
  forall u o, out = u ++ o -> ~ In HASH u -> exists s', s = u ++ s'.
Proof.
  intros H.
  induction H as [prev|prev c s out E H IH|prev n W text rest out Hl Eh H IH];
    intros u o Heq Hd.
  - destruct u; [exists []; reflexivity | discriminate].
  - destruct u as [|y u]; [exists (c :: s); reflexivity|].
    simpl in Heq. injection Heq as <- Heq.
    destruct (IH u o Heq) as [s' ->].
    + intros Hin. apply Hd. right. exact Hin.
    + exists s'. reflexivity.
  - pose proof (heading_line_some _ _ _ _ _ Eh) as (_ & Hn & _).
    destruct n as [|n]; [lia|]. destruct u as [|y u]; [eexists; reflexivity|].
    simpl in Heq. injection Heq as <- _. exfalso. apply Hd. left. reflexivity.
Qed.

Lemma pattern_no_dash tag :
  forallb is_word tag = true -> ~ In DASH (BT :: BT :: tag ++ [LF; LF]).
Proof.
  intros Htag Hin. destruct Hin as [H|[H|Hin]]; try discriminate.
  apply in_app_or in Hin. destruct Hin as [Hin|[H|[H|[]]]]; try discriminate.
  rewrite forallb_forall in Htag. specialize (Htag _ Hin). discriminate.
Qed.

Lemma pattern_no_hash tag :
  forallb is_word tag = true -> ~ In HASH (BT :: BT :: tag ++ [LF; LF]).
Proof.
  intros Htag Hin. destruct Hin as [H|[H|Hin]]; try discriminate.
  apply in_app_or in Hin. destruct Hin as [Hin|[H|[H|[]]]]; try discriminate.
  rewrite forallb_forall in Htag. specialize (Htag _ Hin). discriminate.
Qed.

Lemma space_not_bt u :
  forallb is_space u = true -> forallb (fun c => negb (N.eqb BT c)) u = true.
Proof.
  intros H. rewrite forallb_forall in *. intros c Hc. specialize (H c Hc).
  destruct (N.eqb_spec BT c) as [<-|]; [discriminate H | reflexivity].
Qed.

Lemma rw3_nofb prev s out : rw3 prev s out -> nofb s = true -> nofb out = true.
Proof.
  intros H.
  induction H as [prev|prev c s out E H IH|prev indent ws rest out Hl Hin Hws Hr H IH];
    intros Hn.
  - reflexivity.
  - pose proof (nofb_cons _ _ Hn) as Hc.
    simpl in Hn. apply andb_prop in Hn. destruct Hn as [_ Hn].
    cbn [nofb]. rewrite (IH Hn), andb_true_r.
    destruct (fence_blank (c :: out)) as [[tag r]|] eqn:Ef; [|reflexivity].
    apply fence_blank_inv in Ef. destruct Ef as [Htag Heq].
    injection Heq as -> Heq.
    destruct (rw3_prefix _ _ _ H (BT :: BT :: tag ++ [LF; LF]) r) as [s' ->].
    + rewrite Heq. simpl. rewrite <- app_assoc. reflexivity.
    + apply pattern_no_dash. exact Htag.
    + replace (BT :: (BT :: BT :: tag ++ [LF; LF]) ++ s')
        with (BT :: BT :: BT :: tag ++ LF :: LF :: s') in Hc
        by (simpl; rewrite <- app_assoc; reflexivity).
      rewrite fence_blank_hit in Hc by exact Htag. discriminate.
  - replace (indent ++ DASH :: SP :: out) with ((indent ++ [DASH; SP]) ++ out)
      by (rewrite <- app_assoc; reflexivity).
    apply nofb_no_bt.
    + rewrite forallb_app. apply andb_true_intro.
      split; [exact (space_not_bt indent Hin) | reflexivity].
    + apply IH.
      replace (indent ++ DASH :: ws ++ LF :: rest)
        with ((indent ++ DASH :: ws ++ [LF]) ++ rest) in Hn
        by (rewrite <- app_assoc; simpl; rewrite <- app_assoc; reflexivity).
      exact (nofb_app_r _ _ Hn).
Qed.

Lemma app_eq_split (x o P q : jsstring) d :
  x ++ o = P ++ d :: q -> ~ In d x -> exists w, P = x ++ w /\ o = w ++ d :: q.
Proof.
  revert P. induction x as [|a x IH]; intros P H Hd.
  - exists P. split; [reflexivity | exact H].
  - destruct P as [|b P].
    + simpl in H. injection H as -> _. exfalso. apply Hd. left. reflexivity.
    + simpl in H. injection H as -> H.
      destruct (IH P H) as (w & -> & ->).
      * intros Hin. apply Hd. right. exact Hin.
      * exists w. split; reflexivity.
Qed.

Lemma dot_no_lf text : forallb is_dot text = true -> ~ In LF text.
Proof.
  intros H Hin. rewrite forallb_forall in H. specialize (H _ Hin). discriminate.
Qed.

Lemma rw4_nofb_text pv rest out0 :
  rw4 pv rest out0 -> nofb out0 = true ->
  forall text,
    forallb is_dot text = true -> nofb (text ++ rest) = true ->
    nofb (text ++ out0) = true.
Proof.
  intros H Hout text. induction text as [|c text IH]; intros Hdot Hn; [exact Hout|].
  cbn [app] in Hn. pose proof (nofb_cons _ _ Hn) as Hc.
  pose proof Hdot as Hdot0.
  simpl in Hdot. apply andb_prop in Hdot. destruct Hdot as [_ Hdot].
  cbn [app nofb] in *. apply andb_prop in Hn. destruct Hn as [_ Hn].
  rewrite (IH Hdot Hn), andb_true_r.
  destruct (fence_blank (c :: text ++ out0)) as [[tag r]|] eqn:Ef; [|reflexivity].
  apply fence_blank_inv in Ef. destruct Ef as [Htag Heq].
  change (c :: text ++ out0) with ((c :: text) ++ out0) in Heq.
  change (BT :: BT :: BT :: tag ++ LF :: LF :: r)
    with ((BT :: BT :: BT :: tag) ++ LF :: LF :: r) in Heq.
  destruct (app_eq_split _ _ _ _ _ Heq (dot_no_lf _ Hdot0)) as (w & HP & Ho).
  destruct (rw4_prefix _ _ _ H (w ++ [LF; LF]) r) as [s' Hs'].
  - rewrite Ho, <- app_assoc. reflexivity.
  - intros Hin. apply (pattern_no_hash tag Htag).
    right. right. apply in_app_or in Hin. apply in_or_app.
    destruct Hin as [Hin|Hin]; [|right; exact Hin].
    left. assert (Hin' : In HASH ((c :: text) ++ w)) by (apply in_or_app; right; exact Hin).
    rewrite <- HP in Hin'. destruct Hin' as [E|[E|[E|Hin']]]; try discriminate.
    exact Hin'.
  - exfalso.
    assert (E : c :: text ++ rest = BT :: BT :: BT :: tag ++ LF :: LF :: s').
    { change (c :: text ++ rest) with ((c :: text) ++ rest).
      rewrite Hs', app_assoc, (app_assoc (c :: text) w), <- HP.
      rewrite <- !app_assoc. reflexivity. }
    rewrite E, fence_blank_hit in Hc by exact Htag. discriminate.
Qed.

Lemma rw4_nofb prev s out : rw4 prev s out -> nofb s = true -> nofb out = true.
Proof.
  intros H.
  induction H as [prev|prev c s out E H IH|prev n W text rest out Hl Eh H IH];
    intros Hn.
  - reflexivity.
  - pose proof (nofb_cons _ _ Hn) as Hc.
    simpl in Hn. apply andb_prop in Hn. destruct Hn as [_ Hn].
    cbn [nofb]. rewrite (IH Hn), andb_true_r.
    destruct (fence_blank (c :: out)) as [[tag r]|] eqn:Ef; [|reflexivity].
    apply fence_blank_inv in Ef. destruct Ef as [Htag Heq].
    injection Heq as -> Heq.
    destruct (rw4_prefix _ _ _ H (BT :: BT :: tag ++ [LF; LF]) r) as [s' ->].
    + rewrite Heq. simpl. rewrite <- app_assoc. reflexivity.
    + apply pattern_no_hash. exact Htag.
    + replace (BT :: (BT :: BT :: tag ++ [LF; LF]) ++ s')
        with (BT :: BT :: BT :: tag ++ LF :: LF :: s') in Hc
        by (simpl; rewrite <- app_assoc; reflexivity).
      rewrite fence_blank_hit in Hc by exact Htag. discriminate.
  - pose proof (heading_line_some _ _ _ _ _ Eh)
      as (_ & Hnn & _ & _ & HWne & HW & Htne & Htext & Hend & _).
    replace (repeat HASH n ++ SP :: text ++ out)
      with ((repeat HASH n ++ [SP]) ++ text ++ out)
      by (rewrite <- app_assoc; reflexivity).
    apply nofb_no_bt.
    + rewrite forallb_app. apply andb_true_intro. split; [|reflexivity].
      clear. induction n; simpl; [reflexivity | exact IHn].
    + assert (Hrest : nofb (text ++ rest) = true).
      { rewrite app_assoc in Hn. exact (nofb_app_r _ _ Hn). }
      apply (rw4_nofb_text _ rest out H); try assumption.
      apply IH. exact (nofb_app_r _ _ Hrest).
Qed.

(** ** No bullet-only line *)

#[local] Arguments fence_blank : simpl never.
#[local] Arguments bullet_line : simpl never.
#[local] Arguments heading_line : simpl never.

Lemma nobl_weaken s prev prev' :
  (at_line_start prev' = true -> at_line_start prev = true) ->
  nobl prev s = true -> nobl prev' s = true.
Proof.
  intros Hp H. destruct s as [|c s]; [reflexivity|].
  cbn [nobl] in *. apply andb_prop in H. destruct H as [Hc Hs]. rewrite Hs, andb_true_r.
  destruct (at_line_start prev'); [|reflexivity].
  rewrite Hp in Hc by reflexivity. exact Hc.
Qed.

Lemma nobl_skip u : forall prev v,
  nobl prev (u ++ v) = true -> nobl (prev_at prev u (List.length u)) v = true.
Proof.
  induction u as [|c u IH]; intros prev v H; [exact H|].
  cbn [app nobl] in H. apply andb_prop in H. destruct H as [_ H].
  cbn [List.length]. rewrite prev_at_cons. exact (IH _ _ H).
Qed.

Lemma nobl_head prev c s :
  nobl prev (c :: s) = true ->
  (at_line_start prev && is_some (bullet_line (c :: s)))%bool = false.
Proof.
  cbn [nobl]. intros H. apply andb_prop in H. destruct H as [H _].
  destruct (at_line_start prev && is_some (bullet_line (c :: s)))%bool;
    [discriminate | reflexivity].
Qed.

(** Step 3 leaves alone a text without bullet-only line. *)
Lemma rw3_fixed prev s out : rw3 prev s out -> nobl prev s = true -> out = s.
Proof.
  intros H.
  induction H as [prev|prev c s out E H IH|prev indent ws rest out Hl Hin Hws Hr H IH];
    intros Hn.
  - reflexivity.
  - f_equal. apply IH. cbn [nobl] in Hn. apply andb_prop in Hn. tauto.
  - exfalso.
    assert (Hb : is_some (bullet_line (indent ++ DASH :: ws ++ LF :: rest)) = true).
    { rewrite bullet_line_canon by assumption. reflexivity. }
    destruct (indent ++ DASH :: ws ++ LF :: rest) as [|c l] eqn:E.
    + destruct indent; discriminate.
    + apply nobl_head in Hn. rewrite Hl, Hb in Hn. discriminate.
Qed.

Lemma blank_prefix_unique (a b x y : jsstring) :
  forallb is_space a = true -> forallb is_space b = true ->
  a ++ DASH :: x = b ++ DASH :: y -> a = b /\ x = y.
Proof.
  revert b. induction a as [|c a IH]; intros b Ha Hb H.
  - destruct b as [|d b]; [injection H as ->; split; reflexivity|].
    simpl in H. injection H as <- _. simpl in Hb. discriminate.
  - destruct b as [|d b].
    + simpl in H. injection H as -> _. simpl in Ha. discriminate.
    + simpl in H. injection H as -> H. simpl in Ha, Hb.
      apply andb_prop in Ha. apply andb_prop in Hb.
      destruct (IH b (proj2 Ha) (proj2 Hb) H) as [-> ->]. split; reflexivity.
Qed.

(** The marker of a bullet-only line of the output of step 3 was copied, or
    the input held a bullet-only line at the same place. *)
Lemma rw3_dash prev s out :
  rw3 prev s out ->
  forall ind T, out = ind ++ DASH :: T -> forallb is_space ind = true ->
  (exists S', s = ind ++ DASH :: S' /\ rw3 (Some DASH) S' T) \/
  (exists ws rest, s = ind ++ DASH :: ws ++ LF :: rest /\
                   forallb is_space ws = true).
Proof.
  intros H.
  induction H as [prev|prev c s out E H IH|prev indent ws rest out Hl Hin Hws Hr H IH];
    intros ind T Heq Hind.
  - destruct ind; discriminate.
  - destruct ind as [|d ind].
    + simpl in Heq. injection Heq as -> ->. left. exists s. split; [reflexivity|exact H].
    + simpl in Heq. injection Heq as <- Heq. simpl in Hind.
      apply andb_prop in Hind. destruct Hind as [_ Hind].
      destruct (IH ind T Heq Hind) as [(S' & -> & HS)|(ws & rest & -> & Hws)].
      * left. exists S'. split; [reflexivity | exact HS].
      * right. exists ws, rest. split; [reflexivity | exact Hws].
  - destruct (blank_prefix_unique _ _ _ _ Hin Hind Heq) as [-> _].
    right. exists ws, rest. split; [reflexivity | exact Hws].
Qed.

Lemma space_no_dash ws : forallb is_space ws = true -> ~ In DASH (ws ++ [LF]).
Proof.
  intros H Hin. apply in_app_or in Hin. destruct Hin as [Hin|[E|[]]];
    [|discriminate].
  rewrite forallb_forall in H. specialize (H _ Hin). discriminate.
Qed.

(** A bullet-only line at the head of the output of step 3 comes from one
    at the head of the input. *)
Lemma rw3_lookahead prev s out :
  rw3 prev s out ->
  is_some (bullet_line out) = true -> is_some (bullet_line s) = true.
Proof.
  intros H Hb. destruct (bullet_line out) as [[[ind ws] r]|] eqn:Eb; [|discriminate].
  apply bullet_line_some in Eb. destruct Eb as (Heq & Hind & Hws & Hr).
  destruct (rw3_dash _ _ _ H ind (ws ++ LF :: r) Heq Hind)
    as [(S' & -> & HS)|(ws' & rest' & -> & Hws')].
  - destruct (rw3_prefix _ _ _ HS (ws ++ [LF]) r) as [s'' ->].
    + rewrite <- app_assoc. reflexivity.
    + apply space_no_dash. exact Hws.
    + rewrite bullet_line_is_some by exact Hind.
      rewrite <- app_assoc. apply blank_run_app_lf. exact Hws.
  - rewrite bullet_line_is_some by exact Hind.
    apply blank_run_app_lf. exact Hws'.
Qed.

Lemma blank_run_dash u x y :
  forallb is_space u = true ->
  blank_run_has_lf (u ++ DASH :: x) = blank_run_has_lf (u ++ DASH :: y).
Proof.
  intros Hu. induction u as [|c u IH]; [reflexivity|].
  simpl in Hu. apply andb_prop in Hu. destruct Hu as [Hc Hu].
  simpl. rewrite Hc, (IH Hu). reflexivity.
Qed.

Lemma rw3_blank_run prev s out :
  rw3 prev s out -> blank_run_has_lf s = false -> blank_run_has_lf out = false.
Proof.
  intros H.
  induction H as [prev|prev c s out E H IH|prev indent ws rest out Hl Hin Hws Hr H IH];
    intros Hs.
  - reflexivity.
  - simpl in *. destruct (N.eqb c LF); [discriminate|].
    destruct (is_space c); [exact (IH Hs) | reflexivity].
  - rewrite (blank_run_dash indent _ (ws ++ LF :: rest)) by exact Hin. exact Hs.
Qed.

Lemma nobl_indent T : forall indent prev,
  forallb is_space indent = true ->
  blank_run_has_lf T = false ->
  nobl (Some DASH) T = true ->
  nobl prev (indent ++ DASH :: T) = true.
Proof.
  induction indent as [|c indent IH]; intros prev Hin HT Hn.
  - cbn [app nobl]. rewrite Hn, andb_true_r.
    pose proof (bullet_line_is_some [] T eq_refl) as Hb. cbn [app] in Hb.
    rewrite Hb, HT, andb_false_r. reflexivity.
  - pose proof Hin as Hin0. simpl in Hin. apply andb_prop in Hin.
    destruct Hin as [_ Hin].
    cbn [app nobl]. rewrite (IH (Some c) Hin HT Hn), andb_true_r.
    pose proof (bullet_line_is_some (c :: indent) T Hin0) as Hb. cbn [app] in Hb.
    rewrite Hb, HT, andb_false_r. reflexivity.
Qed.

(** Step 3 leaves no bullet-only line. *)
Lemma rw3_nobl prev s out : rw3 prev s out -> nobl prev out = true.
Proof.
  intros H.
  induction H as [prev|prev c s out E H IH|prev indent ws rest out Hl Hin Hws Hr H IH].
  - reflexivity.
  - cbn [nobl]. rewrite IH, andb_true_r.
    destruct (at_line_start prev) eqn:Hl; [|reflexivity].
    cbn [andb] in *.
    destruct (is_some (bullet_line (c :: out))) eqn:Eb; [|reflexivity].
    assert (Hrw : rw3 prev (c :: s) (c :: out)).
    { apply rw3_copy; [rewrite Hl; exact E | exact H]. }
    rewrite (rw3_lookahead _ _ _ Hrw Eb) in E. discriminate.
  - apply nobl_indent; [exact Hin | |].
    + simpl. exact (rw3_blank_run _ _ _ H Hr).
    + cbn [nobl at_line_start]. change (is_line_terminator DASH) with false.
      cbn [andb negb]. apply (nobl_weaken out (Some LF)); [|exact IH].
      intros _. reflexivity.
Qed.

(** *** Step 4 keeps it so *)

Lemma bullet_line_no_hash ind ws :
  forallb is_space ind = true -> forallb is_space ws = true ->
  ~ In HASH (ind ++ DASH :: ws ++ [LF]).
Proof.
  intros Hi Hw Hin. apply in_app_or in Hin. rewrite forallb_forall in Hi, Hw.
  destruct Hin as [Hin|[E|Hin]]; [specialize (Hi _ Hin); discriminate | discriminate|].
  apply in_app_or in Hin. destruct Hin as [Hin|[E|[]]];
    [specialize (Hw _ Hin); discriminate | discriminate].
Qed.

Lemma rw4_lookahead_bullet prev s out :
  rw4 prev s out ->
  is_some (bullet_line out) = true -> is_some (bullet_line s) = true.
Proof.
  intros H Hb. destruct (bullet_line out) as [[[ind ws] r]|] eqn:Eb; [|discriminate].
  apply bullet_line_some in Eb. destruct Eb as (Heq & Hind & Hws & Hr).
  destruct (rw4_prefix _ _ _ H (ind ++ DASH :: ws ++ [LF]) r) as [s' ->].
  - rewrite Heq, <- app_assoc. simpl. rewrite <- app_assoc. reflexivity.
  - apply bullet_line_no_hash; assumption.
  - rewrite <- app_assoc. cbn [app]. rewrite bullet_line_is_some by exact Hind.
    rewrite <- app_assoc. apply blank_run_app_lf. exact Hws.
Qed.

Lemma bullet_line_hash s : bullet_line (HASH :: s) = None.
Proof. reflexivity. Qed.

(** Inside a line no position starts a line. *)
Lemma nobl_inner u : forall prev v,
  u <> [] ->
  (at_line_start prev && is_some (bullet_line (u ++ v)))%bool = false ->
  forallb is_dot u = true ->
  nobl (prev_at prev u (List.length u)) v = true ->
  nobl prev (u ++ v) = true.
Proof.
  induction u as [|c u IH]; intros prev v Hne Hc Hu Hv; [contradiction|].
  simpl in Hu. apply andb_prop in Hu. destruct Hu as [Hcd Hu].
  cbn [app nobl]. cbn [app] in Hc. rewrite Hc. cbn [negb andb].
  destruct u as [|d u].
  - exact Hv.
  - apply IH; [discriminate | | exact Hu |].
    + cbn [at_line_start]. unfold is_dot in Hcd.
      destruct (is_line_terminator c); [discriminate | reflexivity].
    + cbn [List.length] in *. rewrite prev_at_cons in Hv. exact Hv.
Qed.

Lemma rw4_nobl prev s out :
  rw4 prev s out -> nobl prev s = true -> nobl prev out = true.
Proof.
  intros H.
  induction H as [prev|prev c s out E H IH|prev n W text rest out Hl Eh H IH];
    intros Hn.
  - reflexivity.
  - pose proof (nobl_head _ _ _ Hn) as Hc.
    cbn [nobl] in Hn. apply andb_prop in Hn. destruct Hn as [_ Hn].
    cbn [nobl]. rewrite (IH Hn), andb_true_r.
    destruct (at_line_start prev) eqn:Hl; [|reflexivity].
    cbn [andb] in *.
    destruct (is_some (bullet_line (c :: out))) eqn:Eb; [|reflexivity].
    assert (Hrw : rw4 prev (c :: s) (c :: out)).
    { apply rw4_copy; [rewrite Hl; exact E | exact H]. }
    rewrite (rw4_lookahead_bullet _ _ _ Hrw Eb) in Hc. discriminate.
  - pose proof (heading_line_some _ _ _ _ _ Eh)
      as (_ & Hnn & _ & _ & HWne & HW & Htne & Htext & Hend & _).
    replace (repeat HASH n ++ SP :: text ++ out)
      with ((repeat HASH n ++ SP :: text) ++ out)
      by (rewrite <- app_assoc; reflexivity).
    apply nobl_inner.
    + destruct n; [lia | discriminate].
    + destruct n as [|n]; [lia|]. cbn [repeat app].
      rewrite bullet_line_hash, andb_false_r. reflexivity.
    + rewrite forallb_app. apply andb_true_intro. split.
      * clear. induction n; simpl; [reflexivity | exact IHn].
      * cbn [forallb]. rewrite Htext. reflexivity.
    + replace (repeat HASH n ++ SP :: text) with ((repeat HASH n ++ [SP]) ++ text)
        by (rewrite <- app_assoc; reflexivity).
      rewrite (prev_at_end prev prev _ text Htne).
      apply IH.
      replace (repeat HASH n ++ W ++ text ++ rest)
        with (((repeat HASH n ++ W) ++ text) ++ rest) in Hn
        by (rewrite <- !app_assoc; reflexivity).
      apply nobl_skip in Hn.
      rewrite (prev_at_end prev prev _ text Htne) in Hn. exact Hn.
Qed.

(** ** Step 4 leaves its own output alone *)

#[local] Arguments fence_blank : simpl never.
#[local] Arguments bullet_line : simpl never.
#[local] Arguments heading_line : simpl never.

Lemma rw4_uncons pv s x o :
  rw4 pv s (x :: o) ->
  at_line_start pv = false \/ is_hash x = false ->
  exists s', s = x :: s' /\ rw4 (Some x) s' o.
Proof.
  intros H Hc.
  inversion H as [|pv0 c s0 out E H0|pv0 n W text rest out Hl Eh H0]; subst.
  - exists s0. split; [reflexivity | assumption].
  - exfalso. pose proof (heading_line_some _ _ _ _ _ Eh) as (_ & Hn & _).
    destruct n as [|n]; [lia|].
    match goal with Hx : repeat HASH (S n) ++ _ = x :: o |- _ =>
      simpl in Hx; injection Hx as <- _ end.
    destruct Hc as [Hc|Hc]; [congruence | discriminate Hc].
Qed.

Lemma rw4_head pv s x o : rw4 pv s (x :: o) -> exists s', s = x :: s'.
Proof.
  intros H.
  inversion H as [|pv0 c s0 out E H0|pv0 n W text rest out Hl Eh H0]; subst.
  - exists s0. reflexivity.
  - pose proof (heading_line_some _ _ _ _ _ Eh) as (_ & Hn & _).
    destruct n as [|n]; [lia|].
    match goal with Hx : repeat HASH (S n) ++ _ = x :: o |- _ =>
      simpl in Hx; injection Hx as <- _ end.
    eexists. reflexivity.
Qed.

(** Code units other than the marker are copies. *)
Lemma rw4_prefix_rw u : forall pv s o,
  rw4 pv s (u ++ o) ->
  forallb (fun c => negb (is_hash c)) u = true ->
  exists s', s = u ++ s' /\ rw4 (prev_at pv u (List.length u)) s' o.
Proof.
  induction u as [|c u IH]; intros pv s o H Hu.
  - exists s. split; [reflexivity | exact H].
  - simpl in Hu. apply andb_prop in Hu. destruct Hu as [Hc Hu].
    destruct (rw4_uncons pv s c (u ++ o) H) as (s1 & -> & H1).
    { right. destruct (is_hash c); [discriminate | reflexivity]. }
    destruct (IH _ _ _ H1 Hu) as (s' & -> & H').
    exists s'. split; [reflexivity|]. cbn [List.length]. rewrite prev_at_cons.
    exact H'.
Qed.

(** Markers that do not start a line are copies. *)
Lemma rw4_hashes k : forall pv s o,
  rw4 pv s (repeat HASH k ++ o) -> at_line_start pv = false ->
  exists s' pv', s = repeat HASH k ++ s' /\ rw4 pv' s' o.
Proof.
  induction k as [|k IH]; intros pv s o H Hpv.
  - exists s, pv. split; [reflexivity | exact H].
  - cbn [repeat app] in H.
    destruct (rw4_uncons pv s HASH _ H (or_introl Hpv)) as (s1 & -> & H1).
    destruct (IH _ _ _ H1 eq_refl) as (s' & pv' & -> & H').
    exists s', pv'. split; [reflexivity | exact H'].
Qed.

Lemma space_is_not_hash W :
  forallb is_space W = true -> forallb (fun c => negb (is_hash c)) W = true.
Proof.
  intros H. rewrite forallb_forall in *. intros c Hc.
  rewrite (space_not_hash c (H c Hc)). reflexivity.
Qed.

Lemma heading_split_is_some W t0 x :
  forallb is_space W = true -> W <> [] -> is_dot t0 = true ->
  is_some (heading_split (W ++ t0 :: x)) = true.
Proof.
  intros HW Hne Ht. induction W as [|c W IH]; [contradiction|].
  simpl in HW. apply andb_prop in HW. destruct HW as [Hc HW].
  cbn [app heading_split]. rewrite Hc.
  destruct (heading_split (W ++ t0 :: x)) as [[W' r]|] eqn:E; [reflexivity|].
  destruct W as [|d W].
  - cbn [app]. rewrite Ht. reflexivity.
  - assert (Hne' : d :: W <> []) by discriminate.
    specialize (IH HW Hne'). discriminate IH.
Qed.

Lemma heading_line_is_some n W t0 x :
  1 <= n <= 6 -> forallb is_space W = true -> W <> [] -> is_dot t0 = true ->
  is_some (heading_line (repeat HASH n ++ W ++ t0 :: x)) = true.
Proof.
  intros Hn HW Hne Ht. unfold heading_line.
  assert (Hp : prefix_len is_hash (repeat HASH n ++ W ++ t0 :: x) = n).
  { rewrite prefix_len_repeat by reflexivity.
    destruct W as [|w W]; [contradiction|]. simpl in HW.
    apply andb_prop in HW. destruct HW as [Hw _].
    cbn [app prefix_len]. rewrite (space_not_hash w Hw). lia. }
  rewrite Hp.
  destruct (Nat.leb_spec 1 n); [|lia]. destruct (Nat.leb_spec n 6); [|lia].
  cbn [andb]. rewrite <- (repeat_length HASH n) at 1. rewrite skipn_app_exact.
  pose proof (heading_split_is_some W t0 x HW Hne Ht) as Hs.
  destruct (heading_split (W ++ t0 :: x)) as [[? ?]|]; [reflexivity | discriminate].
Qed.

(** A heading line at the head of the output of step 4 comes from one at
    the head of the input. *)
Lemma rw4_lookahead c s out :
  rw4 (Some c) s out ->
  is_some (heading_line (c :: out)) = true ->
  is_some (heading_line (c :: s)) = true.
Proof.
  intros H Hh.
  destruct (heading_line (c :: out)) as [[[[n W] text] rest]|] eqn:Eh;
    [|discriminate].
  pose proof (heading_line_some _ _ _ _ _ Eh)
    as (Heq & Hn & _ & _ & HWne & HW & Htne & Htext & Hend & _).
  destruct n as [|n]; [lia|]. cbn [repeat app] in Heq. injection Heq as -> Heq.
  rewrite Heq in H.
  destruct (rw4_hashes n _ _ _ H eq_refl) as (s1 & pv1 & -> & H1).
  destruct (rw4_prefix_rw W _ _ _ H1 (space_is_not_hash W HW)) as (s2 & -> & H2).
  destruct text as [|t0 text]; [contradiction|].
  destruct (rw4_head _ _ _ _ H2) as [s3 ->].
  change (HASH :: repeat HASH n ++ W ++ t0 :: s3)
    with (repeat HASH (S n) ++ W ++ t0 :: s3).
  apply heading_line_is_some; try assumption.
  simpl in Htext. apply andb_prop in Htext. tauto.
Qed.

Lemma heading_split_exact W x :
  heading_split (W ++ x) = Some (W, x) -> heading_split x = None.
Proof.
  induction W as [|c W IH]; intros H.
  - apply heading_split_some in H. destruct H as (_ & Hne & _). contradiction.
  - cbn [app heading_split] in H. destruct (is_space c); [|discriminate].
    destruct (heading_split (W ++ x)) as [[W' r]|] eqn:E.
    + injection H as -> ->. exact (IH eq_refl).
    + destruct (W ++ x) as [|d l] eqn:El; [discriminate|].
      destruct (is_dot d); [|discriminate]. injection H as HW Hx.
      destruct W; [|discriminate]. simpl in El. rewrite El. exact E.
Qed.

Lemma not_space_is_dot c : is_space c = false -> is_dot c = true.
Proof.
  intros H. unfold is_dot, is_line_terminator.
  destruct (N.eqb_spec c 10) as [E|]; [rewrite E in H; discriminate H|].
  destruct (N.eqb_spec c 13) as [E|]; [rewrite E in H; discriminate H|].
  destruct (N.eqb_spec c 8232) as [E|]; [rewrite E in H; discriminate H|].
  destruct (N.eqb_spec c 8233) as [E|]; [rewrite E in H; discriminate H|].
  reflexivity.
Qed.

Lemma drop_while_nil p (s : jsstring) :
  drop_while p s = [] -> forallb p s = true.
Proof.
  induction s as [|c s IH]; simpl; [reflexivity|].
  destruct (p c); [exact IH | discriminate].
Qed.

(** A text that begins with a blank and gives the heading pattern no text
    consists of blanks. *)
Lemma heading_split_none_blank X :
  heading_split X = None ->
  match X with c :: _ => is_space c = true | [] => True end ->
  forallb is_space X = true.
Proof.
  intros Hs Hh. destruct X as [|c X]; [reflexivity|].
  pose proof (heading_split_none _ Hs (prefix_len is_space (c :: X))) as Hn.
  rewrite skipn_prefix_len in Hn.
  pose proof (drop_while_head is_space (c :: X)) as Hd.
  destruct (drop_while is_space (c :: X)) as [|d l] eqn:E.
  - apply drop_while_nil. exact E.
  - rewrite (not_space_is_dot d Hd) in Hn.
    assert (1 <= prefix_len is_space (c :: X)) by (simpl; rewrite Hh; lia).
    specialize (Hn (conj H (le_n _))). discriminate.
Qed.

Lemma rw4_no_hash pv s out :
  rw4 pv s out -> forallb (fun c => negb (is_hash c)) s = true -> out = s.
Proof.
  intros H.
  induction H as [prev|prev c s out E H IH|prev n W text rest out Hl Eh H IH];
    intros Hs.
  - reflexivity.
  - simpl in Hs. apply andb_prop in Hs. f_equal. apply IH. tauto.
  - pose proof (heading_line_some _ _ _ _ _ Eh) as (_ & Hn & _).
    destruct n as [|n]; [lia|]. simpl in Hs. discriminate.
Qed.

Lemma rw4_line_end pv rest out :
  rw4 pv rest out -> at_line_end rest = true -> at_line_end out = true.
Proof.
  intros H Hr.
  destruct H as [prev|prev c s out E H|prev n W text rest out Hl Eh H].
  - reflexivity.
  - exact Hr.
  - pose proof (heading_line_some _ _ _ _ _ Eh) as (_ & Hn & _).
    destruct n as [|n]; [lia|]. discriminate Hr.
Qed.

(** A heading line once rewritten is the heading line with one space. *)
Lemma heading_line_normal pv n W text rest out :
  heading_line (repeat HASH n ++ W ++ text ++ rest) = Some (n, W, text, rest) ->
  rw4 pv rest out ->
  heading_line (repeat HASH n ++ [SP] ++ text ++ out) = Some (n, [SP], text, out).
Proof.
  intros Eh H.
  pose proof (heading_line_some _ _ _ _ _ Eh)
    as (_ & Hn & _ & Hsp & HWne & HW & Htne & Htext & Hend & _).
  pose proof (heading_split_exact _ _ Hsp) as Hnone.
  destruct text as [|t0 text]; [contradiction|].
  assert (Ht0 : is_dot t0 = true)
    by (simpl in Htext; apply andb_prop in Htext; tauto).
  (* the text still gives no longer run of blanks *)
  assert (Hnone' : heading_split ((t0 :: text) ++ out) = None).
  { destruct (is_space t0) eqn:Es.
    - pose proof (heading_split_none_blank _ Hnone Es) as Hall.
      rewrite forallb_app in Hall. apply andb_prop in Hall.
      destruct Hall as [_ Hrest].
      rewrite (rw4_no_hash _ _ _ H (space_is_not_hash rest Hrest)). exact Hnone.
    - cbn [app heading_split]. rewrite Es. reflexivity. }
  unfold heading_line.
  assert (Hp : prefix_len is_hash (repeat HASH n ++ [SP] ++ (t0 :: text) ++ out) = n).
  { rewrite prefix_len_repeat by reflexivity. simpl. lia. }
  rewrite Hp.
  destruct (Nat.leb_spec 1 n); [|lia]. destruct (Nat.leb_spec n 6); [|lia].
  cbn [andb]. rewrite <- (repeat_length HASH n) at 1. rewrite skipn_app_exact.
  cbn [app heading_split] in *. change (is_space SP) with true. cbv iota.
  rewrite Hnone', Ht0.
  pose proof (rw4_line_end _ _ _ H Hend) as Hend'.
  assert (Hstop : match out with c :: _ => is_dot c = false | [] => True end).
  { destruct out as [|c l]; [exact I|]. simpl in Hend'. unfold is_dot.
    rewrite Hend'. reflexivity. }
  destruct (take_while_app_stop is_dot (t0 :: text) out Htext Hstop) as [Htw Hdw].
  cbn [app] in Htw, Hdw. rewrite Htw, Hdw. reflexivity.
Qed.

(** The output of step 4 is related to itself. *)
Lemma rw4_stable prev s out : rw4 prev s out -> rw4 prev out out.
Proof.
  intros H.
  induction H as [prev|prev c s out E H IH|prev n W text rest out Hl Eh H IH].
  - constructor.
  - apply rw4_copy; [|exact IH].
    destruct (at_line_start prev); [|reflexivity]. cbn [andb] in *.
    destruct (is_some (heading_line (c :: out))) eqn:Eo; [|reflexivity].
    rewrite (rw4_lookahead c s out H Eo) in E. discriminate.
  - pose proof (heading_line_normal _ _ _ _ _ _ Eh H) as Eh'.
    exact (rw4_hit prev n [SP] text out out Hl Eh' IH).
Qed.

(** ** The four rewritings together *)

#[local] Arguments fence_blank : simpl never.
#[local] Arguments bullet_line : simpl never.
#[local] Arguments heading_line : simpl never.

(** What the rewritings produce is settled. *)
Lemma rewrite_all_settled s : settled (rewrite_all s).
Proof.
  unfold rewrite_all.
  pose proof (rw1_scan s None) as H1. fold (step1 s) in H1.
  change (step1_at None s) with (step1 s) in H1.
  pose proof (rw2_scan (step1 s) None) as H2.
  change (step2_at None (step1 s)) with (step2 (step1 s)) in H2.
  pose proof (rw3_scan (step2 (step1 s)) None) as H3.
  change (step3_at None (step2 (step1 s))) with (step3 (step2 (step1 s))) in H3.
  pose proof (rw4_scan (step3 (step2 (step1 s))) None) as H4.
  change (step4_at None (step3 (step2 (step1 s))))
    with (step4 (step3 (step2 (step1 s)))) in H4.
  pose proof (rw1_no3 _ _ H1 0 (or_introl eq_refl)) as N1.
  pose proof (rw2_no3 _ _ H2 0 N1) as N12.
  pose proof (rw2_nofb _ _ H2 0 N1) as N2.
  pose proof (rw3_no3 _ _ _ H3 0 N12) as N13.
  pose proof (rw3_nofb _ _ _ H3 N2) as N23.
  pose proof (rw3_nobl _ _ _ H3) as N3.
  repeat split.
  - exact (rw4_no3 _ _ _ H4 0 N13).
  - exact (rw4_nofb _ _ _ H4 N23).
  - exact (rw4_nobl _ _ _ H4 N3).
  - exact (rw4_stable _ _ _ H4).
Qed.

(** A settled text is left alone by the rewritings. *)
Lemma settled_fixed s : settled s -> rewrite_all s = s.
Proof.
  intros (N1 & N2 & N3 & F4). unfold rewrite_all.
  assert (E1 : step1 s = s).
  { apply (rw1_fixed s (step1 s) (rw1_scan s None) 0 N1). }
  rewrite E1.
  assert (E2 : step2 s = s).
  { apply (rw2_fixed s (step2 s) (rw2_scan s None) N2). }
  rewrite E2.
  assert (E3 : step3 s = s).
  { apply (rw3_fixed None s (step3 s) (rw3_scan s None) N3). }
  rewrite E3.
  exact (rw4_fun None s s F4).
Qed.

(** ** Trimming a settled text *)

#[local] Arguments fence_blank : simpl never.
#[local] Arguments bullet_line : simpl never.
#[local] Arguments heading_line : simpl never.

(** *** The head of the text survives the rewritings *)

Lemma rw1_lead s out : rw1 s out -> no_lead s -> no_lead out.
Proof.
  intros H Hs. destruct H as [|c s out Hlt H|n rest out Hn Hrest H].
  - exact I.
  - exact Hs.
  - destruct n as [|n]; [lia|]. discriminate Hs.
Qed.

Lemma rw2_lead s out : rw2 s out -> no_lead s -> no_lead out.
Proof.
  intros H Hs. destruct H as [|c s out Hf H|tag rest out Htag H];
    [exact I | exact Hs | reflexivity].
Qed.

Lemma rw3_lead prev s out : rw3 prev s out -> no_lead s -> no_lead out.
Proof.
  intros H Hs.
  destruct H as [prev|prev c s out E H|prev indent ws rest out Hl Hin Hws Hr H].
  - exact I.
  - exact Hs.
  - destruct indent as [|c indent]; [reflexivity|].
    simpl in Hin, Hs. rewrite Hs in Hin. discriminate.
Qed.

Lemma rw4_lead prev s out : rw4 prev s out -> no_lead s -> no_lead out.
Proof.
  intros H Hs.
  destruct H as [prev|prev c s out E H|prev n W text rest out Hl Eh H].
  - exact I.
  - exact Hs.
  - pose proof (heading_line_some _ _ _ _ _ Eh) as (_ & Hn & _).
    destruct n as [|n]; [lia | reflexivity].
Qed.

Lemma rewrite_all_lead s : no_lead s -> no_lead (rewrite_all s).
Proof.
  intros Hs. unfold rewrite_all.
  apply (rw4_lead None _ _ (rw4_scan _ None)).
  apply (rw3_lead None _ _ (rw3_scan _ None)).
  apply (rw2_lead _ _ (rw2_scan _ None)).
  apply (rw1_lead _ _ (rw1_scan _ None)). exact Hs.
Qed.

(** *** Trimming at the end *)

Lemma rtrim_split s :
  exists tr, s = rtrim s ++ tr /\ forallb is_space tr = true.
Proof.
  exists (rev (Path.take_while is_space (rev s))). split.
  - unfold rtrim. rewrite <- rev_app_distr, take_drop_while, rev_involutive.
    reflexivity.
  - pose proof (take_while_all is_space (rev s)) as H.
    rewrite forallb_forall in *. intros c Hc. apply H. apply in_rev. exact Hc.
Qed.

Lemma rtrim_ends_well s : ends_well (rtrim s).
Proof.
  unfold ends_well, rtrim. rewrite rev_involutive. apply drop_while_head.
Qed.

Lemma trim_rtrim s : no_lead s -> trim s = rtrim s.
Proof. intros H. unfold rtrim. apply trim_no_lead. exact H. Qed.

Lemma ends_well_tail c a : ends_well (c :: a) -> ends_well a.
Proof.
  unfold ends_well. cbn [rev]. destruct (rev a) as [|d l]; [intros _; exact I|].
  intros H. exact H.
Qed.

Lemma ends_well_app_r u l : ends_well (u ++ l) -> ends_well l.
Proof.
  induction u as [|c u IH]; intros H; [exact H|].
  apply IH. exact (ends_well_tail c _ H).
Qed.

Lemma ends_well_blank u v :
  ends_well (u ++ v) -> v <> [] -> forallb is_space v = true -> False.
Proof.
  intros H Hne Hv. apply ends_well_app_r in H.
  unfold ends_well in H. destruct v as [|c v] using rev_ind; [contradiction|].
  rewrite rev_app_distr in H. cbn [rev app] in H.
  rewrite forallb_app in Hv. apply andb_prop in Hv. destruct Hv as [_ Hc].
  simpl in Hc. rewrite H in Hc. discriminate.
Qed.

(** *** The parts of "settled" pass to a text cut at its end *)

Lemma nofb_app_l a b : nofb (a ++ b) = true -> nofb a = true.
Proof.
  induction a as [|c a IH]; intros H; [reflexivity|].
  cbn [app] in H. pose proof (nofb_cons _ _ H) as Hc.
  cbn [nofb] in *. apply andb_prop in H. destruct H as [_ H].
  rewrite (IH H), andb_true_r.
  destruct (fence_blank (c :: a)) as [[tag r]|] eqn:E; [|reflexivity].
  apply fence_blank_inv in E. destruct E as [Htag Heq].
  change (c :: a ++ b) with ((c :: a) ++ b) in Hc. rewrite Heq in Hc.
  replace ((BT :: BT :: BT :: tag ++ LF :: LF :: r) ++ b)
    with (BT :: BT :: BT :: tag ++ LF :: LF :: r ++ b) in Hc
    by (simpl; rewrite <- app_assoc; reflexivity).
  rewrite fence_blank_hit in Hc by exact Htag. discriminate.
Qed.

Lemma bullet_line_extend a b :
  is_some (bullet_line a) = true -> is_some (bullet_line (a ++ b)) = true.
Proof.
  intros H. destruct (bullet_line a) as [[[ind ws] r]|] eqn:E; [|discriminate].
  apply bullet_line_some in E. destruct E as (-> & Hind & Hws & _).
  rewrite <- app_assoc. cbn [app]. rewrite bullet_line_is_some by exact Hind.
  rewrite <- app_assoc. apply blank_run_app_lf. exact Hws.
Qed.

Lemma nobl_app_l a : forall prev b, nobl prev (a ++ b) = true -> nobl prev a = true.
Proof.
  induction a as [|c a IH]; intros prev b H; [reflexivity|].
  cbn [app] in H. pose proof (nobl_head _ _ _ H) as Hc.
  cbn [nobl] in *. apply andb_prop in H. destruct H as [_ H].
  rewrite (IH _ _ H), andb_true_r.
  destruct (at_line_start prev); [|reflexivity]. cbn [andb] in *.
  destruct (is_some (bullet_line (c :: a))) eqn:E; [|reflexivity].
  change (c :: a ++ b) with ((c :: a) ++ b) in Hc.
  rewrite (bullet_line_extend _ b E) in Hc. discriminate.
Qed.

Lemma heading_line_extend a b :
  is_some (heading_line a) = true -> is_some (heading_line (a ++ b)) = true.
Proof.
  intros H. destruct (heading_line a) as [[[[n W] text] rest]|] eqn:E;
    [|discriminate].
  pose proof (heading_line_some _ _ _ _ _ E)
    as (-> & Hn & _ & _ & HWne & HW & Htne & Htext & _).
  destruct text as [|t0 text]; [contradiction|].
  rewrite <- !app_assoc. cbn [app].
  apply heading_line_is_some; try assumption.
  simpl in Htext. apply andb_prop in Htext. tauto.
Qed.

Lemma rw4_length pv s out : rw4 pv s out -> List.length out <= List.length s.
Proof.
  intros H.
  induction H as [prev|prev c s out E H IH|prev n W text rest out Hl Eh H IH].
  - reflexivity.
  - simpl. lia.
  - pose proof (heading_line_some _ _ _ _ _ Eh) as (_ & _ & _ & _ & HWne & _).
    rewrite !length_app. cbn [List.length]. rewrite !length_app.
    destruct W; [contradiction | simpl; lia].
Qed.

(** A heading line that its rewriting leaves as it is had one space. *)
Lemma rw4_self_hit pv n W text rest out :
  heading_line (repeat HASH n ++ W ++ text ++ rest) = Some (n, W, text, rest) ->
  rw4 pv rest out ->
  repeat HASH n ++ SP :: text ++ out = repeat HASH n ++ W ++ text ++ rest ->
  W = [SP] /\ out = rest.
Proof.
  intros Eh H Heq.
  pose proof (heading_line_some _ _ _ _ _ Eh) as (_ & _ & _ & _ & HWne & _).
  apply app_inv_head in Heq. destruct W as [|w W]; [contradiction|].
  cbn [app] in Heq. injection Heq as <- Heq.
  pose proof (rw4_length _ _ _ H) as Hlen.
  assert (HW : W = []).
  { apply (f_equal (@List.length char)) in Heq. rewrite !length_app in Heq.
    destruct W; [reflexivity | simpl in Heq; lia]. }
  subst W. cbn [app] in Heq. apply app_inv_head in Heq. split; [reflexivity|exact Heq].
Qed.

Lemma heading_line_hashes k : heading_line (repeat HASH k) = None.
Proof.
  unfold heading_line.
  assert (Hp : prefix_len is_hash (repeat HASH k) = k).
  { pose proof (prefix_len_repeat is_hash HASH k [] eq_refl) as H.
    rewrite app_nil_r in H. simpl in H. lia. }
  rewrite Hp. destruct (Nat.leb 1 k && Nat.leb k 6)%bool; [|reflexivity].
  rewrite <- (repeat_length HASH k) at 1. rewrite skipn_all. reflexivity.
Qed.

Lemma rw4_hashes_only k : forall pv, rw4 pv (repeat HASH k) (repeat HASH k).
Proof.
  induction k as [|k IH]; intros pv; [constructor|].
  cbn [repeat]. apply rw4_copy; [|apply IH].
  change (HASH :: repeat HASH k) with (repeat HASH (S k)).
  rewrite heading_line_hashes, andb_false_r. reflexivity.
Qed.

(** The heading line with one space and a text that begins with something
    else than a blank. *)
Lemma heading_line_build n t0 text l :
  1 <= n <= 6 -> is_space t0 = false ->
  forallb is_dot (t0 :: text) = true -> at_line_end l = true ->
  heading_line (repeat HASH n ++ [SP] ++ (t0 :: text) ++ l) =
  Some (n, [SP], t0 :: text, l).
Proof.
  intros Hn Ht0 Htext Hl. unfold heading_line.
  assert (Hp : prefix_len is_hash (repeat HASH n ++ [SP] ++ (t0 :: text) ++ l) = n).
  { rewrite prefix_len_repeat by reflexivity. simpl. lia. }
  rewrite Hp.
  destruct (Nat.leb_spec 1 n); [|lia]. destruct (Nat.leb_spec n 6); [|lia].
  cbn [andb]. rewrite <- (repeat_length HASH n) at 1. rewrite skipn_app_exact.
  cbn [app heading_split]. change (is_space SP) with true. cbv iota.
  rewrite Ht0.
  assert (Hd : is_dot t0 = true) by (simpl in Htext; apply andb_prop in Htext; tauto).
  rewrite Hd.
  assert (Hstop : match l with c :: _ => is_dot c = false | [] => True end).
  { destruct l as [|c l']; [exact I|]. simpl in Hl. unfold is_dot.
    rewrite Hl. reflexivity. }
  destruct (take_while_app_stop is_dot (t0 :: text) l Htext Hstop) as [Htw Hdw].
  cbn [app] in Htw, Hdw. rewrite Htw, Hdw. reflexivity.
Qed.

Lemma forallb_dot_app_l (u v : jsstring) :
  forallb is_dot (u ++ v) = true -> forallb is_dot u = true.
Proof. rewrite forallb_app. intros H. apply andb_prop in H. tauto. Qed.

(** A text that step 4 leaves alone is still left alone once the blanks at
    its end are cut. *)
Lemma rw4_self_prefix prev x o :
  rw4 prev x o -> o = x ->
  forall a b, x = a ++ b -> forallb is_space b = true -> ends_well a ->
  rw4 prev a a.
Proof.
  intros H.
  induction H as [prev|prev c s out E H IH|prev n W text rest out Hl Eh H IH];
    intros Ho a b Hx Hb Ha.
  - destruct a; [constructor | discriminate].
  - injection Ho as Ho. destruct a as [|c' a]; [constructor|].
    cbn [app] in Hx. injection Hx as <- Hx.
    apply rw4_copy.
    + destruct (at_line_start prev); [|reflexivity]. cbn [andb] in *.
      destruct (is_some (heading_line (c :: a))) eqn:Ea; [|reflexivity].
      pose proof (heading_line_extend _ b Ea) as Ex. cbn [app] in Ex.
      rewrite <- Hx, E in Ex. discriminate.
    + apply (IH Ho a b Hx Hb). exact (ends_well_tail _ _ Ha).
  - destruct (rw4_self_hit _ _ _ _ _ _ Eh H Ho) as [-> ->].
    pose proof (heading_line_some _ _ _ _ _ Eh)
      as (_ & Hn & _ & Hsp & _ & _ & Htne & Htext & Hend & _).
    pose proof (heading_split_exact _ _ Hsp) as Hnone.
    destruct text as [|t0 text]; [contradiction|].
    (* a text that begins with a blank is blank to the end *)
    assert (Hblank : is_space t0 = true ->
                     forallb is_space ((t0 :: text) ++ rest) = true).
    { intros Hs. apply heading_split_none_blank; assumption. }
    replace (repeat HASH n ++ [SP] ++ (t0 :: text) ++ rest)
      with ((repeat HASH n ++ [SP] ++ (t0 :: text)) ++ rest) in Hx
      by (rewrite <- !app_assoc; reflexivity).
    destruct (app_eq_app _ _ _ _ Hx) as [l [[HP Hbl]|[Ha' Hr]]].
    + (* the cut falls inside the heading line *)
      destruct l as [|l0 l].
      * (* ... at its end *)
        rewrite app_nil_r in HP. subst a. cbn [app] in Hbl. subst b.
        destruct (is_space t0) eqn:Es.
        { exfalso. specialize (Hblank eq_refl).
          rewrite forallb_app in Hblank. apply andb_prop in Hblank.
          apply (ends_well_blank (repeat HASH n ++ [SP]) (t0 :: text)).
          - rewrite <- app_assoc. exact Ha.
          - discriminate.
          - tauto. }
        replace (repeat HASH n ++ [SP] ++ t0 :: text)
          with (repeat HASH n ++ [SP] ++ (t0 :: text) ++ [])
          by (rewrite app_nil_r; reflexivity).
        apply (rw4_hit prev n [SP] (t0 :: text) [] [] Hl).
        -- apply heading_line_build; try assumption. reflexivity.
        -- constructor.
      * assert (Hl0 : forallb is_space (l0 :: l) = true).
        { rewrite Hbl, forallb_app in Hb. apply andb_prop in Hb. tauto. }
        destruct (app_eq_app _ _ _ _ HP) as [l2 [[Hh Hl2]|[Ha2 Hl2]]].
        -- (* the cut falls among the markers *)
           assert (l2 = []).
           { destruct l2 as [|c2 l2]; [reflexivity|]. exfalso.
             rewrite Hl2 in Hl0. simpl in Hl0. apply andb_prop in Hl0.
             destruct Hl0 as [Hc2 _].
             assert (Hin : In c2 (repeat HASH n)).
             { rewrite Hh. apply in_or_app. right. left. reflexivity. }
             apply repeat_spec in Hin. subst c2. discriminate Hc2. }
           subst l2. rewrite app_nil_r in Hh. subst a. apply rw4_hashes_only.
        -- (* the cut falls after the markers *)
           destruct l2 as [|c2 l2].
           ++ rewrite app_nil_r in Ha2. subst a. apply rw4_hashes_only.
           ++ cbn [app] in Hl2. injection Hl2 as <- Hl2.
              destruct l2 as [|c3 l2].
              ** exfalso. subst a.
                 apply (ends_well_blank (repeat HASH n) [SP] Ha);
                   [discriminate | reflexivity].
              ** subst a.
                 assert (Hdot : forallb is_dot (c3 :: l2) = true).
                 { rewrite Hl2 in Htext. exact (forallb_dot_app_l _ _ Htext). }
                 cbn [app] in Hl2. injection Hl2 as <- Hl2.
                 destruct (is_space t0) eqn:Es.
                 { exfalso. specialize (Hblank eq_refl).
                   rewrite forallb_app in Hblank. apply andb_prop in Hblank.
                   destruct Hblank as [Hbt _]. cbn [forallb] in Hbt.
                   apply andb_prop in Hbt. destruct Hbt as [_ Hbt].
                   rewrite Hl2, forallb_app in Hbt. apply andb_prop in Hbt.
                   apply (ends_well_blank (repeat HASH n ++ [SP]) (t0 :: l2)).
                   - rewrite <- app_assoc. exact Ha.
                   - discriminate.
                   - simpl. rewrite Es. tauto. }
                 replace (repeat HASH n ++ SP :: t0 :: l2)
                   with (repeat HASH n ++ [SP] ++ (t0 :: l2) ++ [])
                   by (rewrite app_nil_r; reflexivity).
                 apply (rw4_hit prev n [SP] (t0 :: l2) [] [] Hl).
                 --- apply heading_line_build; try assumption. reflexivity.
                 --- constructor.
    + (* the cut falls after the heading line *)
      subst a.
      assert (Hwell : ends_well l) by exact (ends_well_app_r _ _ Ha).
      destruct (is_space t0) eqn:Es.
      { exfalso. specialize (Hblank eq_refl).
        rewrite Hr in Hblank. rewrite app_assoc, forallb_app in Hblank.
        apply andb_prop in Hblank. destruct Hblank as [Hbt _].
        apply (ends_well_blank (repeat HASH n ++ [SP]) ((t0 :: text) ++ l)).
        - rewrite <- !app_assoc in *. exact Ha.
        - discriminate.
        - exact Hbt. }
      assert (Hend' : at_line_end l = true).
      { destruct l as [|c l']; [reflexivity|]. rewrite Hr in Hend. exact Hend. }
      replace ((repeat HASH n ++ [SP] ++ t0 :: text) ++ l)
        with (repeat HASH n ++ [SP] ++ (t0 :: text) ++ l)
        by (rewrite <- !app_assoc; reflexivity).
      apply (rw4_hit prev n [SP] (t0 :: text) l l Hl).
      * apply heading_line_build; assumption.
      * exact (IH eq_refl l b Hr Hb Hwell).
Qed.

Lemma settled_rtrim t : settled t -> settled (rtrim t).
Proof.
  intros (N1 & N2 & N3 & F4).
  destruct (rtrim_split t) as (tr & Et & Htr).
  pose proof (rtrim_ends_well t) as Hw.
  rewrite Et in N1, N2, N3. repeat split.
  - exact (no3_app_l _ _ _ N1).
  - exact (nofb_app_l _ _ N2).
  - exact (nobl_app_l _ _ _ N3).
  - exact (rw4_self_prefix None t t F4 eq_refl (rtrim t) tr Et Htr Hw).
Qed.

(** A settled text that does not begin with a blank, once trimmed, is left
    as it is by the whole post-processor. *)
Lemma trim_settled_fixed t :
  settled t -> no_lead t -> postProcessForMdx (trim t) = trim t.
Proof.
  intros Hset Hl. rewrite (trim_rtrim _ Hl).
  change (postProcessForMdx (rtrim t)) with (trim (rewrite_all (rtrim t))).
  rewrite (settled_fixed _ (settled_rtrim _ Hset)).
  rewrite <- (trim_rtrim _ Hl). apply trim_idem.
Qed.

Lemma trim_lead s : no_lead (trim s).
Proof. exact (trim_head s). Qed.


(** ** Lines *)

Lemma forallb_not_in d (s : jsstring) :
  forallb (fun c => negb (N.eqb c d)) s = true -> ~ In d s.
Proof.
  induction s as [|c s IH]; intros H Hin; [exact Hin|].
  cbn [forallb] in H. apply andb_prop in H. destruct H as [Hc Hs].
  destruct Hin as [->|Hin]; [|exact (IH Hs Hin)].
  rewrite N.eqb_refl in Hc. discriminate.
Qed.

(** A line without line feed, followed by a line feed, is the first line. *)
Lemma split_lf_line l : forall acc s,
  ~ In LF l -> split_lf acc (l ++ LF :: s) = (rev acc ++ l) :: split_lf [] s.
Proof.
  induction l as [|c l IH]; intros acc s H.
  - cbn [app split_lf]. rewrite N.eqb_refl, app_nil_r. reflexivity.
  - cbn [app split_lf]. destruct (N.eqb_spec c LF) as [E|_].
    + exfalso. apply H. left. exact E.
    + rewrite IH by (intros Hin; apply H; right; exact Hin).
      cbn [rev]. rewrite <- app_assoc. reflexivity.
Qed.

Lemma lines_line l s : ~ In LF l -> lines (l ++ LF :: s) = l :: lines s.
Proof. intros H. unfold lines. rewrite split_lf_line by exact H. reflexivity. Qed.

Lemma split_lf_head s : forall acc, exists l tl, split_lf acc s = (rev acc ++ l) :: tl.
Proof.
  induction s as [|c s IH]; intros acc.
  - exists [], []. cbn [split_lf]. rewrite app_nil_r. reflexivity.
  - cbn [split_lf]. destruct (N.eqb c LF).
    + exists [], (split_lf [] s). rewrite app_nil_r. reflexivity.
    + destruct (IH (c :: acc)) as (l & tl & E). exists (c :: l), tl.
      rewrite E. cbn [rev]. rewrite <- app_assoc. reflexivity.
Qed.

(** The first line of a text that begins with another code unit than the
    line feed is not empty. *)
Lemma lines_first_not_empty c s : N.eqb c LF = false -> hd [] (lines (c :: s)) <> [].
Proof.
  intros H. unfold lines.
  assert (E0 : split_lf [] (c :: s) = split_lf [c] s)
    by (cbn [split_lf]; rewrite H; reflexivity).
  rewrite E0. destruct (split_lf_head s [c]) as (l & tl & E). rewrite E.
  discriminate.
Qed.

Lemma not_in_app (d : char) (u v : jsstring) : ~ In d u -> ~ In d v -> ~ In d (u ++ v).
Proof. intros Hu Hv Hin. apply in_app_or in Hin. tauto. Qed.

Lemma not_in_cons (d c : char) (v : jsstring) : c <> d -> ~ In d v -> ~ In d (c :: v).
Proof. intros Hc Hv [E|Hin]; [exact (Hc E) | exact (Hv Hin)]. Qed.

Lemma space_not_lf_head c : is_space c = false -> N.eqb c LF = false.
Proof.
  intros H. destruct (N.eqb_spec c LF) as [->|]; [|reflexivity].
  discriminate H.
Qed.

(** * The claims about the orchestrator, the composer and the image rule *)

(** C5 fails as stated: a body that begins with a line feed is preceded by
    two empty lines, and a base name that holds a line of three dashes
    puts a delimiter line before the description. *)
Lemma frontmatter_blank_lines_not_one :
  lines (addMdxFrontmatter (str "2024-05-06T07:08:09.000Z") (LF :: str "x")
           (str "a.docx"))
  = [str "---";
     str "title: " ++ DQ :: str "a" ++ [DQ];
     str "description: " ++ DQ :: str "Converted from DOCX file" ++ [DQ];
     str "date: " ++ DQ :: str "2024-05-06" ++ [DQ];
     str "---"; []; []; str "x"]
  /\ lines (addMdxFrontmatter (str "2024-05-06T07:08:09.000Z") (str "x")
              (str "a" ++ LF :: str "---" ++ LF :: str "b.docx"))
     = [str "---";
        str "title: " ++ DQ :: str "a";
        str "---";
        str "b" ++ [DQ];
        str "description: " ++ DQ :: str "Converted from DOCX file" ++ [DQ];
        str "date: " ++ DQ :: str "2024-05-06" ++ [DQ];
        str "---"; []; str "x"].
Proof. split; vm_compute; reflexivity. Qed.

(** C5, amended: for a body that is not empty and does not begin with a
    line feed, a base name without line feed and a date without line feed,
    the lines of the composer's output are: the line [---], the title, the
    description and the date, each on one line, the line [---], one empty
    line, and then the lines of the body, the first of which is not empty;
    the body closes the output unchanged.  A body that the post-processor
    hands over never begins with a line feed. *)
Theorem frontmatter_lines now content originalPath :
  ~ In LF (Path.basename originalPath (Path.extname originalPath)) ->
  ~ In LF (before_T now) ->
  match content with c :: _ => N.eqb c LF = false | [] => False end ->
  lines (addMdxFrontmatter now content originalPath) =
    [str "---";
     str "title: " ++ DQ :: Path.basename originalPath (Path.extname originalPath)
       ++ [DQ];
     str "description: " ++ DQ :: str "Converted from DOCX file" ++ [DQ];
     str "date: " ++ DQ :: before_T now ++ [DQ];
     str "---";
     []] ++ lines content
  /\ hd [] (lines content) <> []
  /\ addMdxFrontmatter now content originalPath =
     addMdxFrontmatter now [] originalPath ++ content
  /\ (forall markdown,
        match postProcessForMdx markdown with
        | c :: _ => N.eqb c LF = false
        | [] => True
        end).
Proof.
  intros Hname Hdate Hbody.
  set (fileName := Path.basename originalPath (Path.extname originalPath)) in *.
  assert (Hshape : forall body,
    addMdxFrontmatter now body originalPath =
    str "---" ++ LF ::
    (str "title: " ++ DQ :: fileName ++ [DQ]) ++ LF ::
    (str "description: " ++ DQ :: str "Converted from DOCX file" ++ [DQ]) ++ LF ::
    (str "date: " ++ DQ :: before_T now ++ [DQ]) ++ LF ::
    str "---" ++ LF :: [] ++ LF :: body).
  { intros body. unfold addMdxFrontmatter. cbv zeta. fold fileName.
    repeat (rewrite <- app_assoc || rewrite <- app_comm_cons). reflexivity. }
  assert (Hdashes : ~ In LF (str "---")) by (apply forallb_not_in; reflexivity).
  split; [|split; [|split]].
  - rewrite Hshape.
    rewrite lines_line by exact Hdashes.
    rewrite lines_line.
    2:{ apply not_in_app; [apply forallb_not_in; reflexivity|].
        apply not_in_cons; [discriminate|].
        apply not_in_app; [exact Hname|]. apply forallb_not_in. reflexivity. }
    rewrite lines_line by (apply forallb_not_in; reflexivity).
    rewrite lines_line.
    2:{ apply not_in_app; [apply forallb_not_in; reflexivity|].
        apply not_in_cons; [discriminate|].
        apply not_in_app; [exact Hdate|]. apply forallb_not_in. reflexivity. }
    rewrite lines_line by exact Hdashes.
    rewrite lines_line by (intros []).
    reflexivity.
  - destruct content as [|c content]; [contradiction|].
    apply lines_first_not_empty. exact Hbody.
  - rewrite (Hshape content), (Hshape []).
    repeat (rewrite <- app_assoc || rewrite <- app_comm_cons). reflexivity.
  - intros markdown. pose proof (trim_head (step4 (step3 (step2 (step1 markdown)))))
      as H. fold (postProcessForMdx markdown) in H.
    destruct (postProcessForMdx markdown) as [|c r]; [exact I|].
    apply space_not_lf_head. exact H.
Qed.

Lemma frontmatter_lines_witness :
  lines (addMdxFrontmatter (str "2024-05-06T07:08:09.000Z")
           (str "# Title" ++ LF :: LF :: str "Hello") (str "docs/my report.docx"))
  = [str "---";
     str "title: " ++ DQ :: str "my report" ++ [DQ];
     str "description: " ++ DQ :: str "Converted from DOCX file" ++ [DQ];
     str "date: " ++ DQ :: str "2024-05-06" ++ [DQ];
     str "---"; []; str "# Title"; []; str "Hello"].
Proof.
  refine (proj1 (frontmatter_lines (str "2024-05-06T07:08:09.000Z")
                   (str "# Title" ++ LF :: LF :: str "Hello")
                   (str "docs/my report.docx") _ _ _)).
  - vm_compute. intros H. repeat (destruct H as [H|H]; [discriminate H|]). exact H.
  - vm_compute. intros H. repeat (destruct H as [H|H]; [discriminate H|]). exact H.
  - reflexivity.
Defined.

(** C6 fails as stated: a data URI whose scheme is written in capitals is
    given the image tag, not the image Markdown. *)
Lemma capital_data_uri_gets_tag :
  is_data_uri (str "DATA:image/png;base64,AAAA") = true
  /\ image_replacement (Some (str "cat")) (Some (str "DATA:image/png;base64,AAAA"))
       None
     = str "<img src=" ++ DQ :: str "DATA:image/png;base64,AAAA" ++ DQ ::
       str " alt=" ++ DQ :: str "cat" ++ DQ :: str " />"
  /\ image_replacement (Some (str "cat")) (Some (str "DATA:image/png;base64,AAAA"))
       None
     <> spec_markdown_image (str "cat") (str "DATA:image/png;base64,AAAA") [].
Proof.
  split; [reflexivity|]. split; [reflexivity|]. vm_compute. discriminate.
Qed.

(** C6, amended: an attribute that is absent counts as empty.  When the
    source begins with the five code units [data:], in lower case, the rule
    gives the image Markdown, and such a source is a data URI; in every
    other case, that of a data URI with its scheme in another letter case
    included, it gives the image tag; in particular every source that is
    no data URI gets the tag.  The title part is left out for an empty
    title.  The source [http://x/y.png] with the alternative text [cat]
    and no title gives the tag of the claim. *)
Theorem image_rule_by_prefix alt src title :
  (startsWith (attr_or_empty src) (str "data:") = true ->
   is_data_uri (attr_or_empty src) = true /\
   image_replacement alt src title =
   spec_markdown_image (attr_or_empty alt) (attr_or_empty src) (attr_or_empty title))
  /\ (startsWith (attr_or_empty src) (str "data:") = false ->
      image_replacement alt src title =
      spec_image_tag (attr_or_empty src) (attr_or_empty alt) (attr_or_empty title))
  /\ (is_data_uri (attr_or_empty src) = false ->
      image_replacement alt src title =
      spec_image_tag (attr_or_empty src) (attr_or_empty alt) (attr_or_empty title))
  /\ image_replacement (Some (str "cat")) (Some (str "http://x/y.png")) None =
     str "<img src=" ++ DQ :: str "http://x/y.png" ++ DQ :: str " alt=" ++
     DQ :: str "cat" ++ DQ :: str " />".
Proof.
  assert (Hmd : startsWith (attr_or_empty src) (str "data:") = true ->
                is_data_uri (attr_or_empty src) = true).
  { destruct (attr_or_empty src) as [|a [|b [|c [|d [|e s]]]]];
      try (cbn; repeat rewrite ?andb_false_r; discriminate).
    intros H. cbn [startsWith str list_ascii_of_string map] in H.
    repeat (apply andb_prop in H; destruct H as [? H]).
    repeat match goal with
           | E : N.eqb _ _ = true |- _ => apply N.eqb_eq in E; subst
           end.
    reflexivity. }
  assert (Htag : startsWith (attr_or_empty src) (str "data:") = false ->
                 image_replacement alt src title =
                 spec_image_tag (attr_or_empty src) (attr_or_empty alt)
                   (attr_or_empty title)).
  { intros H. unfold image_replacement, spec_image_tag. cbv zeta. rewrite H.
    destruct (attr_or_empty title); cbn [truthy];
      repeat (rewrite <- app_assoc || rewrite <- app_comm_cons); reflexivity. }
  split; [|split; [exact Htag|split; [|reflexivity]]].
  - intros H. split; [exact (Hmd H)|].
    unfold image_replacement, spec_markdown_image. cbv zeta. rewrite H.
    destruct (attr_or_empty title); reflexivity.
  - intros H. apply Htag.
    destruct (startsWith (attr_or_empty src) (str "data:")) eqn:E; [|reflexivity].
    rewrite (Hmd eq_refl) in H. discriminate.
Qed.

Lemma image_rule_by_prefix_witness :
  image_replacement (Some (str "dot")) (Some (str "data:image/png;base64,AAAA"))
    (Some (str "A dot"))
  = str "![dot](data:image/png;base64,AAAA " ++ DQ :: str "A dot" ++ DQ :: str ")"
  /\ image_replacement None (Some (str "pic.png")) (Some [])
     = str "<img src=" ++ DQ :: str "pic.png" ++ DQ :: str " alt=" ++ [DQ; DQ] ++
       str " />".
Proof.
  split.
  - exact (proj2 (proj1 (image_rule_by_prefix (Some (str "dot"))
                           (Some (str "data:image/png;base64,AAAA"))
                           (Some (str "A dot"))) eq_refl)).
  - exact (proj1 (proj2 (image_rule_by_prefix None (Some (str "pic.png")) (Some [])))
             eq_refl).
Defined.

(** C9: a source that does not exist makes the single-file conversion fail
    with [NotFoundError]; the extraction collaborator is not called, nothing
    is written and the storage is left as it was. *)
Theorem missing_source_not_found FS (env : collaborators FS) inputPath outputPath
    (w : world FS) :
  fs_exists env (w_fs w) inputPath = false ->
  let mid := [EvLog (MsgReading inputPath); EvAccess inputPath;
              EvLog (MsgErrorConverting (NotFoundError inputPath))] in
  convertDocxToMdx env inputPath outputPath w =
    (inl (NotFoundError inputPath), World (w_fs w) (w_trace w ++ mid))
  /\ extractions mid = [] /\ writes mid = [].
Proof.
  intros Hex mid. split; [|split; reflexivity].
  destruct w as [fs tr]. cbn [w_fs w_trace] in *.
  unfold convertDocxToMdx. run_monad. rewrite Hex. run_monad.
  rewrite <- !app_assoc. reflexivity.
Qed.

Lemma missing_source_not_found_witness :
  fs_exists mem_env (w_fs (World docs_fs [])) (str "docs/none.docx") = false
  /\ convertDocxToMdx mem_env (str "docs/none.docx") None (World docs_fs []) =
     (inl (NotFoundError (str "docs/none.docx")),
      World docs_fs
        [EvLog (MsgReading (str "docs/none.docx")); EvAccess (str "docs/none.docx");
         EvLog (MsgErrorConverting (NotFoundError (str "docs/none.docx")))]).
Proof.
  split; [reflexivity|].
  exact (proj1 (missing_source_not_found mem_fs mem_env (str "docs/none.docx") None
                  (World docs_fs []) eq_refl)).
Defined.

(** C7 fails as stated: a failure while an entry is handled can end the
    batch.  The storage fills up with the first converted document;
    [fs.mkdir], called again for the second entry, fails, and the batch
    throws: the second and third entries are never attempted and the
    destination of the first is not returned. *)
Lemma mkdir_failure_aborts_batch :
  fst (convertDirectory (quota_env 4) (str "box") (Some (str "out")) (World box_fs []))
    = inl (IOError (str "no space left"))
  /\ readings (w_trace (snd (convertDirectory (quota_env 4) (str "box")
                               (Some (str "out")) (World box_fs []))))
     = [str "box/a.docx"]
  /\ successes (w_trace (snd (convertDirectory (quota_env 4) (str "box")
                                (Some (str "out")) (World box_fs []))))
     = [str "out/a.mdx"]
  /\ filter is_docx [str "a.docx"; str "b.docx"; str "c.docx"]
     = [str "a.docx"; str "b.docx"; str "c.docx"].
Proof. repeat split; vm_compute; reflexivity. Qed.

(** C7, amended: once the directory is listed, the batch attempts the
    eligible files in the order of the listing, and the failure of a
    conversion never ends it: the file is reported on the log, left out of
    the result, and the next file is attempted.  The batch throws only an
    error of [fs.mkdir] on the destination directory, having attempted the
    eligible files before the one at which that call failed.  When it
    returns, every eligible file was attempted and the value is the list of
    the destinations of the conversions that succeeded, in that order, with
    no entry for a failure. *)
Theorem batch_survives_failures FS (env : collaborators FS) inputDir outputDir
    (w : world FS) files :
  fs_readdir env (w_fs w) inputDir = inr files ->
  exists r fs' mid,
    convertDirectory env inputDir outputDir w = (r, World fs' (w_trace w ++ mid)) /\
    match r with
    | inr outs =>
        exists mask,
          List.length mask = List.length (filter is_docx files) /\
          readings mid = map (Path.join inputDir) (filter is_docx files) /\
          outs = map (batch_target inputDir outputDir)
                   (select mask (filter is_docx files)) /\
          outs = successes mid /\
          failures mid = select (map negb mask) (filter is_docx files) /\
          List.length outs + List.length (failures mid)
            = List.length (filter is_docx files)
    | inl e =>
        falsy outputDir = false /\
        (exists fs, fs_mkdir env fs (attr_or_empty outputDir) = inl e) /\
        exists n mask,
          n < List.length (filter is_docx files) /\ List.length mask = n /\
          readings mid = map (Path.join inputDir) (firstn n (filter is_docx files)) /\
          failures mid = select (map negb mask) (firstn n (filter is_docx files))
    end.
Proof.
  intros Hrd.
  destruct (convertDirectory_trace FS env inputDir outputDir w files Hrd)
    as (r & fs' & mid & n & mask & Hrun & Hn & Hlen & Hr & Hs & Hw & Hf & Hres & _).
  exists r, fs', mid. split; [exact Hrun|].
  destruct r as [e|outs].
  - destruct Hres as (Hlt & Hfal & Hex). split; [exact Hfal|]. split; [exact Hex|].
    exists n, mask. repeat split; assumption.
  - destruct Hres as (En & Houts). subst outs. rewrite En in Hr, Hs, Hf, Hlen.
    rewrite firstn_all in Hr, Hs, Hf.
    exists mask. repeat split; try assumption.
    rewrite Hs, Hf, length_map. apply select_length_le. exact Hlen.
Qed.

Lemma batch_survives_failures_witness :
  exists r fs' mid,
    convertDirectory mem_env (str "in") None (World mixed_fs []) =
      (r, World fs' (w_trace (World mixed_fs []) ++ mid)) /\
    match r with
    | inr outs =>
        exists mask,
          List.length mask =
            List.length (filter is_docx [str "one.docx"; str "bad.docx"; str "two.DOCX"]) /\
          readings mid = map (Path.join (str "in"))
                           (filter is_docx [str "one.docx"; str "bad.docx"; str "two.DOCX"]) /\
          outs = map (batch_target (str "in") None)
                   (select mask
                      (filter is_docx [str "one.docx"; str "bad.docx"; str "two.DOCX"])) /\
          outs = successes mid /\
          failures mid =
            select (map negb mask)
              (filter is_docx [str "one.docx"; str "bad.docx"; str "two.DOCX"]) /\
          List.length outs + List.length (failures mid)
            = List.length (filter is_docx [str "one.docx"; str "bad.docx"; str "two.DOCX"])
    | inl e =>
        falsy None = false /\
        (exists fs, fs_mkdir mem_env fs (attr_or_empty None) = inl e) /\
        exists n mask,
          n < List.length (filter is_docx [str "one.docx"; str "bad.docx"; str "two.DOCX"]) /\
          List.length mask = n /\
          readings mid =
            map (Path.join (str "in"))
              (firstn n (filter is_docx [str "one.docx"; str "bad.docx"; str "two.DOCX"])) /\
          failures mid =
            select (map negb mask)
              (firstn n (filter is_docx [str "one.docx"; str "bad.docx"; str "two.DOCX"]))
    end.
Proof.
  exact (batch_survives_failures mem_fs mem_env (str "in") None (World mixed_fs [])
           [str "one.docx"; str "bad.docx"; str "two.DOCX"] eq_refl).
Defined.

(** The batch of the example directory, run: the second document fails and
    the other two are returned. *)
Example batch_mixed_run :
  fst (convertDirectory mem_env (str "in") None (World mixed_fs []))
    = inr [str "in/one.mdx"; str "in/two.mdx"]
  /\ failures (w_trace (snd (convertDirectory mem_env (str "in") None
                               (World mixed_fs []))))
     = [str "bad.docx"].
Proof. split; vm_compute; reflexivity. Qed.

(** C10: without a destination directory every successful conversion of the
    batch goes to the directory of its source ([path.dirname] of the source
    path), under the base name of the source followed by [.mdx]; that path
    is the one handed to [fs.writeFile] and the one returned. *)
Theorem batch_default_destination FS (env : collaborators FS) inputDir
    (w : world FS) files :
  fs_readdir env (w_fs w) inputDir = inr files ->
  exists mask outs fs' mid,
    convertDirectory env inputDir None w =
      (inr outs, World fs' (w_trace w ++ mid)) /\
    List.length mask = List.length (filter is_docx files) /\
    outs = map (fun file =>
                  let inputPath := Path.join inputDir file in
                  Path.join (Path.dirname inputPath)
                    (Path.basename inputPath (Path.extname inputPath) ++ str ".mdx"))
             (select mask (filter is_docx files)) /\
    outs = successes mid /\
    incl outs (writes mid).
Proof.
  intros Hrd.
  destruct (convertDirectory_run FS env inputDir None w files Hrd
              (or_introl eq_refl))
    as (mask & fs' & mid & Hrun & Hlen & Hr & Hs & Hw & Hf).
  exists mask,
    (map (batch_target inputDir None) (select mask (filter is_docx files))),
    fs', mid.
  repeat split; try assumption.
  symmetry. exact Hs.
Qed.

Lemma batch_default_destination_witness :
  fs_readdir mem_env (w_fs (World docs_fs [])) (str "docs")
    = inr [str "a.docx"; str "~temp.docx"; str "b.txt"]
  /\ exists mask outs fs' mid,
       convertDirectory mem_env (str "docs") None (World docs_fs []) =
         (inr outs, World fs' (w_trace (World docs_fs []) ++ mid)) /\
       List.length mask =
         List.length (filter is_docx [str "a.docx"; str "~temp.docx"; str "b.txt"]) /\
       outs = map (fun file =>
                     let inputPath := Path.join (str "docs") file in
                     Path.join (Path.dirname inputPath)
                       (Path.basename inputPath (Path.extname inputPath) ++ str ".mdx"))
                (select mask (filter is_docx [str "a.docx"; str "~temp.docx"; str "b.txt"])) /\
       outs = successes mid /\
       incl outs (writes mid).
Proof.
  split; [reflexivity|].
  exact (batch_default_destination mem_fs mem_env (str "docs")
           (World docs_fs []) [str "a.docx"; str "~temp.docx"; str "b.txt"] eq_refl).
Defined.

(** C8 fails as stated: the entry [.docx] ends with the source extension
    and does not begin with the tilde, yet [path.extname] gives it no
    extension and the batch leaves it out. *)
Lemma dot_docx_not_eligible :
  endsWith (toLowerCase (str ".docx")) (str ".docx") = true
  /\ startsWith (str ".docx") (str "~") = false
  /\ is_docx (str ".docx") = false
  /\ convertDirectory mem_env (str "d") None
       (World (MemFs [(str "d", [str ".docx"])] [(str "d/.docx", str "x")]) [])
     = (inr [],
        World (MemFs [(str "d", [str ".docx"])] [(str "d/.docx", str "x")])
          [EvLog (MsgProcessingDirectory (str "d")); EvReaddir (str "d");
           EvLog MsgNoDocxFiles]).
Proof. repeat split; vm_compute; reflexivity. Qed.

(** C8, as the code has it: a directory entry is eligible exactly when the
    extension that [path.extname] finds in it, lower-cased, is [.docx] and
    the entry does not begin with the tilde; that is, when it ends with
    [.docx] in any letter case, holds at least one code unit before that
    suffix and does not begin with the tilde.  The entries attempted are
    eligible ones, in the order of the listing and from the first on: all
    of them when the batch returns, those before the entry at which
    [fs.mkdir] failed otherwise.  With no eligible entry the batch returns
    the empty list without an error, whatever the storage does.  Of
    [a.docx], [~temp.docx] and [b.txt] only [a.docx] is eligible, and its
    conversion gives a list of one. *)
Theorem eligible_entries :
  (forall file,
      forallb (fun c => negb (Path.is_slash c)) file = true ->
      is_docx file =
      (endsWith (toLowerCase file) (str ".docx") && Nat.ltb 5 (List.length file)
       && negb (startsWith file (str "~")))%bool)
  /\
  (forall FS (env : collaborators FS) inputDir outputDir (w : world FS) files,
      fs_readdir env (w_fs w) inputDir = inr files ->
      exists r fs' mid,
        convertDirectory env inputDir outputDir w =
          (r, World fs' (w_trace w ++ mid)) /\
        (exists n, readings mid =
                   map (Path.join inputDir) (firstn n (filter is_docx files))) /\
        (forall outs, r = inr outs ->
                      readings mid = map (Path.join inputDir) (filter is_docx files)) /\
        (filter is_docx files = [] -> r = inr [] /\ fs' = w_fs w))
  /\
  filter is_docx [str "a.docx"; str "~temp.docx"; str "b.txt"] = [str "a.docx"]
  /\
  fst (convertDirectory mem_env (str "docs") None (World docs_fs []))
    = inr [str "docs/a.mdx"].
Proof.
  split; [exact is_docx_spec|]. split; [|split; vm_compute; reflexivity].
  intros FS env inputDir outputDir w files Hrd.
  destruct (convertDirectory_trace FS env inputDir outputDir w files Hrd)
    as (r & fs' & mid & n & mask & Hrun & Hn & Hlen & Hr & Hs & Hw & Hf & Hres & Hnone).
  exists r, fs', mid. split; [exact Hrun|]. split; [exists n; exact Hr|].
  split; [|exact Hnone].
  intros outs ->. destruct Hres as (-> & _). rewrite firstn_all in Hr. exact Hr.
Qed.

Lemma eligible_entries_witness :
  forallb (fun c => negb (Path.is_slash c)) (str "Report.DOCX") = true
  /\ is_docx (str "Report.DOCX") =
     (endsWith (toLowerCase (str "Report.DOCX")) (str ".docx")
      && Nat.ltb 5 (List.length (str "Report.DOCX"))
      && negb (startsWith (str "Report.DOCX") (str "~")))%bool
  /\ is_docx (str "Report.DOCX") = true.
Proof.
  split; [reflexivity|]. split; [|reflexivity].
  exact (proj1 eligible_entries (str "Report.DOCX") eq_refl).
Defined.

(** * The claims about the post-processor *)

(** C1 fails as stated: a blank before a heading marker keeps the heading
    pattern from matching on the first pass; trimming removes the blank and
    the second pass rewrites the heading. *)
Lemma post_process_not_idempotent :
  postProcessForMdx (str " #  foo") = str "#  foo"
  /\ postProcessForMdx (postProcessForMdx (str " #  foo")) = str "# foo"
  /\ postProcessForMdx (postProcessForMdx (str " #  foo"))
     <> postProcessForMdx (str " #  foo").
Proof.
  split; [vm_compute; reflexivity|]. split; [vm_compute; reflexivity|].
  vm_compute. discriminate.
Qed.

(** C1, amended: the post-processor is idempotent on every input that does
    not begin with a whitespace code unit: for such an input, applying
    postProcessForMdx twice yields the same result as applying it once. *)
Theorem post_process_idempotent s :
  no_lead s ->
  postProcessForMdx (postProcessForMdx s) = postProcessForMdx s.
Proof.
  intros Hs. change (postProcessForMdx s) with (trim (rewrite_all s)).
  apply trim_settled_fixed.
  - apply rewrite_all_settled.
  - apply rewrite_all_lead. exact Hs.
Qed.

Lemma post_process_idempotent_witness :
  no_lead (str "#  Title")
  /\ postProcessForMdx (postProcessForMdx (str "#  Title"))
     = postProcessForMdx (str "#  Title").
Proof.
  split; [reflexivity | apply (post_process_idempotent (str "#  Title"))].
  reflexivity.
Defined.

(** C2 fails as stated: the line feed after a bullet-only line is not kept;
    the text of the next line joins the marker. *)
Lemma list_item_line_break_removed :
  step3 (str "-" ++ [LF] ++ str "item") = str "- item"
  /\ ~ In LF (step3 (str "-" ++ [LF] ++ str "item")).
Proof.
  split; [vm_compute; reflexivity|].
  vm_compute. intros H. repeat (destruct H as [H|H]; [discriminate H|]). exact H.
Qed.

Lemma list_item_line_joined_witness :
  at_line_start None = true
  /\ forallb is_space (str "  ") = true
  /\ forallb is_space (str " ") = true
  /\ blank_run_has_lf (str " item") = false
  /\ step3 (str "  " ++ DASH :: str " " ++ LF :: str " item") =
     str "  " ++ DASH :: SP :: step3 (str " item").
Proof.
  repeat (split; [reflexivity|]).
  exact (proj2 (list_item_line_joined None (str "  ") (str " ") (str " item")
                  eq_refl eq_refl eq_refl eq_refl)).
Defined.

(** C3 fails as stated: the blank line after a closing fence is removed as
    well. *)
Lemma closing_fence_blank_line_removed :
  step2 (str "```js" ++ [LF] ++ str "x" ++ [LF] ++ str "```" ++ [LF; LF] ++ str "y")
  = str "```js" ++ [LF] ++ str "x" ++ [LF] ++ str "```" ++ [LF] ++ str "y"
  /\ step2 (str "```js" ++ [LF] ++ str "x" ++ [LF] ++ str "```" ++ [LF; LF] ++ str "y")
  <> str "```js" ++ [LF] ++ str "x" ++ [LF] ++ str "```" ++ [LF; LF] ++ str "y".
Proof. split; [vm_compute; reflexivity | vm_compute; discriminate]. Qed.

Lemma fence_blank_line_removed_witness :
  forallb is_word (str "js") = true
  /\ step2 (BT :: BT :: BT :: str "js" ++ LF :: LF :: str "x") =
     BT :: BT :: BT :: str "js" ++ LF :: step2 (str "x")
  /\ step2 (str "js" ++ [LF; LF]) = N_of_ascii "j" :: step2 (str "s" ++ [LF; LF]).
Proof.
  split; [reflexivity|]. split.
  - exact (proj1 fence_blank_line_removed (str "js") (str "x") eq_refl).
  - apply (proj2 fence_blank_line_removed).
    intros tag rest _ H. discriminate H.
Defined.

(** C4 fails on the code: the blanks that the heading pattern takes after
    the markers may hold line feeds, so that a bare marker line takes the
    heading line that follows it as its text; that heading keeps its two
    spaces and the two lines become one. *)
Lemma heading_after_bare_marker_kept :
  postProcessForMdx (str "#" ++ [LF] ++ str "#  x") = str "# #  x"
  /\ step4 (str "#" ++ [LF] ++ str "#  x") = str "# #  x".
Proof. split; vm_compute; reflexivity. Qed.


(** * Further properties of the post-processor *)

(** ** What the rewritings keep *)

Lemma nonspace_app u v : nonspace (u ++ v) = nonspace u ++ nonspace v.
Proof. apply filter_app. Qed.

Lemma nonspace_blank u : forallb is_space u = true -> nonspace u = [].
Proof.
  induction u as [|c u IH]; intros H; [reflexivity|].
  simpl in H. apply andb_prop in H. destruct H as [Hc Hu].
  unfold nonspace. cbn [filter]. rewrite Hc. exact (IH Hu).
Qed.

Lemma forallb_repeat (p : char -> bool) c n : p c = true -> forallb p (repeat c n) = true.
Proof. intros H. induction n as [|n IH]; simpl; [reflexivity|]. rewrite H. exact IH. Qed.

Lemma nonspace_cons c s :
  nonspace (c :: s) = (if is_space c then [] else [c]) ++ nonspace s.
Proof. unfold nonspace. cbn [filter]. destruct (is_space c); reflexivity. Qed.

Lemma rw1_nonspace s out : rw1 s out -> nonspace out = nonspace s.
Proof.
  intros H. induction H as [|c s out Hlt H IH|n rest out Hn Hrest H IH].
  - reflexivity.
  - rewrite !nonspace_cons, IH. reflexivity.
  - rewrite nonspace_app, (nonspace_blank (repeat LF n)) by (apply forallb_repeat; reflexivity).
    rewrite !nonspace_cons, IH. reflexivity.
Qed.

Lemma rw2_nonspace s out : rw2 s out -> nonspace out = nonspace s.
Proof.
  intros H. induction H as [|c s out Hf H IH|tag rest out Htag H IH].
  - reflexivity.
  - rewrite !nonspace_cons, IH. reflexivity.
  - rewrite !(nonspace_cons BT), !nonspace_app, !(nonspace_cons LF), IH. reflexivity.
Qed.

Lemma rw3_nonspace prev s out : rw3 prev s out -> nonspace out = nonspace s.
Proof.
  intros H.
  induction H as [prev|prev c s out E H IH|prev indent ws rest out Hl Hin Hws Hr H IH].
  - reflexivity.
  - rewrite !nonspace_cons, IH. reflexivity.
  - rewrite !nonspace_app, !(nonspace_cons DASH), nonspace_app, (nonspace_blank ws Hws).
    rewrite (nonspace_cons SP), (nonspace_cons LF), IH. reflexivity.
Qed.

Lemma rw4_nonspace prev s out : rw4 prev s out -> nonspace out = nonspace s.
Proof.
  intros H.
  induction H as [prev|prev c s out E H IH|prev n W text rest out Hl Eh H IH].
  - reflexivity.
  - rewrite !nonspace_cons, IH. reflexivity.
  - pose proof (heading_line_some _ _ _ _ _ Eh) as (_ & _ & _ & _ & _ & HW & _).
    rewrite !nonspace_app, (nonspace_blank W HW), (nonspace_cons SP), nonspace_app, IH.
    reflexivity.
Qed.

Lemma rewrite_all_nonspace s : nonspace (rewrite_all s) = nonspace s.
Proof.
  unfold rewrite_all.
  rewrite (rw4_nonspace None _ _ (rw4_scan _ None)).
  rewrite (rw3_nonspace None _ _ (rw3_scan _ None)).
  rewrite (rw2_nonspace _ _ (rw2_scan _ None)).
  exact (rw1_nonspace _ _ (rw1_scan _ None)).
Qed.

(** A text is its leading blanks, its trimmed middle and its trailing
    blanks. *)
Lemma trim_split s :
  exists lead tail,
    s = lead ++ trim s ++ tail /\
    forallb is_space lead = true /\ forallb is_space tail = true.
Proof.
  destruct (rtrim_split (drop_while is_space s)) as (tr & Et & Htr).
  exists (Path.take_while is_space s), tr. split; [|split].
  - change (trim s) with (rtrim (drop_while is_space s)).
    rewrite <- Et. symmetry. apply take_drop_while.
  - apply take_while_all.
  - exact Htr.
Qed.

Lemma trim_nonspace s : nonspace (trim s) = nonspace s.
Proof.
  destruct (trim_split s) as (lead & tail & E & Hl & Ht).
  rewrite E at 2. rewrite !nonspace_app, (nonspace_blank _ Hl), (nonspace_blank _ Ht).
  rewrite app_nil_r. reflexivity.
Qed.

Lemma trim_ends_well s : ends_well (trim s).
Proof. exact (rtrim_ends_well (drop_while is_space s)). Qed.

(** ** Lengths *)

Lemma rw1_length s out : rw1 s out -> List.length out <= List.length s.
Proof.
  intros H. induction H as [|c s out Hlt H IH|n rest out Hn Hrest H IH].
  - reflexivity.
  - simpl. lia.
  - rewrite length_app, repeat_length. simpl. lia.
Qed.

Lemma rw2_length s out : rw2 s out -> List.length out <= List.length s.
Proof.
  intros H. induction H as [|c s out Hf H IH|tag rest out Htag H IH].
  - reflexivity.
  - simpl. lia.
  - cbn [List.length]. rewrite !length_app. cbn [List.length]. lia.
Qed.

Lemma rw3_length prev s out : rw3 prev s out -> List.length out <= List.length s.
Proof.
  intros H.
  induction H as [prev|prev c s out E H IH|prev indent ws rest out Hl Hin Hws Hr H IH].
  - reflexivity.
  - simpl. lia.
  - rewrite !length_app. cbn [List.length]. rewrite length_app. cbn [List.length]. lia.
Qed.

Lemma rewrite_all_length s : List.length (rewrite_all s) <= List.length s.
Proof.
  unfold rewrite_all.
  pose proof (rw4_length None _ _ (rw4_scan (step3 (step2 (step1 s))) None)) as H4.
  pose proof (rw3_length None _ _ (rw3_scan (step2 (step1 s)) None)) as H3.
  pose proof (rw2_length _ _ (rw2_scan (step1 s) None)) as H2.
  pose proof (rw1_length _ _ (rw1_scan s None)) as H1.
  unfold step1_at, step2_at, step3_at, step4_at in *.
  unfold step4, step3, step2, step1, replace_all in *. lia.
Qed.

Lemma trim_length s : List.length (trim s) <= List.length s.
Proof.
  destruct (trim_split s) as (lead & tail & E & _).
  rewrite E at 2. rewrite !length_app. lia.
Qed.

(** ** Runs of line feeds *)

Lemma no3_spec s a b : no3 0 s = true -> s <> a ++ LF :: LF :: LF :: b.
Proof.
  intros H E. rewrite E in H. apply no3_app_r in H.
  rewrite no3_lf3 in H. discriminate.
Qed.

Lemma trim_no3 s : no3 0 s = true -> no3 0 (trim s) = true.
Proof.
  intros H. destruct (trim_split s) as (lead & tail & E & _).
  rewrite E in H. apply no3_app_r in H. exact (no3_app_l _ _ _ H).
Qed.

(** ** Texts without the code units the patterns look for *)

Lemma nobl_no_dash s : ~ In DASH s -> forall prev, nobl prev s = true.
Proof.
  induction s as [|c s IH]; intros H prev; [reflexivity|].
  cbn [nobl]. rewrite IH by (intros Hin; apply H; right; exact Hin).
  rewrite andb_true_r.
  destruct (bullet_line (c :: s)) as [[[ind ws] r]|] eqn:E.
  - exfalso. apply H. apply bullet_line_some in E. destruct E as (E & _).
    rewrite E. apply in_or_app. right. left. reflexivity.
  - rewrite andb_false_r. reflexivity.
Qed.

(** A text without backticks, hyphens and hash signs, and without three
    line feeds in a row, is left alone by the four rewritings. *)
Lemma rewrite_all_plain s :
  no3 0 s = true -> ~ In BT s -> ~ In DASH s -> ~ In HASH s ->
  rewrite_all s = s.
Proof.
  intros H3 Hbt Hdash Hhash. unfold rewrite_all.
  assert (E1 : step1 s = s) by exact (rw1_fixed s _ (rw1_scan s None) 0 H3).
  rewrite E1.
  assert (E2 : step2 s = s).
  { apply (rw2_fixed s _ (rw2_scan s None)).
    rewrite <- (app_nil_r s). apply nofb_no_bt; [|reflexivity].
    apply not_in_forallb. exact Hbt. }
  rewrite E2.
  assert (E3 : step3 s = s).
  { apply (rw3_fixed None s _ (rw3_scan s None)). apply nobl_no_dash. exact Hdash. }
  rewrite E3.
  apply (rw4_no_hash None s _ (rw4_scan s None)).
  exact (not_in_forallb_sym HASH s Hhash).
Qed.

(** ** Step 1 on a text cut at a run of line feeds *)

Lemma rw1_fun s out : rw1 s out -> forall prev, step1_at prev s = out.
Proof.
  intros H. induction H as [|c s out Hlt H IH|n rest out Hn Hrest H IH]; intros prev.
  - unfold step1_at. apply scan_end. rewrite hit_blank_lines. reflexivity.
  - unfold step1_at in *. rewrite scan_miss; [rewrite IH; reflexivity|].
    rewrite hit_blank_lines. apply Nat.ltb_lt in Hlt.
    destruct (Nat.leb_spec 3 (prefix_len is_lf (c :: s))); [lia | reflexivity].
  - unfold step1_at in *.
    assert (Hp : prefix_len is_lf (repeat LF n ++ rest) = n).
    { rewrite prefix_len_repeat by reflexivity. lia. }
    rewrite scan_hit with (R := [LF; LF]) (L := n).
    + rewrite <- (repeat_length LF n) at 2 3. rewrite skipn_app_exact.
      rewrite IH. reflexivity.
    + rewrite hit_blank_lines, Hp.
      destruct (Nat.leb_spec 3 n); [reflexivity | lia].
    + rewrite length_app, repeat_length. lia.
Qed.

Lemma ends_no_lf_tail c a : a <> [] -> ends_no_lf (c :: a) -> ends_no_lf a.
Proof.
  unfold ends_no_lf. cbn [rev]. intros Hne.
  destruct (rev a) as [|d l] eqn:E; [|intros H; exact H].
  exfalso. apply Hne. rewrite <- (rev_involutive a), E. reflexivity.
Qed.

Lemma ends_no_lf_app u v : v <> [] -> ends_no_lf (u ++ v) -> ends_no_lf v.
Proof.
  intros Hne. induction u as [|c u IH]; intros H; [exact H|].
  apply IH. apply (ends_no_lf_tail c); [|exact H].
  destruct u; [exact Hne | discriminate].
Qed.

Lemma ends_no_lf_run n : 1 <= n -> ~ ends_no_lf (repeat LF n).
Proof.
  intros Hn H. unfold ends_no_lf in H. rewrite rev_repeat in H.
  destruct n as [|n]; [lia|]. discriminate H.
Qed.

(** The run of line feeds at the head of a text that does not end with one
    stays as it is when a text is put after it. *)
Lemma prefix_len_lf_app a x :
  a <> [] -> ends_no_lf a ->
  prefix_len is_lf (a ++ x) = prefix_len is_lf a.
Proof.
  induction a as [|c a IH]; intros Hne He; [contradiction|].
  cbn [app prefix_len]. destruct (is_lf c) eqn:Ec; [|reflexivity].
  f_equal. destruct a as [|d a].
  - exfalso. unfold ends_no_lf in He. cbn in He. unfold is_lf in Ec.
    rewrite Ec in He. discriminate.
  - apply IH; [discriminate|]. apply (ends_no_lf_tail c); [discriminate | exact He].
Qed.

Lemma rw1_app a oa :
  rw1 a oa -> ends_no_lf a ->
  forall x ox, rw1 x ox -> rw1 (a ++ x) (oa ++ ox).
Proof.
  intros H. induction H as [|c s out Hlt H IH|n rest out Hn Hrest H IH];
    intros He x ox Hx.
  - exact Hx.
  - cbn [app]. apply rw1_copy.
    + change (c :: s ++ x) with ((c :: s) ++ x).
      rewrite prefix_len_lf_app; [exact Hlt | discriminate | exact He].
    + destruct s as [|d s].
      * inversion H as [E0| |n rest out' Hn Hrest H' E0 E1].
        -- exact Hx.
        -- exfalso. destruct n as [|n]; [lia | discriminate E0].
      * apply IH; [|exact Hx]. apply (ends_no_lf_tail c); [discriminate | exact He].
  - rewrite <- app_assoc. cbn [app].
    assert (Hne : rest <> []).
    { intros ->. rewrite app_nil_r in He. apply (ends_no_lf_run n); [lia | exact He]. }
    apply rw1_hit; [exact Hn | |].
    + rewrite prefix_len_lf_app; [exact Hrest | exact Hne |].
      exact (ends_no_lf_app _ _ Hne He).
    + apply IH; [|exact Hx]. exact (ends_no_lf_app _ _ Hne He).
Qed.

(** * Further properties of the orchestrator *)

(** The loop of the batch throws only when [fs.mkdir] does. *)
Lemma convert_each_throws FS (env : collaborators FS) inputDir outputDir files :
  forall acc (w : world FS) e w',
  convert_each env inputDir outputDir files acc w = (inl e, w') ->
  falsy outputDir = false /\
  exists fs, fs_mkdir env fs (attr_or_empty outputDir) = inl e.
Proof.
  induction files as [|file files IH]; intros acc w e w' H.
  - discriminate H.
  - destruct w as [fs tr]. cbn [convert_each] in H. revert H.
    destruct (falsy outputDir) eqn:Ef; run_monad.
    + destruct (convertDocxToMdx env (Path.join inputDir file) None (World fs tr))
        as [[e1|out] [fs2 tr2]]; cbn [w_fs w_trace]; intros H;
        destruct (IH _ _ _ _ H) as [Hf _]; discriminate Hf.
    + destruct (fs_mkdir env fs (attr_or_empty outputDir)) as [e0|fs0] eqn:Emk.
      * intros H. injection H as <- _. split; [reflexivity|].
        exists fs. exact Emk.
      * cbn [w_fs w_trace].
        match goal with
        | |- context [convertDocxToMdx env ?ip ?op ?w0] =>
            destruct (convertDocxToMdx env ip op w0) as [[e1|out] [fs2 tr2]]
        end; cbn [w_fs w_trace]; intros H; exact (IH _ _ _ _ H).
Qed.

(** The calls that one single-file conversion makes. *)
Lemma convert_calls FS (env : collaborators FS) ip op (w : world FS) :
  exists r fs' mid,
    convertDocxToMdx env ip op w = (r, World fs' (w_trace w ++ mid)) /\
    accesses mid = [ip] /\ incl (extractions mid) [ip] /\
    incl (writes mid) [target ip op] /\ mkdirs mid = [].
Proof.
  destruct w as [fs tr]. unfold convertDocxToMdx. run_monad.
  destruct (fs_exists env fs ip) eqn:Eex; run_monad.
  2:{ eexists _, _, _. split; [rewrite <- !app_assoc; reflexivity|].
      repeat split; intros x []. }
  destruct (convertToHtml env fs ip) as [e|[html msgs]] eqn:Ecv; run_monad.
  { eexists _, _, _. split; [rewrite <- !app_assoc; reflexivity|].
    repeat split; try (intros x Hx; exact Hx). intros x []. }
  cbn [ex_value ex_messages]. rewrite report_warnings_run. run_monad.
  fold (target ip op).
  match goal with
  | |- context [fs_writeFile env fs (target ip op) ?c] =>
      destruct (fs_writeFile env fs (target ip op) c) as [e|fs1] eqn:Ewr
  end; run_monad.
  - eexists _, _, _. split; [rewrite <- !app_assoc; reflexivity|].
    unfold accesses, extractions, writes, mkdirs. cbn [pick app].
    rewrite !pick_app, !pick_warning_events by reflexivity.
    repeat split; intros x Hx; exact Hx.
  - eexists _, _, _. split; [rewrite <- !app_assoc; reflexivity|].
    unfold accesses, extractions, writes, mkdirs. cbn [pick app].
    rewrite !pick_app, !pick_warning_events by reflexivity.
    repeat split; intros x Hx; exact Hx.
Qed.

Lemma incl_step {A : Type} (a b l : list A) x :
  incl a [x] -> incl b l -> incl (a ++ b) (x :: l).
Proof.
  intros Ha Hb y Hy. apply in_app_or in Hy. destruct Hy as [Hy|Hy].
  - destruct (Ha y Hy) as [<-|[]]. left. reflexivity.
  - right. exact (Hb y Hy).
Qed.

Lemma target_batch inputDir outputDir file :
  target (Path.join inputDir file)
    (if falsy outputDir then None
     else Some (Path.join (attr_or_empty outputDir)
                  (Path.basename file (Path.extname file) ++ str ".mdx")))
  = batch_target inputDir outputDir file.
Proof.
  unfold target, batch_target. destruct (falsy outputDir); [reflexivity|].
  rewrite falsy_join. reflexivity.
Qed.

(** The calls that the loop of the batch makes. *)
Lemma convert_each_calls FS (env : collaborators FS) inputDir outputDir files :
  forall acc (w : world FS),
  exists r fs' mid,
    convert_each env inputDir outputDir files acc w =
      (r, World fs' (w_trace w ++ mid)) /\
    incl (accesses mid) (map (Path.join inputDir) files) /\
    incl (extractions mid) (map (Path.join inputDir) files) /\
    incl (writes mid) (map (batch_target inputDir outputDir) files) /\
    (falsy outputDir = true -> mkdirs mid = []) /\
    (falsy outputDir = false ->
     match r with
     | inr _ => mkdirs mid = repeat (attr_or_empty outputDir) (List.length files)
     | inl _ => True
     end).
Proof.
  induction files as [|file files IH]; intros acc w.
  - exists (inr acc), (w_fs w), []. cbn [convert_each]. unfold ret.
    rewrite app_nil_r. destruct w. repeat split; intros x [].
  - destruct w as [fs tr]. cbn [convert_each].
    pose proof (target_batch inputDir outputDir file) as Ht.
    destruct (falsy outputDir) eqn:Ef.
    + run_monad.
      destruct (convert_calls FS env (Path.join inputDir file) None (World fs tr))
        as (r1 & fs1 & mid1 & Heq & Ha1 & He1 & Hw1 & Hm1).
      rewrite Heq. rewrite Ht in Hw1. cbn [w_trace] in *.
      assert (Ha1' : incl (accesses mid1) [Path.join inputDir file])
        by (rewrite Ha1; apply incl_refl).
      destruct r1 as [e1|out]; run_monad.
      * destruct (IH acc (World fs1 ((tr ++ mid1) ++
                                       [EvLog (MsgFailedToConvert file e1)])))
          as (r & fs' & mid & Hrun & Ha & He & Hw & Hm0 & Hm).
        cbn [w_trace] in Hrun. rewrite Hrun.
        exists r, fs', (mid1 ++ EvLog (MsgFailedToConvert file e1) :: mid).
        split; [rewrite <- !app_assoc; reflexivity|].
        unfold accesses, extractions, writes, mkdirs in *.
        rewrite !pick_app. cbn [pick map].
        repeat split; try (apply incl_step; assumption); try discriminate.
        intros _. rewrite Hm1, (Hm0 eq_refl). reflexivity.
      * destruct (IH (acc ++ [out]) (World fs1 (tr ++ mid1)))
          as (r & fs' & mid & Hrun & Ha & He & Hw & Hm0 & Hm).
        cbn [w_trace] in Hrun. rewrite Hrun.
        exists r, fs', (mid1 ++ mid).
        split; [rewrite <- !app_assoc; reflexivity|].
        unfold accesses, extractions, writes, mkdirs in *.
        rewrite !pick_app. cbn [pick map].
        repeat split; try (apply incl_step; assumption); try discriminate.
        intros _. rewrite Hm1, (Hm0 eq_refl). reflexivity.
    + run_monad.
      destruct (fs_mkdir env fs (attr_or_empty outputDir)) as [e0|fs0] eqn:Emk.
      * exists (inl e0), fs, [EvMkdir (attr_or_empty outputDir)].
        repeat split; try (intros x []); try discriminate.
      * cbn [w_fs w_trace].
        destruct (convert_calls FS env (Path.join inputDir file)
                    (Some (Path.join (attr_or_empty outputDir)
                             (Path.basename file (Path.extname file) ++ str ".mdx")))
                    (World fs0 (tr ++ [EvMkdir (attr_or_empty outputDir)])))
          as (r1 & fs1 & mid1 & Heq & Ha1 & He1 & Hw1 & Hm1).
        rewrite Heq. rewrite Ht in Hw1. cbn [w_trace] in *.
      assert (Ha1' : incl (accesses mid1) [Path.join inputDir file])
        by (rewrite Ha1; apply incl_refl).
        destruct r1 as [e1|out]; run_monad.
        -- destruct (IH acc (World fs1 (((tr ++ [EvMkdir (attr_or_empty outputDir)])
                                           ++ mid1) ++
                                          [EvLog (MsgFailedToConvert file e1)])))
             as (r & fs' & mid & Hrun & Ha & He & Hw & Hm0 & Hm).
           cbn [w_trace] in Hrun. rewrite Hrun.
           exists r, fs', (EvMkdir (attr_or_empty outputDir) :: mid1 ++
                           EvLog (MsgFailedToConvert file e1) :: mid).
           split; [rewrite <- !app_assoc; reflexivity|].
           unfold accesses, extractions, writes, mkdirs in *.
           cbn [pick]. rewrite !pick_app. cbn [pick map List.length repeat].
           repeat split; try (apply incl_step; assumption); try discriminate.
           intros _. specialize (Hm eq_refl). destruct r; [exact I|].
           rewrite Hm1, Hm. reflexivity.
        -- destruct (IH (acc ++ [out])
                       (World fs1 ((tr ++ [EvMkdir (attr_or_empty outputDir)]) ++ mid1)))
             as (r & fs' & mid & Hrun & Ha & He & Hw & Hm0 & Hm).
           cbn [w_trace] in Hrun. rewrite Hrun.
           exists r, fs', (EvMkdir (attr_or_empty outputDir) :: mid1 ++ mid).
           split; [rewrite <- !app_assoc; reflexivity|].
           unfold accesses, extractions, writes, mkdirs in *.
           cbn [pick]. rewrite !pick_app. cbn [pick map List.length repeat].
           repeat split; try (apply incl_step; assumption); try discriminate.
           intros _. specialize (Hm eq_refl). destruct r; [exact I|].
           rewrite Hm1, Hm. reflexivity.
Qed.

(** The calls that a batch makes once the directory has been listed. *)
Lemma convertDirectory_calls FS (env : collaborators FS) inputDir outputDir
    (w : world FS) files :
  fs_readdir env (w_fs w) inputDir = inr files ->
  exists r fs' mid,
    convertDirectory env inputDir outputDir w = (r, World fs' (w_trace w ++ mid)) /\
    incl (accesses mid) (map (Path.join inputDir) (filter is_docx files)) /\
    incl (extractions mid) (map (Path.join inputDir) (filter is_docx files)) /\
    incl (writes mid) (map (batch_target inputDir outputDir) (filter is_docx files)) /\
    (falsy outputDir = true -> mkdirs mid = []) /\
    (falsy outputDir = false ->
     match r with
     | inr _ => mkdirs mid =
                repeat (attr_or_empty outputDir) (List.length (filter is_docx files))
     | inl _ => True
     end).
Proof.
  intros Hrd. destruct w as [fs tr]. cbn [w_fs w_trace] in *.
  unfold convertDirectory. run_monad. rewrite Hrd.
  destruct (filter is_docx files) as [|f0 fl] eqn:Ef.
  - run_monad. exists (inr []), fs, [EvLog (MsgProcessingDirectory inputDir);
                                     EvReaddir inputDir; EvLog MsgNoDocxFiles].
    split; [rewrite <- !app_assoc; reflexivity|].
    repeat split; intros x [].
  - destruct (convert_each_calls FS env inputDir outputDir (f0 :: fl) []
                (World fs ((tr ++ [EvLog (MsgProcessingDirectory inputDir)])
                             ++ [EvReaddir inputDir])))
      as (r & fs' & mid & Hrun & Ha & He & Hw & Hm0 & Hm).
    rewrite Hrun. cbn [w_trace]. destruct r as [e|outs]; run_monad.
    + exists (inl e), fs',
        ([EvLog (MsgProcessingDirectory inputDir); EvReaddir inputDir] ++ mid ++
         [EvLog (MsgErrorProcessingDirectory e)]).
      split; [rewrite <- !app_assoc; reflexivity|].
      unfold accesses, extractions, writes, mkdirs in *.
      rewrite !pick_app. cbn [pick app]. rewrite !app_nil_r.
      repeat split; try assumption.
    + exists (inr outs), fs',
        ([EvLog (MsgProcessingDirectory inputDir); EvReaddir inputDir] ++ mid ++
         [EvLog (MsgConverted (List.length outs))]).
      split; [rewrite <- !app_assoc; reflexivity|].
      unfold accesses, extractions, writes, mkdirs in *.
      rewrite !pick_app. cbn [pick app]. rewrite !app_nil_r.
      repeat split; try assumption.
Qed.

(** An empty destination is no destination. *)
Lemma convert_each_empty_output FS (env : collaborators FS) inputDir files :
  forall acc (w : world FS),
  convert_each env inputDir (Some []) files acc w =
  convert_each env inputDir None files acc w.
Proof.
  induction files as [|file files IH]; intros acc w; [reflexivity|].
  cbn [convert_each falsy]. unfold bind, ret. cbv beta iota.
  destruct (try_catch _ _ w) as [[e|outs] w1]; [reflexivity | apply IH].
Qed.

(** Where the error of a failed single-file conversion comes from. *)
Lemma convert_throws FS (env : collaborators FS) ip op (w : world FS) e w' :
  convertDocxToMdx env ip op w = (inl e, w') ->
  (fs_exists env (w_fs w) ip = false /\ e = NotFoundError ip)
  \/ convertToHtml env (w_fs w) ip = inl e
  \/ exists content, fs_writeFile env (w_fs w) (target ip op) content = inl e.
Proof.
  destruct w as [fs tr]. cbn [w_fs w_trace]. unfold convertDocxToMdx. run_monad.
  destruct (fs_exists env fs ip) eqn:Eex; run_monad.
  2:{ intros H. injection H as <- _. left. split; reflexivity. }
  destruct (convertToHtml env fs ip) as [e0|[html msgs]] eqn:Ecv; run_monad.
  { intros H. injection H as <- _. right. left. reflexivity. }
  cbn [ex_value ex_messages]. rewrite report_warnings_run. run_monad.
  fold (target ip op).
  match goal with
  | |- context [fs_writeFile env fs (target ip op) ?c] =>
      set (content := c);
      destruct (fs_writeFile env fs (target ip op) content) as [e0|fs1] eqn:Ewr
  end; run_monad; [|discriminate].
  intros H. injection H as <- _. right. right. exists content. exact Ewr.
Qed.

(** * Destinations of plain file names *)

Lemma forallb_rev (p : char -> bool) (s : jsstring) :
  forallb p s = true -> forallb p (rev s) = true.
Proof.
  intros H. rewrite forallb_forall in *. intros x Hx. apply H. apply in_rev. exact Hx.
Qed.

Lemma jsstring_eqb_length a b :
  List.length a <> List.length b -> Path.jsstring_eqb a b = false.
Proof.
  intros H. destruct (Path.jsstring_eqb a b) eqn:E; [|reflexivity].
  apply jsstring_eqb_eq in E. subst. contradiction.
Qed.

Lemma split_slash_no_slash s : forall acc,
  forallb (fun c => negb (Path.is_slash c)) s = true ->
  Path.split_slash acc s = [rev acc ++ s].
Proof.
  induction s as [|c s IH]; intros acc H.
  - simpl. rewrite app_nil_r. reflexivity.
  - simpl in H. apply andb_prop in H. destruct H as [Hc Hs].
    cbn [Path.split_slash]. destruct (Path.is_slash c); [discriminate|].
    rewrite IH by exact Hs. cbn [rev]. rewrite <- app_assoc. reflexivity.
Qed.

Lemma plain_name_no_slash stem ext :
  plain_name stem ext ->
  forallb (fun c => negb (Path.is_slash c)) (stem ++ DOT :: ext) = true.
Proof.
  intros (_ & Hs & He & _). rewrite forallb_app, Hs. cbn [forallb andb].
  rewrite He. reflexivity.
Qed.

(** The extension of a plain name is what follows its last dot. *)
Lemma extname_plain stem ext :
  plain_name stem ext -> Path.extname (stem ++ DOT :: ext) = DOT :: ext.
Proof.
  intros Hp. pose proof (plain_name_no_slash stem ext Hp) as Hns.
  destruct Hp as (Hne & Hs & He & Hd & Hdd).
  unfold Path.extname. rewrite (component_no_slash _ Hns).
  assert (Hafter : Path.take_while (fun x => negb (Path.is_dot_char x))
                     (rev (stem ++ DOT :: ext)) = rev ext).
  { rewrite rev_app_distr. cbn [rev]. rewrite <- app_assoc. cbn [app].
    apply take_while_app_stop; [apply forallb_rev; exact Hd | reflexivity]. }
  rewrite Hafter, length_rev, length_app. cbn [List.length].
  destruct (Nat.eqb_spec (List.length ext) (List.length stem + S (List.length ext)));
    [lia|].
  destruct (Nat.eqb_spec (S (List.length ext))
              (List.length stem + S (List.length ext))) as [E|_].
  { destruct stem; [contradiction | simpl in E; lia]. }
  destruct (Path.jsstring_eqb (stem ++ DOT :: ext) [DOT; DOT]) eqn:Edd.
  { apply jsstring_eqb_eq in Edd. contradiction. }
  replace (List.length stem + S (List.length ext) - S (List.length ext))
    with (List.length stem) by lia.
  apply skipn_app_exact.
Qed.

(** Its base name without the extension is its stem. *)
Lemma basename_plain stem ext :
  plain_name stem ext ->
  Path.basename (stem ++ DOT :: ext) (Path.extname (stem ++ DOT :: ext)) = stem.
Proof.
  intros Hp. rewrite (extname_plain stem ext Hp).
  pose proof (plain_name_no_slash stem ext Hp) as Hns.
  destruct Hp as (Hne & _).
  unfold Path.basename. rewrite (component_no_slash _ Hns).
  assert (Hlen : List.length stem <> 0) by (destruct stem; [contradiction | simpl; lia]).
  rewrite jsstring_eqb_length
    by (rewrite length_app; cbn [List.length]; lia).
  rewrite length_app. cbn [List.length].
  replace (List.length stem + S (List.length ext) - S (List.length ext))
    with (List.length stem) by lia.
  rewrite skipn_app_exact, firstn_app_exact.
  destruct (Nat.ltb_spec (S (List.length ext)) (List.length stem + S (List.length ext)));
    [|lia].
  cbn [andb].
  destruct (Path.jsstring_eqb (DOT :: ext) (DOT :: ext)) eqn:E; [reflexivity|].
  assert (E' : Path.jsstring_eqb (DOT :: ext) (DOT :: ext) = true)
    by (apply jsstring_eqb_eq; reflexivity).
  rewrite E' in E. discriminate.
Qed.

(** A name without separator lies in the directory [.]. *)
Lemma dirname_no_slash name :
  name <> [] -> forallb (fun c => negb (Path.is_slash c)) name = true ->
  Path.dirname name = [DOT].
Proof.
  intros Hne H. destruct name as [|c0 tl]; [contradiction|].
  simpl in H. apply andb_prop in H. destruct H as [Hc Htl].
  unfold Path.dirname.
  assert (Hr : forallb (fun c => negb (Path.is_slash c)) (rev tl) = true)
    by (apply forallb_rev; exact Htl).
  rewrite (drop_while_id Path.is_slash (rev tl)).
  - assert (Hd : drop_while (fun c => negb (Path.is_slash c)) (rev tl) = []).
    { clear -Hr. induction (rev tl) as [|c r IH]; [reflexivity|].
      simpl in Hr. apply andb_prop in Hr. destruct Hr as [Hc Hr].
      cbn [drop_while]. rewrite Hc. exact (IH Hr). }
    rewrite Hd. destruct (Path.is_slash c0); [discriminate | reflexivity].
  - destruct (rev tl) as [|c r]; [exact I|]. simpl in Hr.
    apply andb_prop in Hr. destruct Hr as [Hc' _].
    destruct (Path.is_slash c); [discriminate | reflexivity].
Qed.

(** Joining [.] and a name of five code units or more, without separator,
    gives the name. *)
Lemma join_dot_name name :
  5 <= List.length name ->
  forallb (fun c => negb (Path.is_slash c)) name = true ->
  Path.join [DOT] name = name.
Proof.
  intros Hlen Hns.
  assert (Ej : Path.join [DOT] name = Path.normalize (DOT :: SLASH :: name)).
  { destruct name; [simpl in Hlen; lia | reflexivity]. }
  rewrite Ej. unfold Path.normalize.
  change (Path.is_slash DOT) with false. cbn [negb].
  cbn [Path.split_slash]. change (Path.is_slash DOT) with false.
  change (Path.is_slash SLASH) with true. cbv iota.
  rewrite (split_slash_no_slash name [] Hns). cbn [rev app Path.resolve].
  change (Path.jsstring_eqb [DOT] []) with false.
  change (Path.jsstring_eqb [DOT] [DOT]) with true. cbn [orb].
  rewrite (jsstring_eqb_length name []) by (simpl; lia).
  rewrite (jsstring_eqb_length name [DOT]) by (simpl; lia).
  rewrite (jsstring_eqb_length name [DOT; DOT]) by (simpl; lia).
  cbn [orb rev app Path.join_slash].
  assert (Hlast : match rev (DOT :: SLASH :: name) with
                  | c :: _ => Path.is_slash c
                  | [] => false
                  end = false).
  { cbn [rev]. rewrite <- !app_assoc.
    pose proof (forallb_rev _ _ Hns) as Hr.
    destruct (rev name) as [|c r] eqn:Er.
    - apply (f_equal (@List.length char)) in Er. rewrite length_rev in Er.
      simpl in Er. lia.
    - cbn [app]. simpl in Hr. apply andb_prop in Hr. destruct Hr as [Hc _].
      destruct (Path.is_slash c); [discriminate | reflexivity]. }
  cbn [rev] in Hlast. rewrite Hlast.
  destruct name; [simpl in Hlen; lia | reflexivity].
Qed.

(** ** The download name of the upload endpoint *)

Lemma ci_eqb_lower l c :
  (97 <= l <= 122)%N -> ci_eqb l c = N.eqb (lower c) l.
Proof.
  intros Hl. unfold ci_eqb, lower, in_range.
  destruct (N.leb_spec 65 c); destruct (N.leb_spec c 90); cbn [andb];
    destruct (N.eqb_spec c l); destruct (N.eqb_spec c (l - 32));
    cbn [orb]; symmetry;
    first [reflexivity | exfalso; lia | apply N.eqb_eq; lia | apply N.eqb_neq; lia].
Qed.

Lemma dot_eqb_lower c : N.eqb c DOT = N.eqb (lower c) DOT.
Proof.
  unfold lower, in_range, DOT.
  destruct (N.leb_spec 65 c); destruct (N.leb_spec c 90); cbn [andb];
    destruct (N.eqb_spec c 46); symmetry;
    first [reflexivity | exfalso; lia | apply N.eqb_eq; lia | apply N.eqb_neq; lia].
Qed.

(** The attempt succeeds on the five code units that lower-case to
    [.docx], and on nothing else. *)
Lemma docx_at_end_spec s :
  docx_at_end s = Path.jsstring_eqb (toLowerCase s) (str ".docx").
Proof.
  destruct s as [|a [|b [|c [|d [|e [|f s]]]]]];
    try (symmetry; apply jsstring_eqb_length; simpl; lia).
  cbn [docx_at_end]. rewrite !ci_eqb_lower by lia. rewrite dot_eqb_lower.
  cbn [toLowerCase map].
  destruct (N.eqb_spec (lower a) DOT) as [->|Ha]; cbn [andb].
  2:{ symmetry. destruct (Path.jsstring_eqb _ _) eqn:E; [|reflexivity].
      apply jsstring_eqb_eq in E. injection E as E _. contradiction. }
  destruct (N.eqb_spec (lower b) 100) as [->|Hb]; cbn [andb].
  2:{ symmetry. destruct (Path.jsstring_eqb _ _) eqn:E; [|reflexivity].
      apply jsstring_eqb_eq in E. injection E as E _. contradiction. }
  destruct (N.eqb_spec (lower c) 111) as [->|Hc]; cbn [andb].
  2:{ symmetry. destruct (Path.jsstring_eqb _ _) eqn:E; [|reflexivity].
      apply jsstring_eqb_eq in E. injection E as E _. contradiction. }
  destruct (N.eqb_spec (lower d) 99) as [->|Hd]; cbn [andb].
  2:{ symmetry. destruct (Path.jsstring_eqb _ _) eqn:E; [|reflexivity].
      apply jsstring_eqb_eq in E. injection E as E _. contradiction. }
  destruct (N.eqb_spec (lower e) 120) as [->|He].
  2:{ symmetry. destruct (Path.jsstring_eqb _ _) eqn:E; [|reflexivity].
      apply jsstring_eqb_eq in E. injection E as E. contradiction. }
  reflexivity.
Qed.

Lemma docx_at_end_length s : docx_at_end s = true -> List.length s = 5.
Proof.
  destruct s as [|a [|b [|c [|d [|e [|f s]]]]]]; try discriminate. reflexivity.
Qed.

Lemma replace_docx_suffix_hit u : forall v,
  docx_at_end v = true -> replace_docx_suffix (u ++ v) = u ++ str ".mdx".
Proof.
  induction u as [|c u IH]; intros v Hv.
  - cbn [app]. destruct v; cbn [replace_docx_suffix]; rewrite Hv; reflexivity.
  - cbn [app replace_docx_suffix].
    destruct (docx_at_end (c :: u ++ v)) eqn:E.
    + apply docx_at_end_length in E. apply docx_at_end_length in Hv.
      cbn [List.length] in E. rewrite length_app in E. lia.
    + rewrite IH by exact Hv. reflexivity.
Qed.

Lemma replace_docx_suffix_miss s :
  (forall u v, s = u ++ v -> docx_at_end v = false) ->
  replace_docx_suffix s = s.
Proof.
  induction s as [|c s IH]; intros H.
  - cbn [replace_docx_suffix]. rewrite (H [] [] eq_refl). reflexivity.
  - cbn [replace_docx_suffix]. rewrite (H [] (c :: s) eq_refl).
    rewrite IH; [reflexivity|].
    intros u v E. apply (H (c :: u) v). rewrite E. reflexivity.
Qed.

Lemma endsWith_split s suffix :
  endsWith s suffix = true <-> exists u, s = u ++ suffix.
Proof.
  unfold endsWith. split.
  - intros H. apply andb_prop in H. destruct H as [_ H].
    apply jsstring_eqb_eq in H.
    set (n := List.length s - List.length suffix) in *.
    exists (firstn n s). rewrite <- H. symmetry. apply firstn_skipn.
  - intros [u ->]. rewrite length_app. apply andb_true_intro. split.
    + apply Nat.leb_le. lia.
    + apply jsstring_eqb_eq.
      replace (List.length u + List.length suffix - List.length suffix)
        with (List.length u) by lia.
      apply skipn_app_exact.
Qed.

(** The destination derived for a plain name. *)
Lemma derived_output_plain stem ext :
  plain_name stem ext -> derived_output (stem ++ DOT :: ext) = stem ++ str ".mdx".
Proof.
  intros Hp. pose proof (plain_name_no_slash stem ext Hp) as Hns.
  unfold derived_output. rewrite (basename_plain stem ext Hp).
  destruct Hp as (Hne & Hs & _).
  rewrite dirname_no_slash; [|destruct stem; discriminate | exact Hns].
  apply join_dot_name.
  - rewrite length_app. change (List.length (str ".mdx")) with 4.
    destruct stem; [contradiction | simpl; lia].
  - rewrite forallb_app, Hs. reflexivity.
Qed.

(** * Properties of the post-processor beyond the claims *)

(** X1: whatever the input, the second application of the post-processor
    gives a text that every further application leaves as it is. *)
Theorem post_process_settles s :
  postProcessForMdx (postProcessForMdx (postProcessForMdx s)) =
  postProcessForMdx (postProcessForMdx s).
Proof.
  change (postProcessForMdx (postProcessForMdx s))
    with (trim (rewrite_all (postProcessForMdx s))).
  apply trim_settled_fixed.
  - apply rewrite_all_settled.
  - apply rewrite_all_lead. apply trim_lead.
Qed.

(** X2: the chain of the four replacements, without the final trimming, is
    idempotent on every input. *)
Theorem rewrite_all_idem s : rewrite_all (rewrite_all s) = rewrite_all s.
Proof. apply settled_fixed. apply rewrite_all_settled. Qed.

(** X3: the output of the post-processor neither begins nor ends with a
    blank and holds no three line feeds in a row. *)
Theorem post_process_shape s :
  no_lead (postProcessForMdx s)
  /\ ends_well (postProcessForMdx s)
  /\ forall a b, postProcessForMdx s <> a ++ LF :: LF :: LF :: b.
Proof.
  change (postProcessForMdx s) with (trim (rewrite_all s)).
  split; [apply trim_lead|]. split; [apply trim_ends_well|].
  intros a b. apply no3_spec. apply trim_no3.
  destruct (rewrite_all_settled s) as (H & _). exact H.
Qed.

(** X4: the post-processor never makes a text longer. *)
Theorem post_process_length s :
  List.length (postProcessForMdx s) <= List.length s.
Proof.
  change (postProcessForMdx s) with (trim (rewrite_all s)).
  pose proof (trim_length (rewrite_all s)). pose proof (rewrite_all_length s). lia.
Qed.

(** X5: the post-processor adds and removes blanks only: the code units of
    the output that are not blanks are those of the input, in order. *)
Theorem post_process_keeps_content s :
  nonspace (postProcessForMdx s) = nonspace s.
Proof.
  change (postProcessForMdx s) with (trim (rewrite_all s)).
  rewrite trim_nonspace. apply rewrite_all_nonspace.
Qed.

(** X6: a text without a backtick, a hyphen or a hash sign and without
    three line feeds in a row is only trimmed. *)
Theorem plain_text_only_trimmed s :
  no3 0 s = true -> ~ In BT s -> ~ In DASH s -> ~ In HASH s ->
  postProcessForMdx s = trim s.
Proof.
  intros H3 Hbt Hdash Hhash.
  change (postProcessForMdx s) with (trim (rewrite_all s)).
  rewrite rewrite_all_plain by assumption. reflexivity.
Qed.

Lemma plain_text_only_trimmed_witness :
  postProcessForMdx (str " Some text." ++ [LF; LF] ++ str "More text. " ++ [LF])
  = str "Some text." ++ [LF; LF] ++ str "More text.".
Proof.
  apply (plain_text_only_trimmed
           (str " Some text." ++ [LF; LF] ++ str "More text. " ++ [LF])).
  - reflexivity.
  - vm_compute. intros H. repeat (destruct H as [H|H]; [discriminate H|]). exact H.
  - vm_compute. intros H. repeat (destruct H as [H|H]; [discriminate H|]). exact H.
  - vm_compute. intros H. repeat (destruct H as [H|H]; [discriminate H|]). exact H.
Defined.

(** X7: a text made of blanks only, the empty text among them, is
    post-processed to the empty text. *)
Theorem blank_text_to_empty s :
  forallb is_space s = true -> postProcessForMdx s = [].
Proof.
  intros Hs.
  assert (Hn : nonspace (postProcessForMdx s) = []).
  { change (postProcessForMdx s) with (trim (rewrite_all s)).
    rewrite trim_nonspace, rewrite_all_nonspace. exact (nonspace_blank s Hs). }
  pose proof (trim_lead (rewrite_all s)) as Hl.
  change (trim (rewrite_all s)) with (postProcessForMdx s) in Hl.
  destruct (postProcessForMdx s) as [|c r]; [reflexivity|].
  simpl in Hl. rewrite nonspace_cons, Hl in Hn. discriminate Hn.
Qed.

Lemma blank_text_to_empty_witness :
  forallb is_space (SP :: LF :: LF :: LF :: LF :: [SP]) = true
  /\ postProcessForMdx (SP :: LF :: LF :: LF :: LF :: [SP]) = [].
Proof.
  split; [reflexivity|].
  apply (blank_text_to_empty (SP :: LF :: LF :: LF :: LF :: [SP])). reflexivity.
Defined.

(** X8: step 1 puts two line feeds in the place of a run of three or more,
    and rewrites what stands before the run and what stands after it
    independently of each other. *)
Theorem blank_lines_collapsed a n b :
  3 <= n -> ends_no_lf a -> prefix_len is_lf b = 0 ->
  step1 (a ++ repeat LF n ++ b) = step1 a ++ LF :: LF :: step1 b.
Proof.
  intros Hn Ha Hb.
  apply (rw1_fun _ _ (rw1_app a (step1 a) (rw1_scan a None) Ha
                        (repeat LF n ++ b) (LF :: LF :: step1 b)
                        (rw1_hit n b (step1 b) Hn Hb (rw1_scan b None))) None).
Qed.

Lemma blank_lines_collapsed_witness :
  3 <= 4 /\ ends_no_lf (str "a") /\ prefix_len is_lf (str "b") = 0
  /\ step1 (str "a" ++ repeat LF 4 ++ str "b") = str "a" ++ LF :: LF :: str "b".
Proof.
  split; [lia|]. split; [reflexivity|]. split; [reflexivity|].
  apply (blank_lines_collapsed (str "a") 4 (str "b")); [lia | reflexivity | reflexivity].
Defined.



(** * Properties of the orchestrator beyond the claims *)

(** X9: when the source exists, the extraction succeeds and the file can be
    written, a single-file conversion writes once, to the destination given
    or, without one (none, or the empty string), to the derived one; what it
    writes is the front matter followed by the post-processed rendering of
    the extracted HTML; it returns the path written to.  The warnings of the
    extraction are printed in order, under a header, before the rendering. *)
Theorem convert_success FS (env : collaborators FS) ip op (w : world FS)
    html msgs fs1 :
  fs_exists env (w_fs w) ip = true ->
  convertToHtml env (w_fs w) ip = inr (Extraction html msgs) ->
  let pre := [EvLog (MsgReading ip); EvAccess ip; EvExtract ip] ++
             warning_events msgs ++ [EvLog MsgConverting; EvRender html] in
  let content :=
    addMdxFrontmatter (toISOString env (List.length (w_trace w ++ pre)))
      (postProcessForMdx (turndown env html)) ip in
  fs_writeFile env (w_fs w) (target ip op) content = inr fs1 ->
  convertDocxToMdx env ip op w =
  (inr (target ip op),
   World fs1 (w_trace w ++ pre ++
              [EvWriteFile (target ip op) content; EvLog (MsgSuccess (target ip op))])).
Proof.
  intros Hex Hcv pre content Hwr. destruct w as [fs tr]. cbn [w_fs w_trace] in *.
  unfold convertDocxToMdx. run_monad. rewrite Hex. run_monad. rewrite Hcv.
  run_monad. cbn [ex_value ex_messages]. rewrite report_warnings_run. run_monad.
  fold (target ip op).
  replace ((((((tr ++ [EvLog (MsgReading ip)]) ++ [EvAccess ip]) ++ [EvExtract ip])
               ++ warning_events msgs) ++ [EvLog MsgConverting]) ++ [EvRender html])
    with (tr ++ pre)
    by (unfold pre; rewrite <- !app_assoc; reflexivity).
  fold content. rewrite Hwr. run_monad.
  rewrite <- !app_assoc. reflexivity.
Qed.

Lemma convert_success_witness :
  convertDocxToMdx mem_env (str "docs/a.docx") None (World docs_fs []) =
  (inr (str "docs/a.mdx"),
   World (MemFs (mf_listing docs_fs)
            ((str "docs/a.mdx",
              addMdxFrontmatter (str "2024-05-06T07:08:09.000Z")
                (str "<h1>Title</h1>") (str "docs/a.docx")) :: mf_files docs_fs))
     [EvLog (MsgReading (str "docs/a.docx")); EvAccess (str "docs/a.docx");
      EvExtract (str "docs/a.docx"); EvLog MsgConverting;
      EvRender (str "<h1>Title</h1>");
      EvWriteFile (str "docs/a.mdx")
        (addMdxFrontmatter (str "2024-05-06T07:08:09.000Z")
           (str "<h1>Title</h1>") (str "docs/a.docx"));
      EvLog (MsgSuccess (str "docs/a.mdx"))]).
Proof.
  exact (convert_success mem_fs mem_env (str "docs/a.docx") None (World docs_fs [])
           (str "<h1>Title</h1>") [] _ eq_refl eq_refl eq_refl).
Defined.

(** X10: a single-file conversion that fails prints the error once, as its
    last line, and throws that same error; nothing is announced as
    converted.  The error is the missing source, and then nothing was
    extracted or written; or the error of the extraction, and then nothing
    was written; or the error of the one write to the destination. *)
Theorem convert_failure FS (env : collaborators FS) ip op (w : world FS) e w' :
  convertDocxToMdx env ip op w = (inl e, w') ->
  exists mid,
    w_trace w' = w_trace w ++ mid ++ [EvLog (MsgErrorConverting e)] /\
    successes mid = [] /\
    ((fs_exists env (w_fs w) ip = false /\ e = NotFoundError ip /\
      extractions mid = [] /\ writes mid = [])
     \/ (fs_exists env (w_fs w) ip = true /\
         convertToHtml env (w_fs w) ip = inl e /\ writes mid = [])
     \/ (exists content,
           fs_writeFile env (w_fs w) (target ip op) content = inl e /\
           writes mid = [target ip op])).
Proof.
  destruct w as [fs tr]. cbn [w_fs w_trace]. unfold convertDocxToMdx. run_monad.
  destruct (fs_exists env fs ip) eqn:Eex; run_monad.
  2:{ intros H. injection H as <- <-. cbn [w_fs w_trace].
      exists [EvLog (MsgReading ip); EvAccess ip].
      split; [rewrite <- !app_assoc; reflexivity|]. split; [reflexivity|].
      left. repeat split. }
  destruct (convertToHtml env fs ip) as [e0|[html msgs]] eqn:Ecv; run_monad.
  { intros H. injection H as <- <-. cbn [w_fs w_trace].
    exists [EvLog (MsgReading ip); EvAccess ip; EvExtract ip].
    split; [rewrite <- !app_assoc; reflexivity|]. split; [reflexivity|].
    right. left. repeat split. }
  cbn [ex_value ex_messages]. rewrite report_warnings_run. run_monad.
  fold (target ip op).
  match goal with
  | |- context [fs_writeFile env fs (target ip op) ?c] =>
      set (content := c);
      destruct (fs_writeFile env fs (target ip op) content) as [e0|fs1] eqn:Ewr
  end; run_monad; [|discriminate].
  intros H. injection H as <- <-. cbn [w_fs w_trace].
  exists ([EvLog (MsgReading ip); EvAccess ip; EvExtract ip] ++ warning_events msgs ++
          [EvLog MsgConverting; EvRender html; EvWriteFile (target ip op) content]).
  split; [rewrite <- !app_assoc; reflexivity|].
  unfold successes, writes. cbn [pick app].
  rewrite !pick_app, !pick_warning_events by reflexivity.
  split; [reflexivity|]. right. right. exists content. split; [exact Ewr | reflexivity].
Qed.

Lemma convert_failure_witness :
  convertDocxToMdx ro_env (str "docs/a.docx") None (World docs_fs []) =
    (inl (IOError (str "read-only storage")),
     World docs_fs
       [EvLog (MsgReading (str "docs/a.docx")); EvAccess (str "docs/a.docx");
        EvExtract (str "docs/a.docx"); EvLog MsgConverting;
        EvRender (str "<h1>Title</h1>");
        EvWriteFile (str "docs/a.mdx")
          (addMdxFrontmatter (str "2024-05-06T07:08:09.000Z")
             (str "<h1>Title</h1>") (str "docs/a.docx"));
        EvLog (MsgErrorConverting (IOError (str "read-only storage")))])
  /\ exists mid,
    [EvLog (MsgReading (str "docs/a.docx")); EvAccess (str "docs/a.docx");
     EvExtract (str "docs/a.docx"); EvLog MsgConverting;
     EvRender (str "<h1>Title</h1>");
     EvWriteFile (str "docs/a.mdx")
       (addMdxFrontmatter (str "2024-05-06T07:08:09.000Z")
          (str "<h1>Title</h1>") (str "docs/a.docx"));
     EvLog (MsgErrorConverting (IOError (str "read-only storage")))]
    = [] ++ mid ++ [EvLog (MsgErrorConverting (IOError (str "read-only storage")))] /\
    successes mid = [] /\
    ((fs_exists ro_env docs_fs (str "docs/a.docx") = false /\
      IOError (str "read-only storage") = NotFoundError (str "docs/a.docx") /\
      extractions mid = [] /\ writes mid = [])
     \/ (fs_exists ro_env docs_fs (str "docs/a.docx") = true /\
         convertToHtml ro_env docs_fs (str "docs/a.docx")
           = inl (IOError (str "read-only storage")) /\ writes mid = [])
     \/ (exists content,
           fs_writeFile ro_env docs_fs (target (str "docs/a.docx") None) content
             = inl (IOError (str "read-only storage")) /\
           writes mid = [target (str "docs/a.docx") None])).
Proof.
  assert (H : convertDocxToMdx ro_env (str "docs/a.docx") None (World docs_fs []) =
    (inl (IOError (str "read-only storage")),
     World docs_fs
       [EvLog (MsgReading (str "docs/a.docx")); EvAccess (str "docs/a.docx");
        EvExtract (str "docs/a.docx"); EvLog MsgConverting;
        EvRender (str "<h1>Title</h1>");
        EvWriteFile (str "docs/a.mdx")
          (addMdxFrontmatter (str "2024-05-06T07:08:09.000Z")
             (str "<h1>Title</h1>") (str "docs/a.docx"));
        EvLog (MsgErrorConverting (IOError (str "read-only storage")))]))
    by (vm_compute; reflexivity).
  split; [exact H|].
  exact (convert_failure mem_fs ro_env _ _ _ _ _ H).
Defined.

(** X11: a directory that cannot be listed makes the batch fail with the
    error of the listing, printed once; no file is looked at and the
    storage is left as it was. *)
Theorem unlistable_directory FS (env : collaborators FS) inputDir outputDir
    (w : world FS) e :
  fs_readdir env (w_fs w) inputDir = inl e ->
  convertDirectory env inputDir outputDir w =
  (inl e,
   World (w_fs w)
     (w_trace w ++ [EvLog (MsgProcessingDirectory inputDir); EvReaddir inputDir;
                    EvLog (MsgErrorProcessingDirectory e)])).
Proof.
  intros Hrd. destruct w as [fs tr]. cbn [w_fs w_trace] in *.
  unfold convertDirectory. run_monad. rewrite Hrd. run_monad.
  rewrite <- !app_assoc. reflexivity.
Qed.

Lemma unlistable_directory_witness :
  convertDirectory mem_env (str "nowhere") None (World docs_fs []) =
  (inl (NotFoundError (str "nowhere")),
   World docs_fs
     [EvLog (MsgProcessingDirectory (str "nowhere")); EvReaddir (str "nowhere");
      EvLog (MsgErrorProcessingDirectory (NotFoundError (str "nowhere")))]).
Proof.
  exact (unlistable_directory mem_fs mem_env (str "nowhere") None (World docs_fs [])
           (NotFoundError (str "nowhere")) eq_refl).
Defined.

(** X12: the batch throws only the error of the listing or an error of
    [fs.mkdir] on the destination directory; no failure of a conversion
    makes it throw. *)
Theorem batch_failure_origin FS (env : collaborators FS) inputDir outputDir
    (w : world FS) e w' :
  convertDirectory env inputDir outputDir w = (inl e, w') ->
  fs_readdir env (w_fs w) inputDir = inl e \/
  (falsy outputDir = false /\
   exists fs, fs_mkdir env fs (attr_or_empty outputDir) = inl e).
Proof.
  destruct w as [fs tr]. cbn [w_fs w_trace]. unfold convertDirectory. run_monad.
  destruct (fs_readdir env fs inputDir) as [e0|files] eqn:Erd; run_monad.
  - intros H. injection H as <- _. left. reflexivity.
  - destruct (filter is_docx files) as [|f0 fl]; run_monad; [discriminate|].
    match goal with
    | |- context [convert_each env inputDir outputDir ?l ?acc ?w0] =>
        destruct (convert_each env inputDir outputDir l acc w0) as [[e1|outs] w1] eqn:Ee
    end; run_monad; [|discriminate].
    intros H. injection H as <- _. right.
    exact (convert_each_throws FS env _ _ _ _ _ _ _ Ee).
Qed.

Lemma batch_failure_origin_witness :
  fs_readdir mem_env (w_fs (World docs_fs [])) (str "nowhere")
    = inl (NotFoundError (str "nowhere")) \/
  (falsy None = false /\
   exists fs, fs_mkdir mem_env fs (attr_or_empty None)
              = inl (NotFoundError (str "nowhere"))).
Proof.
  exact (batch_failure_origin mem_fs mem_env (str "nowhere") None (World docs_fs [])
           (NotFoundError (str "nowhere")) _ eq_refl).
Defined.

(** X13: with a destination directory that cannot be created the batch
    stops at its first eligible file: it throws the error of [fs.mkdir]
    before any source is read. *)
Theorem mkdir_failure_aborts FS (env : collaborators FS) inputDir outputDir
    (w : world FS) files e :
  fs_readdir env (w_fs w) inputDir = inr files ->
  filter is_docx files <> [] ->
  falsy outputDir = false ->
  fs_mkdir env (w_fs w) (attr_or_empty outputDir) = inl e ->
  convertDirectory env inputDir outputDir w =
  (inl e,
   World (w_fs w)
     (w_trace w ++ [EvLog (MsgProcessingDirectory inputDir); EvReaddir inputDir;
                    EvMkdir (attr_or_empty outputDir);
                    EvLog (MsgErrorProcessingDirectory e)])).
Proof.
  intros Hrd Hne Hf Hmk. destruct w as [fs tr]. cbn [w_fs w_trace] in *.
  unfold convertDirectory. run_monad. rewrite Hrd.
  destruct (filter is_docx files) as [|f0 fl]; [contradiction|].
  cbn [convert_each]. rewrite Hf. run_monad. rewrite Hmk. run_monad.
  rewrite <- !app_assoc. reflexivity.
Qed.

Lemma mkdir_failure_aborts_witness :
  convertDirectory ro_env (str "docs") (Some (str "out")) (World docs_fs []) =
  (inl (IOError (str "read-only storage")),
   World docs_fs
     [EvLog (MsgProcessingDirectory (str "docs")); EvReaddir (str "docs");
      EvMkdir (str "out");
      EvLog (MsgErrorProcessingDirectory (IOError (str "read-only storage")))]).
Proof.
  apply (mkdir_failure_aborts mem_fs ro_env (str "docs") (Some (str "out"))
           (World docs_fs []) [str "a.docx"; str "~temp.docx"; str "b.txt"]
           (IOError (str "read-only storage"))).
  - reflexivity.
  - vm_compute. discriminate.
  - reflexivity.
  - reflexivity.
Defined.



(** X15: a batch reaches no file but the eligible entries of the directory:
    every path it checks or extracts is an eligible entry joined to the
    directory, and every path it writes to is the destination of one. *)
Theorem batch_touches_only_eligible FS (env : collaborators FS) inputDir outputDir
    (w : world FS) files :
  fs_readdir env (w_fs w) inputDir = inr files ->
  exists r fs' mid,
    convertDirectory env inputDir outputDir w = (r, World fs' (w_trace w ++ mid)) /\
    (forall p, In p (accesses mid) \/ In p (extractions mid) ->
               exists file, In file files /\ is_docx file = true /\
                            p = Path.join inputDir file) /\
    (forall p, In p (writes mid) ->
               exists file, In file files /\ is_docx file = true /\
                            p = batch_target inputDir outputDir file).
Proof.
  intros Hrd.
  destruct (convertDirectory_calls FS env inputDir outputDir w files Hrd)
    as (r & fs' & mid & Hrun & Ha & He & Hw & _).
  exists r, fs', mid. split; [exact Hrun|]. split.
  - intros p [Hp|Hp]; [apply Ha in Hp | apply He in Hp];
      apply in_map_iff in Hp; destruct Hp as (file & <- & Hin);
      apply filter_In in Hin; exists file; tauto.
  - intros p Hp. apply Hw in Hp.
    apply in_map_iff in Hp. destruct Hp as (file & <- & Hin).
    apply filter_In in Hin. exists file. tauto.
Qed.

Lemma batch_touches_only_eligible_witness :
  exists r fs' mid,
    convertDirectory mem_env (str "docs") None (World docs_fs []) =
      (r, World fs' (w_trace (World docs_fs []) ++ mid)) /\
    (forall p, In p (accesses mid) \/ In p (extractions mid) ->
               exists file,
                 In file [str "a.docx"; str "~temp.docx"; str "b.txt"] /\
                 is_docx file = true /\ p = Path.join (str "docs") file) /\
    (forall p, In p (writes mid) ->
               exists file,
                 In file [str "a.docx"; str "~temp.docx"; str "b.txt"] /\
                 is_docx file = true /\ p = batch_target (str "docs") None file).
Proof.
  exact (batch_touches_only_eligible mem_fs mem_env (str "docs") None
           (World docs_fs []) [str "a.docx"; str "~temp.docx"; str "b.txt"] eq_refl).
Defined.

(** X16: a destination given as the empty string counts as no destination,
    for a single file and for a batch alike. *)
Theorem empty_destination_is_none FS (env : collaborators FS) path (w : world FS) :
  convertDocxToMdx env path (Some []) w = convertDocxToMdx env path None w
  /\ convertDirectory env path (Some []) w = convertDirectory env path None w.
Proof.
  split; [reflexivity|].
  unfold convertDirectory, try_catch, bind.
  destruct (log _ w) as [[e|u] w1]; [reflexivity|].
  destruct (readdir env path w1) as [[e|files] w2]; [reflexivity|].
  destruct (filter is_docx files) as [|f0 fl]; [reflexivity|].
  rewrite convert_each_empty_output. reflexivity.
Qed.

(** * The command-line action *)



(** X18: the action exits with status 1 and with no other status; the error
    it prints is the error of [fs.stat], or, for a directory, that of the
    listing or of [fs.mkdir], or, for a file, the missing source, the error
    of the extraction or that of the write.  When [fs.stat] fails nothing
    has been attempted. *)
Theorem action_exit_origin FS (env : collaborators FS) fs_stat input opts
    (w : world FS) code e w' :
  action env fs_stat input opts w = (Exited code e, w') ->
  code = 1 /\
  ((fs_stat (w_fs w) input = inl e /\ w' = w)
   \/ (exists isDirectory,
         fs_stat (w_fs w) input = inr isDirectory /\
         (isDirectory || opt_directory opts)%bool = true /\
         (fs_readdir env (w_fs w) input = inl e \/
          (falsy (opt_output opts) = false /\
           exists fs, fs_mkdir env fs (attr_or_empty (opt_output opts)) = inl e)))
   \/ (fs_stat (w_fs w) input = inr false /\ opt_directory opts = false /\
       ((fs_exists env (w_fs w) input = false /\ e = NotFoundError input)
        \/ convertToHtml env (w_fs w) input = inl e
        \/ exists content,
             fs_writeFile env (w_fs w) (target input (opt_output opts)) content
             = inl e))).
Proof.
  unfold action, stat, bind.
  destruct (fs_stat (w_fs w) input) as [e0|isDirectory] eqn:Est.
  - intros H. injection H as <- <- <-. split; [reflexivity|]. left.
    split; reflexivity.
  - destruct (isDirectory || opt_directory opts)%bool eqn:Edir.
    + destruct (convertDirectory env input (opt_output opts) w) as [[e1|outs] w1] eqn:Ed;
        [|discriminate].
      intros H. injection H as <- <- <-. split; [reflexivity|]. right. left.
      exists isDirectory. split; [reflexivity|]. split; [exact Edir|].
      revert Ed. destruct w as [fs tr]. cbn [w_fs w_trace].
      unfold convertDirectory. run_monad.
      destruct (fs_readdir env fs input) as [e0|files] eqn:Erd; run_monad.
      * intros H. injection H as <- _. left. reflexivity.
      * destruct (filter is_docx files) as [|f0 fl]; run_monad; [discriminate|].
        match goal with
        | |- context [convert_each env input ?od ?l ?acc ?w0] =>
            destruct (convert_each env input od l acc w0) as [[e2|outs] w2] eqn:Ee
        end; run_monad; [|discriminate].
        intros H. injection H as <- _. right.
        exact (convert_each_throws FS env _ _ _ _ _ _ _ Ee).
    + apply orb_false_elim in Edir. destruct Edir as [-> Eopt].
      destruct (convertDocxToMdx env input (opt_output opts) w) as [[e1|out] w1] eqn:Ec;
        [|discriminate].
      intros H. injection H as <- <- <-. split; [reflexivity|]. right. right.
      split; [reflexivity|]. split; [exact Eopt|].
      exact (convert_throws FS env _ _ _ _ _ Ec).
Qed.

Lemma action_exit_origin_witness :
  action mem_env mem_stat (str "in/bad.docx") (Options None false) (World mixed_fs [])
  = (Exited 1 (ExtractionError (str "empty document")),
     World mixed_fs
       [EvLog (MsgReading (str "in/bad.docx")); EvAccess (str "in/bad.docx");
        EvExtract (str "in/bad.docx");
        EvLog (MsgErrorConverting (ExtractionError (str "empty document")))])
  /\ 1 = 1.
Proof.
  assert (H : action mem_env mem_stat (str "in/bad.docx") (Options None false)
                (World mixed_fs [])
              = (Exited 1 (ExtractionError (str "empty document")),
                 World mixed_fs
                   [EvLog (MsgReading (str "in/bad.docx"));
                    EvAccess (str "in/bad.docx"); EvExtract (str "in/bad.docx");
                    EvLog (MsgErrorConverting
                             (ExtractionError (str "empty document")))]))
    by reflexivity.
  split; [exact H|].
  exact (proj1 (action_exit_origin mem_fs mem_env mem_stat _ _ _ _ _ _ H)).
Defined.

(** * Destination names *)

(** X19: for a source named without a directory part, the derived
    destination is the name with its last extension, whatever it is,
    replaced by [.mdx], without a directory part; in a batch with a
    destination directory it is that name joined to the directory. *)
Theorem plain_name_destination stem ext :
  plain_name stem ext ->
  derived_output (stem ++ DOT :: ext) = stem ++ str ".mdx"
  /\ forall inputDir c d,
       batch_target inputDir (Some (c :: d)) (stem ++ DOT :: ext)
       = Path.join (c :: d) (stem ++ str ".mdx").
Proof.
  intros Hp. split; [exact (derived_output_plain stem ext Hp)|].
  intros inputDir c d. unfold batch_target. cbn [falsy attr_or_empty].
  rewrite (basename_plain stem ext Hp). reflexivity.
Qed.

Lemma plain_name_destination_witness :
  plain_name (str "report.final") (str "DOCX")
  /\ derived_output (str "report.final.DOCX") = str "report.final.mdx".
Proof.
  assert (H : plain_name (str "report.final") (str "DOCX")).
  { split; [discriminate|]. split; [reflexivity|]. split; [reflexivity|].
    split; [reflexivity | discriminate]. }
  split; [exact H|].
  exact (proj1 (plain_name_destination (str "report.final") (str "DOCX") H)).
Defined.

(** X20: the download name of the upload endpoint: an original name that
    ends with [.docx], in any letter case, has that ending replaced by
    [.mdx]; any other name is kept as it is. *)
Theorem download_name s :
  (forall stem suffix,
      s = stem ++ suffix -> toLowerCase suffix = str ".docx" ->
      replace_docx_suffix s = stem ++ str ".mdx")
  /\ (endsWith (toLowerCase s) (str ".docx") = false -> replace_docx_suffix s = s).
Proof.
  split.
  - intros stem suffix -> Hsuf. apply replace_docx_suffix_hit.
    rewrite docx_at_end_spec. apply jsstring_eqb_eq. exact Hsuf.
  - intros Hend. apply replace_docx_suffix_miss. intros u v -> .
    destruct (docx_at_end v) eqn:E; [|reflexivity].
    rewrite docx_at_end_spec in E. apply jsstring_eqb_eq in E.
    assert (Ht : endsWith (toLowerCase (u ++ v)) (str ".docx") = true).
    { apply endsWith_split. exists (toLowerCase u).
      unfold toLowerCase in *. rewrite map_app, E. reflexivity. }
    rewrite Ht in Hend. discriminate.
Qed.

Lemma download_name_witness :
  replace_docx_suffix (str "My.docx.Report.DocX") = str "My.docx.Report.mdx"
  /\ replace_docx_suffix (str "notes.docx.bak") = str "notes.docx.bak".
Proof.
  split.
  - exact (proj1 (download_name (str "My.docx.Report.DocX"))
             (str "My.docx.Report") (str ".DocX") eq_refl eq_refl).
  - exact (proj2 (download_name (str "notes.docx.bak")) eq_refl).
Defined.

(** X21: for an original name without a directory part whose extension is
    [docx] in any letter case, the download name of the upload endpoint is
    the destination name that the converter derives for a source of that
    name. *)
Theorem download_name_agrees stem ext :
  plain_name stem ext -> toLowerCase ext = str "docx" ->
  replace_docx_suffix (stem ++ DOT :: ext) = derived_output (stem ++ DOT :: ext).
Proof.
  intros Hp Hext.
  rewrite (derived_output_plain stem ext Hp).
  apply replace_docx_suffix_hit.
  rewrite docx_at_end_spec. apply jsstring_eqb_eq.
  cbn [toLowerCase map]. unfold toLowerCase in Hext. rewrite Hext. reflexivity.
Qed.

Lemma download_name_agrees_witness :
  replace_docx_suffix (str "Report.DOCX") = derived_output (str "Report.DOCX").
Proof.
  apply (download_name_agrees (str "Report") (str "DOCX")); [|reflexivity].
  split; [discriminate|]. split; [reflexivity|]. split; [reflexivity|].
  split; [reflexivity | discriminate].
Defined.

(** * The upload endpoint *)

Ltac run_server :=
  cbv beta iota delta [sbind sret sthrow semit lift readFile unlink setHeader snd];
  cbn [sv_world sv_trace w_fs w_trace].

Ltac read_history := cbn [unlinks statuses sends In app List.length].

Lemma falsy_endpoint_output stamp f : falsy (Some (endpoint_output stamp f)) = false.
Proof. apply falsy_join. Qed.

Lemma content_type_ok : forallb header_char_ok (str "text/plain") = true.
Proof. reflexivity. Qed.

(** X22: when a file came with the request, the endpoint sends one answer,
    with the default status or with status 500, and on every path, success
    or failure, it has asked for the removal of the upload. *)
Theorem upload_removal_attempted FS (env : collaborators FS) fs_readFile fs_unlink
    stamp f (s : server_world FS) :
  truthy (upload_path f) = true ->
  exists mid,
    sv_trace (convert_endpoint env fs_readFile fs_unlink stamp (Some f) s)
      = sv_trace s ++ mid /\
    (statuses mid = [] \/ statuses mid = [500]) /\
    List.length (sends mid) = 1 /\
    In (upload_path f) (unlinks mid).
Proof.
  intros Htr. destruct s as [w tr].
  unfold convert_endpoint, convert_try, convert_catch. rewrite Htr. run_server.
  destruct (convertDocxToMdx env (upload_path f) (Some (endpoint_output stamp f)) w)
    as [[e|out] [fs1 tr1]]; run_server.
  { destruct (fs_unlink fs1 (upload_path f)) as [ce|fs2]; run_server;
      eexists; (split; [rewrite <- !app_assoc; reflexivity|]);
      read_history; tauto. }
  destruct (fs_readFile fs1 (endpoint_output stamp f)) as [e|content]; run_server.
  { destruct (fs_unlink fs1 (upload_path f)) as [ce|fs2]; run_server;
      eexists; (split; [rewrite <- !app_assoc; reflexivity|]);
      read_history; tauto. }
  destruct (fs_unlink fs1 (upload_path f)) as [e|fs2] eqn:E1; run_server.
  { rewrite E1. run_server.
    eexists; (split; [rewrite <- !app_assoc; reflexivity|]);
      read_history; tauto. }
  destruct (fs_unlink fs2 (endpoint_output stamp f)) as [e|fs3]; run_server.
  { destruct (fs_unlink fs2 (upload_path f)) as [ce|fs4]; run_server;
      eexists; (split; [rewrite <- !app_assoc; reflexivity|]);
      read_history; tauto. }
  rewrite content_type_ok. run_server.
  destruct (forallb header_char_ok
              (disposition (replace_docx_suffix (originalname f)))); run_server.
  - eexists; (split; [rewrite <- !app_assoc; reflexivity|]);
      read_history; tauto.
  - destruct (fs_unlink fs3 (upload_path f)) as [ce|fs4]; run_server;
      eexists; (split; [rewrite <- !app_assoc; reflexivity|]);
      read_history; tauto.
Qed.

Lemma upload_removal_attempted_witness :
  exists mid,
    sv_trace (convert_endpoint mem_env mem_readFile mem_unlink (str "1700000000000")
                (Some (Upload (str "a.docx") (str "docs/a.docx")))
                (ServerWorld (World docs_fs []) []))
      = [] ++ mid /\
    (statuses mid = [] \/ statuses mid = [500]) /\
    List.length (sends mid) = 1 /\
    In (str "docs/a.docx") (unlinks mid).
Proof.
  exact (upload_removal_attempted mem_fs mem_env mem_readFile mem_unlink
           (str "1700000000000") (Upload (str "a.docx") (str "docs/a.docx"))
           (ServerWorld (World docs_fs []) []) eq_refl).
Defined.

(** X23: an answer with status 500 carries the error caught.  When that
    error comes from the converter or from storage, the endpoint has not
    asked for the removal of the converted file, unless that removal is the
    very call that failed.  When it is the refusal of the value of the
    header [Content-Disposition], which holds the download name, the upload
    and the converted file were both removed before. *)
Theorem converted_file_kept_on_failure FS (env : collaborators FS) fs_readFile
    fs_unlink stamp f (s : server_world FS) :
  endpoint_output stamp f <> upload_path f ->
  exists mid,
    sv_trace (convert_endpoint env fs_readFile fs_unlink stamp (Some f) s)
      = sv_trace s ++ mid /\
    (statuses mid = [500] ->
     exists e,
       sends mid = [BodyConversionFailed e] /\
       match e with
       | Failed e0 =>
           In (endpoint_output stamp f) (unlinks mid) ->
           exists fs, fs_unlink fs (endpoint_output stamp f) = inl e0
       | InvalidHeaderChar name =>
           name = str "Content-Disposition" /\
           forallb header_char_ok
             (disposition (replace_docx_suffix (originalname f))) = false /\
           exists fs1 fs2 fs3,
             fs_unlink fs1 (upload_path f) = inr fs2 /\
             fs_unlink fs2 (endpoint_output stamp f) = inr fs3
       end).
Proof.
  intros Hne. destruct s as [w tr].
  unfold convert_endpoint, convert_try, convert_catch. run_server.
  destruct (convertDocxToMdx env (upload_path f) (Some (endpoint_output stamp f)) w)
    as [[e|out] [fs1 tr1]]; run_server.
  { destruct (truthy (upload_path f)); run_server;
      [destruct (fs_unlink fs1 (upload_path f)) as [ce|fs2]; run_server|];
      eexists; (split; [rewrite <- !app_assoc; reflexivity|]);
      read_history; intros _; exists (Failed e); (split; [reflexivity|]);
      intros Hi; exfalso;
      repeat (destruct Hi as [Hi|Hi]; [apply Hne; symmetry; exact Hi|]);
      exact Hi. }
  destruct (fs_readFile fs1 (endpoint_output stamp f)) as [e|content]; run_server.
  { destruct (truthy (upload_path f)); run_server;
      [destruct (fs_unlink fs1 (upload_path f)) as [ce|fs2]; run_server|];
      eexists; (split; [rewrite <- !app_assoc; reflexivity|]);
      read_history; intros _; exists (Failed e); (split; [reflexivity|]);
      intros Hi; exfalso;
      repeat (destruct Hi as [Hi|Hi]; [apply Hne; symmetry; exact Hi|]);
      exact Hi. }
  destruct (fs_unlink fs1 (upload_path f)) as [e|fs2] eqn:E1; run_server.
  { destruct (truthy (upload_path f)); run_server;
      [rewrite E1; run_server|];
      eexists; (split; [rewrite <- !app_assoc; reflexivity|]);
      read_history; intros _; exists (Failed e); (split; [reflexivity|]);
      intros Hi; exfalso;
      repeat (destruct Hi as [Hi|Hi]; [apply Hne; symmetry; exact Hi|]);
      exact Hi. }
  destruct (fs_unlink fs2 (endpoint_output stamp f)) as [e|fs3] eqn:E2; run_server.
  { destruct (truthy (upload_path f)); run_server;
      [destruct (fs_unlink fs2 (upload_path f)) as [ce|fs4]; run_server|];
      eexists; (split; [rewrite <- !app_assoc; reflexivity|]);
      read_history; intros _; exists (Failed e); (split; [reflexivity|]);
      intros _; exists fs2; exact E2. }
  rewrite content_type_ok. run_server.
  destruct (forallb header_char_ok
              (disposition (replace_docx_suffix (originalname f)))) eqn:Eh;
    run_server.
  - eexists. split; [rewrite <- !app_assoc; reflexivity|].
    read_history. discriminate.
  - destruct (truthy (upload_path f)); run_server;
      [destruct (fs_unlink fs3 (upload_path f)) as [ce|fs4]; run_server|];
      eexists; (split; [rewrite <- !app_assoc; reflexivity|]);
      read_history; intros _;
      exists (InvalidHeaderChar (str "Content-Disposition"));
      (split; [reflexivity|]); (split; [reflexivity|]);
      (split; [reflexivity|]); exists fs1, fs2, fs3; split; assumption.
Qed.

Lemma converted_file_kept_on_failure_witness :
  statuses
    (sv_trace (convert_endpoint mem_env mem_readFile mem_unlink (str "1700000000000")
                 (Some (Upload (26085%N :: str ".docx") (str "docs/a.docx")))
                 (ServerWorld (World docs_fs []) []))) = [500]
  /\ exists mid,
    sv_trace (convert_endpoint mem_env mem_readFile mem_unlink (str "1700000000000")
                (Some (Upload (26085%N :: str ".docx") (str "docs/a.docx")))
                (ServerWorld (World docs_fs []) []))
      = [] ++ mid /\
    (statuses mid = [500] ->
     exists e,
       sends mid = [BodyConversionFailed e] /\
       match e with
       | Failed e0 =>
           In (endpoint_output (str "1700000000000")
                 (Upload (26085%N :: str ".docx") (str "docs/a.docx"))) (unlinks mid) ->
           exists fs,
             mem_unlink fs
               (endpoint_output (str "1700000000000")
                  (Upload (26085%N :: str ".docx") (str "docs/a.docx"))) = inl e0
       | InvalidHeaderChar name =>
           name = str "Content-Disposition" /\
           forallb header_char_ok
             (disposition (replace_docx_suffix (26085%N :: str ".docx"))) = false /\
           exists fs1 fs2 fs3,
             mem_unlink fs1 (str "docs/a.docx") = inr fs2 /\
             mem_unlink fs2
               (endpoint_output (str "1700000000000")
                  (Upload (26085%N :: str ".docx") (str "docs/a.docx"))) = inr fs3
       end).
Proof.
  split; [vm_compute; reflexivity|].
  apply (converted_file_kept_on_failure mem_fs mem_env mem_readFile mem_unlink
           (str "1700000000000") (Upload (26085%N :: str ".docx") (str "docs/a.docx"))
           (ServerWorld (World docs_fs []) [])).
  vm_compute. discriminate.
Defined.

Ltac failed_answer Hmid Hst :=
  intros Hmid Hst; exfalso; cbn [sv_trace] in Hmid;
  rewrite <- !app_assoc in Hmid; apply app_inv_head in Hmid;
  rewrite <- Hmid in Hst; cbn [unlinks statuses sends app] in Hst;
  discriminate Hst.

(** X24: an answer sent without a status, hence with the default status
    200, means that the converter wrote to the path the endpoint gave it,
    that this file was read back, that the upload and then the converted
    file were removed, and that the value of [Content-Disposition], which
    holds the original name with [.docx] replaced, was accepted; the
    handler then called [res.setHeader] for [Content-Type] with
    [text/plain] and for [Content-Disposition], and [res.send] with the
    text read back. *)
Theorem endpoint_success FS (env : collaborators FS) fs_readFile fs_unlink
    stamp f (s : server_world FS) mid :
  sv_trace (convert_endpoint env fs_readFile fs_unlink stamp (Some f) s)
    = sv_trace s ++ mid ->
  statuses mid = [] ->
  exists w1 content fs2 fs3,
    convertDocxToMdx env (upload_path f) (Some (endpoint_output stamp f)) (sv_world s)
      = (inr (endpoint_output stamp f), w1) /\
    fs_readFile (w_fs w1) (endpoint_output stamp f) = inr content /\
    fs_unlink (w_fs w1) (upload_path f) = inr fs2 /\
    fs_unlink fs2 (endpoint_output stamp f) = inr fs3 /\
    forallb header_char_ok (disposition (replace_docx_suffix (originalname f))) = true /\
    convert_endpoint env fs_readFile fs_unlink stamp (Some f) s =
    ServerWorld (World fs3 (w_trace w1))
      (sv_trace s ++
       [SvLog (SvConverting (originalname f));
        SvReadFile (endpoint_output stamp f);
        SvUnlink (upload_path f);
        SvUnlink (endpoint_output stamp f);
        SvSetHeader (str "Content-Type") (str "text/plain");
        SvSetHeader (str "Content-Disposition")
          (disposition (replace_docx_suffix (originalname f)));
        SvSend (BodyText content);
        SvLog (SvConverted (originalname f)
                 (replace_docx_suffix (originalname f)))]).
Proof.
  revert mid. destruct s as [w tr]. intros mid.
  unfold convert_endpoint, convert_try, convert_catch. run_server.
  destruct (convert_run FS env (upload_path f) (Some (endpoint_output stamp f)) w)
    as (fs1 & mid1 & r & Heq & _ & _ & Hres).
  rewrite Heq. rewrite falsy_endpoint_output in Hres. cbn [attr_or_empty] in Hres.
  destruct r as [e|out]; run_server.
  { destruct (truthy (upload_path f)); run_server;
      [destruct (fs_unlink fs1 (upload_path f)) as [ce|fs2]; run_server|];
      failed_answer Hmid Hst. }
  destruct Hres as (-> & _).
  destruct (fs_readFile fs1 (endpoint_output stamp f)) as [e|content] eqn:Er;
    run_server.
  { destruct (truthy (upload_path f)); run_server;
      [destruct (fs_unlink fs1 (upload_path f)) as [ce|fs2]; run_server|];
      failed_answer Hmid Hst. }
  destruct (fs_unlink fs1 (upload_path f)) as [e|fs2] eqn:E1; run_server.
  { destruct (truthy (upload_path f)); run_server;
      [rewrite E1; run_server|]; failed_answer Hmid Hst. }
  destruct (fs_unlink fs2 (endpoint_output stamp f)) as [e|fs3] eqn:E2; run_server.
  { destruct (truthy (upload_path f)); run_server;
      [destruct (fs_unlink fs2 (upload_path f)) as [ce|fs4]; run_server|];
      failed_answer Hmid Hst. }
  rewrite content_type_ok. run_server.
  destruct (forallb header_char_ok
              (disposition (replace_docx_suffix (originalname f)))) eqn:Eh;
    run_server.
  2:{ destruct (truthy (upload_path f)); run_server;
        [destruct (fs_unlink fs3 (upload_path f)) as [ce|fs4]; run_server|];
        failed_answer Hmid Hst. }
  intros _ _.
  exists (World fs1 (w_trace w ++ mid1)), content, fs2, fs3.
  cbn [w_fs w_trace]. repeat split; try assumption.
  rewrite <- !app_assoc. reflexivity.
Qed.

Lemma endpoint_success_witness :
  exists w1 content fs2 fs3,
    convertDocxToMdx mem_env (str "docs/a.docx")
      (Some (endpoint_output (str "1700000000000")
               (Upload (str "a.docx") (str "docs/a.docx"))))
      (World docs_fs [])
      = (inr (endpoint_output (str "1700000000000")
                (Upload (str "a.docx") (str "docs/a.docx"))), w1) /\
    mem_readFile (w_fs w1)
      (endpoint_output (str "1700000000000")
         (Upload (str "a.docx") (str "docs/a.docx"))) = inr content /\
    mem_unlink (w_fs w1) (str "docs/a.docx") = inr fs2 /\
    mem_unlink fs2
      (endpoint_output (str "1700000000000")
         (Upload (str "a.docx") (str "docs/a.docx"))) = inr fs3 /\
    forallb header_char_ok (disposition (replace_docx_suffix (str "a.docx"))) = true /\
    convert_endpoint mem_env mem_readFile mem_unlink (str "1700000000000")
      (Some (Upload (str "a.docx") (str "docs/a.docx")))
      (ServerWorld (World docs_fs []) []) =
    ServerWorld (World fs3 (w_trace w1))
      ([] ++
       [SvLog (SvConverting (str "a.docx"));
        SvReadFile (endpoint_output (str "1700000000000")
                      (Upload (str "a.docx") (str "docs/a.docx")));
        SvUnlink (str "docs/a.docx");
        SvUnlink (endpoint_output (str "1700000000000")
                    (Upload (str "a.docx") (str "docs/a.docx")));
        SvSetHeader (str "Content-Type") (str "text/plain");
        SvSetHeader (str "Content-Disposition")
          (disposition (replace_docx_suffix (str "a.docx")));
        SvSend (BodyText content);
        SvLog (SvConverted (str "a.docx") (replace_docx_suffix (str "a.docx")))]).
Proof.
  apply (endpoint_success mem_fs mem_env mem_readFile mem_unlink
           (str "1700000000000") (Upload (str "a.docx") (str "docs/a.docx"))
           (ServerWorld (World docs_fs []) [])
           (sv_trace (convert_endpoint mem_env mem_readFile mem_unlink
                        (str "1700000000000")
                        (Some (Upload (str "a.docx") (str "docs/a.docx")))
                        (ServerWorld (World docs_fs []) [])))).
  - reflexivity.
  - vm_compute. reflexivity.
Defined.
